(** * shell-how: provider abstraction and configuration-driven dispatch

    A shallow embedding of the configuration service
    ([src/services/configService.ts]), the validation schemas
    ([types/zodSchemas.ts]), the provider clients
    ([llms/providers/oppenai.ts], [llms/providers/azureOpenai.ts]), the
    provider factory ([llms/index.ts]), the orchestrator
    ([core/orchestrator.ts]), the action of the command-line [explain]
    command ([cli/commands/explainCommand.ts]) and, of the interactive
    session ([interactiveSession.ts]), the generation step with the menu
    that follows a suggestion, the execution of a suggestion and the
    tests of the input loop.

    Asynchronous functions are sequential here (every call is awaited at
    once), so a promise is an outcome: resolved with a value or rejected
    with an error.  State lives in an explicit [World]. *)

From Stdlib Require Import Ascii String.
From stdpp Require Import base option list strings countable pretty.

Local Open Scope string_scope.
Local Set Warnings "-register-all".

(** ** JavaScript values that the code inspects *)

(** The double quote character, for messages that quote their argument. *)
Definition quote : string := String (ascii_of_nat 34) EmptyString.

(** Truthiness of an optional string: [undefined], [null] and the empty
    string are falsy. *)
Definition truthy (v : option string) : bool :=
  match v with
  | Some s => negb (String.eqb s "")
  | None => false
  end.

(** [a || b] on optional strings. *)
Definition js_or (a b : option string) : option string :=
  if truthy a then a else b.

(** [a || 'literal'] where the right operand is a string. *)
Definition js_or_str (a : option string) (b : string) : string :=
  match a with
  | Some s => if String.eqb s "" then b else s
  | None => b
  end.

(** [{ ...a, ...b }] on one optional property: the property of [b] wins
    when [b] has it. *)
Definition spread_field {A : Type} (a b : option A) : option A :=
  match b with
  | Some v => Some v
  | None => a
  end.

Definition ascii_toLowerCase (c : ascii) : ascii :=
  let n := nat_of_ascii c in
  if (65 <=? n)%nat && (n <=? 90)%nat then ascii_of_nat (n + 32) else c.

(** [s.toLowerCase()], on the ASCII letters. *)
Fixpoint toLowerCase (s : string) : string :=
  match s with
  | EmptyString => EmptyString
  | String c r => String (ascii_toLowerCase c) (toLowerCase r)
  end.

(** [s.startsWith(p)] *)
Definition startsWith (s p : string) : bool := String.prefix p s.

(** Parsed JSON documents.  An object lists its own properties; a
    property is read by its first (and, after [JSON.parse], only)
    occurrence. *)
Inductive Json : Type :=
  | JNull
  | JBool (b : bool)
  | JNum (n : Z)
  | JStr (s : string)
  | JArr (items : list Json)
  | JObj (props : list (string * Json)).

Fixpoint prop (k : string) (props : list (string * Json)) : option Json :=
  match props with
  | [] => None
  | (k', v) :: rest => if String.eqb k k' then Some v else prop k rest
  end.

(** ** types/interfaces.ts *)

Inductive ProviderId : Type := openai | azure | local.

#[global] Instance ProviderId_eq_dec : EqDecision ProviderId.
Proof. solve_decision. Defined.

Definition ProviderId_name (p : ProviderId) : string :=
  match p with
  | openai => "openai"
  | azure => "azure"
  | local => "local"
  end.

Record LLMProviderConfig : Type := {
  apiKey : option string;
  baseUrl : option string;
  model : option string;
  apiVersion : option string;
}.

Record Providers : Type := {
  of_openai : option LLMProviderConfig;
  of_azure : option LLMProviderConfig;
  of_local : option LLMProviderConfig;
}.

Record AppConfig : Type := {
  defaultProvider : ProviderId;
  providers : Providers;
}.

(** [providers[name]] *)
Definition provider_get (name : ProviderId) (ps : Providers) : option LLMProviderConfig :=
  match name with
  | openai => of_openai ps
  | azure => of_azure ps
  | local => of_local ps
  end.

(** [providers[name] = block] *)
Definition provider_set (name : ProviderId) (block : LLMProviderConfig) (ps : Providers) : Providers :=
  match name with
  | openai => {| of_openai := Some block; of_azure := of_azure ps; of_local := of_local ps |}
  | azure => {| of_openai := of_openai ps; of_azure := Some block; of_local := of_local ps |}
  | local => {| of_openai := of_openai ps; of_azure := of_azure ps; of_local := Some block |}
  end.

Record LLMUsage : Type := {
  promptTokens : option N;
  completionTokens : option N;
  totalTokens : option N;
}.

Record LLMResponse : Type := {
  content : option string;
  error : option string;
  usage : option LLMUsage;
}.

(** The empty object [{}] as a provider block. *)
Definition empty_block : LLMProviderConfig :=
  {| apiKey := None; baseUrl := None; model := None; apiVersion := None |}.

(** [{ ...a, ...b }] on provider blocks. *)
Definition spread (a b : LLMProviderConfig) : LLMProviderConfig :=
  {| apiKey := spread_field (apiKey a) (apiKey b);
     baseUrl := spread_field (baseUrl a) (baseUrl b);
     model := spread_field (model a) (model b);
     apiVersion := spread_field (apiVersion a) (apiVersion b) |}.

(** [{ ...a, ...b }] where [b] may be [undefined]. *)
Definition spread_opt (a : LLMProviderConfig) (b : option LLMProviderConfig) : LLMProviderConfig :=
  match b with
  | Some b => spread a b
  | None => a
  end.

(** A property as an object literal writes it: left out, written with
    [undefined], or written with a text.  On the right of a spread the
    first keeps the property of the left operand and the second erases
    it; a reader of the result, the schema and [JSON.stringify] see
    [undefined] for both. *)
Inductive Property : Type :=
  | omitted
  | undefined
  | given (s : string).

(** [Partial<LLMProviderConfig>], as the argument of a call writes it. *)
Record Partial_LLMProviderConfig : Type := {
  apiKey_of : Property;
  baseUrl_of : Property;
  model_of : Property;
  apiVersion_of : Property;
}.

(** [{ ...a, ...b }] on one property, [b] as written. *)
Definition spread_property (a : option string) (b : Property) : option string :=
  match b with
  | omitted => a
  | undefined => None
  | given s => Some s
  end.

(** [{ ...a, ...b }] on a provider block and an object as written. *)
Definition spread_written (a : LLMProviderConfig) (b : Partial_LLMProviderConfig)
  : LLMProviderConfig :=
  {| apiKey := spread_property (apiKey a) (apiKey_of b);
     baseUrl := spread_property (baseUrl a) (baseUrl_of b);
     model := spread_property (model a) (model_of b);
     apiVersion := spread_property (apiVersion a) (apiVersion_of b) |}.

(** The object graph of a typed configuration, as the runtime sees it:
    an optional property that is absent has no key. *)
Definition own (k : string) (v : option Json) : list (string * Json) :=
  match v with
  | Some j => [(k, j)]
  | None => []
  end.

Definition LLMProviderConfig_toJs (c : LLMProviderConfig) : Json :=
  JObj (own "apiKey" (JStr <$> apiKey c) ++ own "baseUrl" (JStr <$> baseUrl c)
        ++ own "model" (JStr <$> model c) ++ own "apiVersion" (JStr <$> apiVersion c)).

Definition Providers_toJs (ps : Providers) : Json :=
  JObj (own "openai" (LLMProviderConfig_toJs <$> of_openai ps)
        ++ own "azure" (LLMProviderConfig_toJs <$> of_azure ps)
        ++ own "local" (LLMProviderConfig_toJs <$> of_local ps)).

Definition AppConfig_toJs (c : AppConfig) : Json :=
  JObj [("defaultProvider", JStr (ProviderId_name (defaultProvider c)));
        ("providers", Providers_toJs (providers c))].

(** ** What the platform provides

    [JSON.parse], [JSON.stringify], the URL check behind zod's
    [z.string().url()], the text zod renders for a failed validation, and
    the chat-completion endpoint behind the SDK clients are not code of
    this repository.  They are taken as they are, with the three facts
    about them that the configuration service relies on. *)

(** The options the SDK constructors receive. *)
Inductive SdkClient : Type :=
  | new_OpenAI (apiKey_ : option string) (baseURL_ : option string)
  | new_AzureOpenAI (apiKey_ : option string) (deployment_ : option string)
                    (apiVersion_ : string) (endpoint_ : option string).

Inductive Role : Type := system | user.

Record ChatMessage : Type := { role : Role; text : string }.

Record ChatRequest : Type := { req_model : string; messages : list ChatMessage }.

Record CompletionUsage : Type := {
  prompt_tokens : N;
  completion_tokens : N;
  total_tokens : N;
}.

Record ChatCompletionMessage : Type := { message_content : option string }.

Record Choice : Type := { message : option ChatCompletionMessage }.

Record ChatCompletion : Type := {
  choices : list Choice;
  completion_usage : option CompletionUsage;
}.

Record JsError : Type := {
  instanceof_ZodError : bool;
  error_message : string;
}.

Definition Error (msg : string) : JsError :=
  {| instanceof_ZodError := false; error_message := msg |}.

Class Runtime : Type := {
  (** [JSON.parse(text)]; [None] when it throws a SyntaxError *)
  JSON_parse : string -> option Json;
  (** [JSON.stringify(value, null, 2)] *)
  JSON_stringify : Json -> string;
  (** the check of [z.string().url()] *)
  isUrl : string -> bool;
  (** the message of the ZodError raised for a rejected input *)
  ZodError_message : Json -> string;
  (** [client.chat.completions.create(request)]: a completion, or the
      error it rejects with *)
  chat_completions_create : SdkClient -> ChatRequest -> ChatCompletion + JsError;
  (** the empty text is not JSON *)
  JSON_parse_empty : JSON_parse "" = None;
  (** parsing gives back the configuration document that was written *)
  JSON_parse_stringify :
    forall c : AppConfig, JSON_parse (JSON_stringify (AppConfig_toJs c)) = Some (AppConfig_toJs c);
  (** the default endpoint of the local provider is a URL *)
  isUrl_localhost : isUrl "http://localhost:1234/v1" = true;
}.

(** ** types/zodSchemas.ts *)

Section Schemas.
Context `{Runtime}.

(** [z.string()] *)
Definition z_string (v : Json) : option string :=
  match v with
  | JStr s => Some s
  | _ => None
  end.

(** [z.string().url()] *)
Definition z_string_url (v : Json) : option string :=
  match v with
  | JStr s => if isUrl s then Some s else None
  | _ => None
  end.

(** [schema.optional()], applied to a property that may be absent *)
Definition z_optional {A : Type} (schema : Json -> option A) (v : option Json) : option (option A) :=
  match v with
  | None => Some None
  | Some j => Some <$> schema j
  end.

(** a required property *)
Definition z_required {A : Type} (schema : Json -> option A) (v : option Json) : option A :=
  v ≫= schema.

(** [z.enum(['openai', 'azure', 'local'])] *)
Definition z_enum_ProviderId (v : Json) : option ProviderId :=
  match v with
  | JStr s =>
      if String.eqb s "openai" then Some openai
      else if String.eqb s "azure" then Some azure
      else if String.eqb s "local" then Some local
      else None
  | _ => None
  end.

(** [schema.default(d)], applied to a property that may be absent *)
Definition z_default {A : Type} (schema : Json -> option A) (d : A) (v : option Json) : option A :=
  match v with
  | None => Some d
  | Some j => schema j
  end.

(** [LLMProviderConfigSchema]: an object with three optional string
    properties; a key the schema does not declare is dropped from the
    result. *)
Definition LLMProviderConfigSchema (v : Json) : option LLMProviderConfig :=
  match v with
  | JObj o =>
      k ← z_optional z_string (prop "apiKey" o);
      u ← z_optional z_string_url (prop "baseUrl" o);
      m ← z_optional z_string (prop "model" o);
      Some {| apiKey := k; baseUrl := u; model := m; apiVersion := None |}
  | _ => None
  end.

Definition ProvidersSchema (v : Json) : option Providers :=
  match v with
  | JObj o =>
      a ← z_optional LLMProviderConfigSchema (prop "openai" o);
      b ← z_optional LLMProviderConfigSchema (prop "azure" o);
      c ← z_optional LLMProviderConfigSchema (prop "local" o);
      Some {| of_openai := a; of_azure := b; of_local := c |}
  | _ => None
  end.

(** [AppConfigSchema]; [None] is a failed validation. *)
Definition AppConfigSchema (v : Json) : option AppConfig :=
  match v with
  | JObj o =>
      d ← z_default z_enum_ProviderId openai (prop "defaultProvider" o);
      ps ← z_required ProvidersSchema (prop "providers" o);
      Some {| defaultProvider := d; providers := ps |}
  | _ => None
  end.

Definition ZodError (input : Json) : JsError :=
  {| instanceof_ZodError := true; error_message := ZodError_message input |}.
End Schemas.

(** ** Objects and the state of the process *)

(** The object a call of [loadConfig] returns: either the module-level
    [defaultConfig] object itself (the two recovery paths return it, so a
    caller that assigns to it changes the defaults of the process), or an
    object built by the call. *)
Inductive ConfigRef : Type :=
  | TheDefault
  | Fresh (c : AppConfig).

(** Fields of an [OpenAIProvider]. *)
Record OpenAIProvider : Type := {
  oa_openai : option SdkClient;
  oa_activeConfig : option LLMProviderConfig;
  oa_appConfig : option ConfigRef;
}.

(** Fields of an [AzureOpenAIProvider]. *)
Record AzureOpenAIProvider : Type := {
  az_client : option SdkClient;
  az_appConfig : option ConfigRef;
  az_activeConfig : option LLMProviderConfig;
  az_deploymentName : option string;
}.

(** Modelled from the spec: the class [LocalLLMProvider] of
    [llms/providers/localLlm.ts] is imported by the factory but its file is
    not among the sources.  Section 4.3 gives every client the same lazy
    initialisation; the fields are those of the cloud client. *)
Record LocalLLMProvider : Type := {
  lo_client : option SdkClient;
  lo_activeConfig : option LLMProviderConfig;
  lo_appConfig : option ConfigRef;
}.

(** A value of the interface [LLMProvider]. *)
Inductive LLMProvider : Type :=
  | an_OpenAIProvider (this : OpenAIProvider)
  | an_AzureOpenAIProvider (this : AzureOpenAIProvider)
  | a_LocalLLMProvider (this : LocalLLMProvider).

Definition new_OpenAIProvider : OpenAIProvider :=
  {| oa_openai := None; oa_activeConfig := None; oa_appConfig := None |}.

Definition new_AzureOpenAIProvider : AzureOpenAIProvider :=
  {| az_client := None; az_appConfig := None; az_activeConfig := None; az_deploymentName := None |}.

Definition new_LocalLLMProvider : LocalLLMProvider :=
  {| lo_client := None; lo_activeConfig := None; lo_appConfig := None |}.

(** What the terminal is sent, in order. *)
Inductive Event : Type :=
  | spinner_start (msg : string)
  | spinner_succeed (msg : string)
  | spinner_warn (msg : string)
  | spinner_fail (msg : string)
  | spinner_stop
  | console_log (msg : string)
  | console_warn (msg : string)
  | console_error (msg : string)
  | inquirer_prompt (msg : string).

(** The configuration directory and file under the home directory. *)
Inductive ConfigDisk : Type :=
  | NoDir
  | NoFile
  | File (text : string).

Record World : Type := {
  (** the current value of the module-level object [defaultConfig] *)
  defaultConfig : AppConfig;
  disk : ConfigDisk;
  (** the provider objects constructed so far; a reference is an index *)
  heap : list LLMProvider;
  console : list Event;
}.

Definition with_defaultConfig (c : AppConfig) (w : World) : World :=
  {| defaultConfig := c; disk := disk w; heap := heap w; console := console w |}.

Definition with_disk (d : ConfigDisk) (w : World) : World :=
  {| defaultConfig := defaultConfig w; disk := d; heap := heap w; console := console w |}.

Definition with_heap (h : list LLMProvider) (w : World) : World :=
  {| defaultConfig := defaultConfig w; disk := disk w; heap := h; console := console w |}.

Definition with_console (c : list Event) (w : World) : World :=
  {| defaultConfig := defaultConfig w; disk := disk w; heap := heap w; console := c |}.

(** The outcome of an awaited call. *)
Inductive Outcome (A : Type) : Type :=
  | Returned (a : A)
  | Thrown (e : JsError).
Arguments Returned {A} a.
Arguments Thrown {A} e.

(** A computation over a state [S]: a state transformer that returns or
    throws.  The state survives a throw. *)
Definition ST (S A : Type) : Type := S -> Outcome A * S.

(** A computation of the process. *)
Abbreviation M := (ST World).

Definition ret {S A : Type} (a : A) : ST S A := fun s => (Returned a, s).

Definition throw {S A : Type} (e : JsError) : ST S A := fun s => (Thrown e, s).

Definition bind {S A B : Type} (m : ST S A) (k : A -> ST S B) : ST S B :=
  fun s =>
    match m s with
    | (Returned a, s') => k a s'
    | (Thrown e, s') => (Thrown e, s')
    end.

(** [try { m } catch (error) { handler(error) }] *)
Definition try_catch {S A : Type} (m : ST S A) (handler : JsError -> ST S A) : ST S A :=
  fun s =>
    match m s with
    | (Returned a, s') => (Returned a, s')
    | (Thrown e, s') => handler e s'
    end.

Declare Scope M_scope.
Delimit Scope M_scope with M.
Notation "x <- m ;; k" := (bind m (fun x => k))
  (at level 100, m at next level, right associativity) : M_scope.
Notation "m ;; k" := (bind m (fun _ => k))
  (at level 100, right associativity) : M_scope.
Local Open Scope M_scope.

Definition get {S : Type} : ST S S := fun s => (Returned s, s).

Definition modify {S : Type} (f : S -> S) : ST S unit := fun s => (Returned tt, f s).

Definition get_world : M World := get.

Definition emit (e : Event) : M unit :=
  modify (fun w => with_console (console w ++ [e]) w).

(** *** The file system calls of the configuration service *)

(** [fs.access(CONFIG_DIR_PATH)] *)
Definition fs_access : M unit :=
  fun w =>
    match disk w with
    | NoDir => (Thrown (Error "ENOENT: no such file or directory"), w)
    | _ => (Returned tt, w)
    end.

(** [fs.mkdir(CONFIG_DIR_PATH, { recursive: true })] *)
Definition fs_mkdir : M unit :=
  fun w =>
    match disk w with
    | NoDir => (Returned tt, with_disk NoFile w)
    | _ => (Returned tt, w)
    end.

(** [fs.readFile(CONFIG_FILE_PATH, 'utf-8')] *)
Definition fs_readFile : M string :=
  fun w =>
    match disk w with
    | File s => (Returned s, w)
    | _ => (Thrown (Error "ENOENT: no such file or directory"), w)
    end.

(** [fs.writeFile(CONFIG_FILE_PATH, text)] *)
Definition fs_writeFile (s : string) : M unit :=
  fun w =>
    match disk w with
    | NoDir => (Thrown (Error "ENOENT: no such file or directory"), w)
    | _ => (Returned tt, with_disk (File s) w)
    end.

(** ** services/configService.ts *)

(** The value [defaultConfig] is initialised with. *)
Definition defaultConfig_initial : AppConfig :=
  {| defaultProvider := openai;
     providers :=
       {| of_openai := Some {| apiKey := None; baseUrl := None;
                               model := Some "gpt-3.5-turbo"; apiVersion := None |};
          of_azure := Some empty_block;
          of_local := Some {| apiKey := None; baseUrl := Some "http://localhost:1234/v1";
                              model := Some "local-model"; apiVersion := None |} |} |}.

(** Reading through a reference to a configuration object. *)
Definition deref (r : ConfigRef) (w : World) : AppConfig :=
  match r with
  | TheDefault => defaultConfig w
  | Fresh c => c
  end.

(** [{ ...d, ...l }] where either block may be [undefined]. *)
Definition spread_blocks (d l : option LLMProviderConfig) : LLMProviderConfig :=
  spread_opt (spread_opt empty_block d) l.

(** The object literal [loadConfig] returns on success. *)
Definition merge_over (d loadedConfig : AppConfig) : AppConfig :=
  {| defaultProvider := defaultProvider loadedConfig;
     providers :=
       {| of_openai := Some (spread_blocks (of_openai (providers d)) (of_openai (providers loadedConfig)));
          of_azure := Some (spread_blocks (of_azure (providers d)) (of_azure (providers loadedConfig)));
          of_local := Some (spread_blocks (of_local (providers d)) (of_local (providers loadedConfig))) |} |}.

Section ConfigService.
Context `{Runtime}.

Definition ensureConfigDirExists : M unit :=
  try_catch fs_access (fun _ => fs_mkdir).

(** [JSON.parse(text)] as a call that may throw *)
Definition JSON_parse_or_throw (s : string) : M Json :=
  match JSON_parse s with
  | Some j => ret j
  | None => throw (Error "SyntaxError")
  end.

(** [AppConfigSchema.parse(value)] *)
Definition AppConfigSchema_parse (v : Json) : M AppConfig :=
  match AppConfigSchema v with
  | Some data => ret data
  | None => throw (ZodError v)
  end.

Definition saveConfig (config : AppConfig) : M unit :=
  emit (spinner_start "Saving configuration...");;
  try_catch
    (validatedConfig <- AppConfigSchema_parse (AppConfig_toJs config);;
     ensureConfigDirExists;;
     fs_writeFile (JSON_stringify (AppConfig_toJs validatedConfig));;
     emit (spinner_succeed "Configuration saved successfully."))
    (fun error =>
       emit (spinner_fail ("Error saving configuration: " +:+ error_message error));;
       if instanceof_ZodError error
       then emit (console_error ("Zod validation error details: " +:+ error_message error))
       else ret tt).

Definition loadConfig : M ConfigRef :=
  emit (spinner_start "Loading configuration...");;
  try_catch
    (ensureConfigDirExists;;
     fileContent <- fs_readFile;;
     parsedJson <- JSON_parse_or_throw fileContent;;
     match AppConfigSchema parsedJson with
     | Some loadedConfig =>
         emit (spinner_succeed "Configuration loaded successfully.");;
         w <- get_world;;
         ret (Fresh (merge_over (defaultConfig w) loadedConfig))
     | None =>
         emit (spinner_warn ("Invalid configuration: " +:+ ZodError_message parsedJson
                             +:+ ". Using default configuration."));;
         w <- get_world;;
         saveConfig (defaultConfig w);;
         ret TheDefault
     end)
    (fun _ =>
       emit (spinner_warn "Configuration file not found or error reading/parsing. Using and creating default configuration.");;
       w <- get_world;;
       saveConfig (defaultConfig w);;
       ret TheDefault).

(** [currentConfig.providers[providerName] = block], through the
    reference [loadConfig] gave. *)
Definition assign_provider (r : ConfigRef) (name : ProviderId) (block : LLMProviderConfig)
  : M ConfigRef :=
  fun w =>
    let c := deref r w in
    let c' := {| defaultProvider := defaultProvider c;
                 providers := provider_set name block (providers c) |} in
    match r with
    | TheDefault => (Returned TheDefault, with_defaultConfig c' w)
    | Fresh _ => (Returned (Fresh c'), w)
    end.

(** [currentConfig.defaultProvider = providerName] *)
Definition assign_defaultProvider (r : ConfigRef) (name : ProviderId) : M ConfigRef :=
  fun w =>
    let c := deref r w in
    let c' := {| defaultProvider := name; providers := providers c |} in
    match r with
    | TheDefault => (Returned TheDefault, with_defaultConfig c' w)
    | Fresh _ => (Returned (Fresh c'), w)
    end.

Definition updateProviderConfig (providerName : ProviderId)
    (updateData : Partial_LLMProviderConfig) : M unit :=
  currentConfig <- loadConfig;;
  w <- get_world;;
  let providerConfig :=
    default empty_block (provider_get providerName (providers (deref currentConfig w))) in
  currentConfig <- assign_provider currentConfig providerName
                     (spread_written providerConfig updateData);;
  w <- get_world;;
  saveConfig (deref currentConfig w).

Definition setDefaultProvider (providerName : ProviderId) : M unit :=
  currentConfig <- loadConfig;;
  currentConfig <- assign_defaultProvider currentConfig providerName;;
  w <- get_world;;
  saveConfig (deref currentConfig w).
End ConfigService.

(** ** What the configuration service leaves behind

    The functions below describe, as values, what [saveConfig] and
    [loadConfig] do to the disk and return; the lemmas on the service are
    stated with them. *)

(** What validation keeps of a provider block: the declared keys. *)
Definition declared (b : LLMProviderConfig) : LLMProviderConfig :=
  {| apiKey := apiKey b; baseUrl := baseUrl b; model := model b; apiVersion := None |}.

Definition declared_config (c : AppConfig) : AppConfig :=
  {| defaultProvider := defaultProvider c;
     providers := {| of_openai := declared <$> of_openai (providers c);
                     of_azure := declared <$> of_azure (providers c);
                     of_local := declared <$> of_local (providers c) |} |}.

Section Observations.
Context `{Runtime}.

(** The [baseUrl] of the block, when present, passes the URL check. *)
Definition url_ok (b : LLMProviderConfig) : bool :=
  match baseUrl b with
  | Some u => isUrl u
  | None => true
  end.

(** The same check on an object as written: [undefined] passes. *)
Definition url_ok_written (u : Partial_LLMProviderConfig) : bool :=
  match baseUrl_of u with
  | given s => isUrl s
  | _ => true
  end.

Definition urls_ok (c : AppConfig) : bool :=
  from_option url_ok true (of_openai (providers c))
  && from_option url_ok true (of_azure (providers c))
  && from_option url_ok true (of_local (providers c)).

(** The document the file holds, when it parses and validates. *)
Definition stored (d : ConfigDisk) : option AppConfig :=
  match d with
  | File s => JSON_parse s ≫= AppConfigSchema
  | _ => None
  end.

(** The disk after a call of [saveConfig]. *)
Definition disk_after_save (config : AppConfig) (d : ConfigDisk) : ConfigDisk :=
  match AppConfigSchema (AppConfig_toJs config) with
  | Some validatedConfig => File (JSON_stringify (AppConfig_toJs validatedConfig))
  | None => d
  end.

(** The disk after a call of [loadConfig]. *)
Definition disk_after_load (d0 : AppConfig) (d : ConfigDisk) : ConfigDisk :=
  match stored d with
  | Some _ => d
  | None => disk_after_save d0 (match d with NoDir => NoFile | _ => d end)
  end.

(** The object [loadConfig] returns. *)
Definition loaded (d0 : AppConfig) (d : ConfigDisk) : ConfigRef :=
  match stored d with
  | Some loadedConfig => Fresh (merge_over d0 loadedConfig)
  | None => TheDefault
  end.

(** The configuration a call of [loadConfig] shows in state [w]. *)
Definition shown (w : World) : AppConfig :=
  match stored (disk w) with
  | Some loadedConfig => merge_over (defaultConfig w) loadedConfig
  | None => defaultConfig w
  end.
End Observations.

(** ** The provider clients *)

(** An object reference is truthy unless it is [null]. *)
Definition not_null {A : Type} (o : option A) : bool :=
  match o with
  | Some _ => true
  | None => false
  end.

(** A method body runs over the fields of [this] and the process state. *)
Definition get_this {T : Type} : ST (T * World) T := fun s => (Returned (fst s), s).

Definition set_this {T : Type} (f : T -> T) : ST (T * World) unit :=
  fun s => (Returned tt, (f (fst s), snd s)).

Definition the_world {T : Type} : ST (T * World) World := fun s => (Returned (snd s), s).

(** A call of a function of the process from a method body. *)
Definition call {T A : Type} (m : M A) : ST (T * World) A :=
  fun s => let (o, w') := m (snd s) in (o, (fst s, w')).

(** [completion.choices[0]?.message?.content || ''] *)
Definition responseContent (completion : ChatCompletion) : string :=
  js_or_str ((head (choices completion) ≫= message) ≫= message_content) "".

(** The object returned after a completion. *)
Definition response_of (completion : ChatCompletion) : LLMResponse :=
  {| content := Some (responseContent completion);
     error := None;
     usage := Some {| promptTokens := prompt_tokens <$> completion_usage completion;
                      completionTokens := completion_tokens <$> completion_usage completion;
                      totalTokens := total_tokens <$> completion_usage completion |} |}.

(** [{ content: null, error: error.message }] *)
Definition response_of_error (e : JsError) : LLMResponse :=
  {| content := None; error := Some (error_message e); usage := None |}.

Section Providers.
Context `{Runtime}.

(** [await client.chat.completions.create(request)] *)
Definition create {S : Type} (client : SdkClient) (request : ChatRequest) : ST S ChatCompletion :=
  match chat_completions_create client request with
  | inl completion => ret completion
  | inr e => throw e
  end.

(** *** llms/providers/oppenai.ts *)

Definition OpenAI_GENERATE_SYSTEM_PROMPT : string :=
  "You are a command-line expert. Generate a concise and accurate shell command based on the following request. Return only the command itself, with no additional explanation or markdown. If you cannot generate a command, return "
  +:+ quote +:+ "Error: Cannot generate command." +:+ quote +:+ ".".

Definition EXPLAIN_SYSTEM_PROMPT : string :=
  "You are a command-line expert. Explain the following shell command clearly and concisely. Focus on its main function and important parameters.".

Definition OpenAIProvider_initializeClient : ST (OpenAIProvider * World) unit :=
  this <- get_this;;
  if not_null (oa_openai this) && not_null (oa_activeConfig this) then ret tt
  else
    cfg <- call loadConfig;;
    set_this (fun this => {| oa_openai := oa_openai this;
                             oa_activeConfig := oa_activeConfig this;
                             oa_appConfig := Some cfg |});;
    w <- the_world;;
    let openaiSpecificConfig := of_openai (providers (deref cfg w)) in
    if negb (truthy (openaiSpecificConfig ≫= apiKey))
    then throw (Error "API key for OpenAI is not configured. Run the `configure` command.")
    else
      set_this (fun this => {| oa_openai := Some (new_OpenAI (openaiSpecificConfig ≫= apiKey) None);
                               oa_activeConfig := openaiSpecificConfig;
                               oa_appConfig := oa_appConfig this |}).

Definition OpenAIProvider_getModel (this : OpenAIProvider) (userModel : option string) : string :=
  js_or_str (js_or userModel (oa_activeConfig this ≫= model)) "gpt-3.5-turbo".

Definition OpenAIProvider_generate (promptContent : string) (model_ : option string)
  : ST (OpenAIProvider * World) LLMResponse :=
  OpenAIProvider_initializeClient;;
  this <- get_this;;
  match oa_openai this with
  | None => throw (Error "OpenAI client not initialized.")
  | Some client =>
      try_catch
        (completion <- create client
                         {| req_model := OpenAIProvider_getModel this model_;
                            messages := [ {| role := system; text := OpenAI_GENERATE_SYSTEM_PROMPT |};
                                          {| role := user; text := promptContent |} ] |};;
         ret (response_of completion))
        (fun error => ret (response_of_error error))
  end.

Definition OpenAIProvider_explain (command : string) (model_ : option string)
  : ST (OpenAIProvider * World) LLMResponse :=
  OpenAIProvider_initializeClient;;
  this <- get_this;;
  match oa_openai this with
  | None => throw (Error "OpenAI client not initialized.")
  | Some client =>
      try_catch
        (completion <- create client
                         {| req_model := OpenAIProvider_getModel this model_;
                            messages := [ {| role := system; text := EXPLAIN_SYSTEM_PROMPT |};
                                          {| role := user;
                                             text := "Explain the following command: " +:+ command |} ] |};;
         ret (response_of completion))
        (fun error => ret (response_of_error error))
  end.

(** *** llms/providers/azureOpenai.ts *)

Definition Azure_GENERATE_SYSTEM_PROMPT : string :=
  "You are a terminal assistant. Turn the natural language instructions into a terminal command. By default always only output code, and in a code block. However, if the user is clearly asking a question then answer it very briefly and well. Consider when the user request references a previous request.".

Definition AzureOpenAIProvider_initializeClient : ST (AzureOpenAIProvider * World) unit :=
  this <- get_this;;
  if not_null (az_client this) && not_null (az_activeConfig this) then ret tt
  else
    cfg <- call loadConfig;;
    set_this (fun this => {| az_client := az_client this;
                             az_appConfig := Some cfg;
                             az_activeConfig := az_activeConfig this;
                             az_deploymentName := az_deploymentName this |});;
    w <- the_world;;
    let azureConfig := of_azure (providers (deref cfg w)) in
    if negb (truthy (azureConfig ≫= apiKey)) || negb (truthy (azureConfig ≫= baseUrl))
       || negb (truthy (azureConfig ≫= model))
    then throw (Error "API key, endpoint (baseUrl), or deployment name (model) of Azure OpenAI are not configured. Run the `configure` command")
    else
      let apiVersion_ := js_or_str (azureConfig ≫= apiVersion) "2025-03-01-preview" in
      set_this (fun this => {| az_client := Some (new_AzureOpenAI (azureConfig ≫= apiKey)
                                                    (azureConfig ≫= model) apiVersion_
                                                    (azureConfig ≫= baseUrl));
                               az_appConfig := az_appConfig this;
                               az_activeConfig := azureConfig;
                               az_deploymentName := azureConfig ≫= model |}).

Definition AzureOpenAIProvider_getModel (this : AzureOpenAIProvider) (userModel : option string)
  : string :=
  js_or_str (js_or userModel (az_deploymentName this)) "gpt-4o".

Definition AzureOpenAIProvider_generate (promptContent : string) (model_ : option string)
  : ST (AzureOpenAIProvider * World) LLMResponse :=
  AzureOpenAIProvider_initializeClient;;
  this <- get_this;;
  match az_client this with
  | None => throw (Error "Azure OpenAI client is not initialized.")
  | Some client =>
      try_catch
        (completion <- create client
                         {| req_model := AzureOpenAIProvider_getModel this model_;
                            messages := [ {| role := system; text := Azure_GENERATE_SYSTEM_PROMPT |};
                                          {| role := user; text := promptContent |} ] |};;
         ret (response_of completion))
        (fun error => ret (response_of_error error))
  end.

Definition AzureOpenAIProvider_explain (command : string) (model_ : option string)
  : ST (AzureOpenAIProvider * World) LLMResponse :=
  AzureOpenAIProvider_initializeClient;;
  this <- get_this;;
  match az_client this with
  | None => throw (Error "Azure OpenAI client not initialized.")
  | Some client =>
      try_catch
        (completion <- create client
                         {| req_model := AzureOpenAIProvider_getModel this model_;
                            messages := [ {| role := system; text := EXPLAIN_SYSTEM_PROMPT |};
                                          {| role := user;
                                             text := "Explain the following command: " +:+ command |} ] |};;
         ret (response_of completion))
        (fun error => ret (response_of_error error))
  end.
End Providers.

(** *** The local client *)

(** Modelled from the spec: the constants of [llms/providers/localLlm.ts],
    which is not among the sources: the two system instructions of
    section 4.3, the fallback model name of the variant and the text of its
    configuration error. *)
Class LocalLLMConstants : Type := {
  LOCAL_GENERATE_SYSTEM_PROMPT : string;
  LOCAL_EXPLAIN_SYSTEM_PROMPT : string;
  LOCAL_FALLBACK_MODEL : string;
  LOCAL_CONFIGURATION_ERROR : string;
}.

Section LocalProvider.
Context `{Runtime} `{LocalLLMConstants}.

(** Modelled from the spec: the initialisation of the missing
    [LocalLLMProvider], after section 4.3: lazy and idempotent; loads the
    configuration and takes the block of the provider; the local variant
    requires a base URL, and a missing required field fails with a
    configuration error. *)
Definition LocalLLMProvider_initializeClient : ST (LocalLLMProvider * World) unit :=
  this <- get_this;;
  if not_null (lo_client this) && not_null (lo_activeConfig this) then ret tt
  else
    cfg <- call loadConfig;;
    set_this (fun this => {| lo_client := lo_client this;
                             lo_activeConfig := lo_activeConfig this;
                             lo_appConfig := Some cfg |});;
    w <- the_world;;
    let localConfig := of_local (providers (deref cfg w)) in
    if negb (truthy (localConfig ≫= baseUrl))
    then throw (Error LOCAL_CONFIGURATION_ERROR)
    else
      set_this (fun this => {| lo_client := Some (new_OpenAI (localConfig ≫= apiKey)
                                                    (localConfig ≫= baseUrl));
                               lo_activeConfig := localConfig;
                               lo_appConfig := lo_appConfig this |}).

(** Modelled from the spec: model resolution of the missing
    [LocalLLMProvider], after section 4.3 item 3: the per-call override,
    else the configured model, else the fallback of the variant. *)
Definition LocalLLMProvider_getModel (this : LocalLLMProvider) (userModel : option string)
  : string :=
  js_or_str (js_or userModel (lo_activeConfig this ≫= model)) LOCAL_FALLBACK_MODEL.

(** Modelled from the spec: request execution of the missing
    [LocalLLMProvider], after section 4.3: a system instruction and one
    user message; the first completion's text and the usage counters on
    success; any failure, the configuration error included, caught and
    returned as [{ content: null, error }]. *)
Definition LocalLLMProvider_request (instruction : string) (userText : string)
    (model_ : option string) : ST (LocalLLMProvider * World) LLMResponse :=
  try_catch
    (LocalLLMProvider_initializeClient;;
     this <- get_this;;
     match lo_client this with
     | None => throw (Error LOCAL_CONFIGURATION_ERROR)
     | Some client =>
         completion <- create client
                         {| req_model := LocalLLMProvider_getModel this model_;
                            messages := [ {| role := system; text := instruction |};
                                          {| role := user; text := userText |} ] |};;
         ret (response_of completion)
     end)
    (fun error => ret (response_of_error error)).

Definition LocalLLMProvider_generate (promptContent : string) (model_ : option string)
  : ST (LocalLLMProvider * World) LLMResponse :=
  LocalLLMProvider_request LOCAL_GENERATE_SYSTEM_PROMPT promptContent model_.

Definition LocalLLMProvider_explain (command : string) (model_ : option string)
  : ST (LocalLLMProvider * World) LLMResponse :=
  LocalLLMProvider_request LOCAL_EXPLAIN_SYSTEM_PROMPT command model_.
End LocalProvider.

(** ** The interface [LLMProvider], the factory and the callers *)

(** Fields of an [Orchestrator]. *)
Record Orchestrator : Type := { llmProvider : option nat }.

(** Fields of an [InteractiveSession]. *)
Record InteractiveSession : Type := {
  orchestrator : Orchestrator;
  lastGeneratedCommand : option string;
}.

Record ExplainCommandArgs : Type := {
  commandToExplain : string;
  provider : option ProviderId;
}.

(** The line feed. *)
Definition LF : string := String (ascii_of_nat 10) EmptyString.

Section Callers.
Context `{Runtime} `{LocalLLMConstants}.

(** A method call on the object at reference [l]: the body runs on its
    fields, and what it leaves in them is stored back. *)
Definition invoke {T A : Type} (wrap : T -> LLMProvider) (l : nat) (this : T)
    (body : ST (T * World) A) : M A :=
  fun w =>
    let '(o, (this', w')) := body (this, w) in
    (o, with_heap (<[l := wrap this']> (heap w')) w').

(** [provider.generate(prompt, model)] through the interface *)
Definition LLMProvider_generate (l : nat) (prompt : string) (model_ : option string)
  : M LLMResponse :=
  fun w =>
    match heap w !! l with
    | Some (an_OpenAIProvider this) =>
        invoke an_OpenAIProvider l this (OpenAIProvider_generate prompt model_) w
    | Some (an_AzureOpenAIProvider this) =>
        invoke an_AzureOpenAIProvider l this (AzureOpenAIProvider_generate prompt model_) w
    | Some (a_LocalLLMProvider this) =>
        invoke a_LocalLLMProvider l this (LocalLLMProvider_generate prompt model_) w
    | None => (Thrown (Error "TypeError"), w)
    end.

(** [provider.explain(command, model)] through the interface *)
Definition LLMProvider_explain (l : nat) (command : string) (model_ : option string)
  : M LLMResponse :=
  fun w =>
    match heap w !! l with
    | Some (an_OpenAIProvider this) =>
        invoke an_OpenAIProvider l this (OpenAIProvider_explain command model_) w
    | Some (an_AzureOpenAIProvider this) =>
        invoke an_AzureOpenAIProvider l this (AzureOpenAIProvider_explain command model_) w
    | Some (a_LocalLLMProvider this) =>
        invoke a_LocalLLMProvider l this (LocalLLMProvider_explain command model_) w
    | None => (Thrown (Error "TypeError"), w)
    end.

(** [new C()]: the object gets the next reference. *)
Definition new (obj : LLMProvider) : M nat :=
  fun w => (Returned (length (heap w)), with_heap (heap w ++ [obj]) w).

(** *** llms/index.ts

    The [default] branch of the [switch] needs a name outside the
    enumeration, which neither the argument type nor a validated
    configuration can hold. *)
Definition getLLMProvider (providerName : option ProviderId) : M nat :=
  config <- loadConfig;;
  w <- get_world;;
  let selectedProvider := default (defaultProvider (deref config w)) providerName in
  match selectedProvider with
  | openai => new (an_OpenAIProvider new_OpenAIProvider)
  | azure => new (an_AzureOpenAIProvider new_AzureOpenAIProvider)
  | local => new (a_LocalLLMProvider new_LocalLLMProvider)
  end.

(** *** core/orchestrator.ts *)

Definition initializeProvider (providerName : option ProviderId)
  : ST (Orchestrator * World) unit :=
  l <- call (getLLMProvider providerName);;
  set_this (fun _ => {| llmProvider := Some l |}).

Definition getInitializedLLMProvider (providerName : option ProviderId)
  : ST (Orchestrator * World) (option nat) :=
  this <- get_this;;
  (if negb (not_null (llmProvider this)) || not_null providerName
   then initializeProvider providerName
   else ret tt);;
  this <- get_this;;
  ret (llmProvider this).

Definition handleExplainCommand (args : ExplainCommandArgs) : ST (Orchestrator * World) unit :=
  currentLLM <- getInitializedLLMProvider (provider args);;
  match currentLLM with
  | None =>
      call (emit (spinner_fail "Could not initialize LLM provider for 'explain'. Please configure first."))
  | Some l =>
      call (emit (spinner_start ("Explaining command: " +:+ quote +:+ commandToExplain args
                                 +:+ quote +:+ "...")));;
      try_catch
        (response <- call (LLMProvider_explain l (commandToExplain args) None);;
         if truthy (error response)
         then call (emit (spinner_fail ("LLM Error: " +:+ default "" (error response))))
         else if truthy (content response)
         then
           call (emit (spinner_succeed "Command explanation successful!"));;
           call (emit (console_log (LF +:+ "Explanation:" +:+ LF +:+ default "" (content response)
                                    +:+ LF)))
         else call (emit (spinner_warn "No explanation received from LLM.")))
        (fun error =>
           call (emit (spinner_fail ("Error explaining command: " +:+ error_message error))))
  end.

(** *** interactiveSession.ts *)

(** A method call on [this.orchestrator]. *)
Definition on_orchestrator {A : Type} (body : ST (Orchestrator * World) A)
  : ST (InteractiveSession * World) A :=
  fun s =>
    let '(o, (orch', w')) := body (orchestrator (fst s), snd s) in
    (o, ({| orchestrator := orch'; lastGeneratedCommand := lastGeneratedCommand (fst s) |}, w')).

Definition set_lastGeneratedCommand (v : option string) : ST (InteractiveSession * World) unit :=
  set_this (fun this => {| orchestrator := orchestrator this; lastGeneratedCommand := v |}).

End Callers.

(** ** The states and readings the theorems speak of *)

Section ClaimTerms.
Context `{Runtime}.

(** The configuration file is missing, empty, not JSON, or rejected by
    the schema. *)
Inductive Unusable : ConfigDisk -> Prop :=
  | missing_directory : Unusable NoDir
  | missing_file : Unusable NoFile
  | empty_file : Unusable (File "")
  | not_JSON (s : string) : JSON_parse s = None -> Unusable (File s)
  | schema_invalid (s : string) (j : Json) :
      JSON_parse s = Some j -> AppConfigSchema j = None -> Unusable (File s).
End ClaimTerms.

(** The block of a provider in a configuration, [{}] when it is absent. *)
Definition block (name : ProviderId) (c : AppConfig) : LLMProviderConfig :=
  default empty_block (provider_get name (providers c)).

(** The configuration after [providers[name] = { ...providers[name], ...updateData }]. *)
Definition updated (c : AppConfig) (name : ProviderId) (updateData : Partial_LLMProviderConfig)
  : AppConfig :=
  {| defaultProvider := defaultProvider c;
     providers := provider_set name (spread_written (block name c) updateData) (providers c) |}.


(** The text a written property carries. *)
Definition Property_text (u : Property) : option string :=
  match u with
  | given s => Some s
  | _ => None
  end.

(** A key occurs somewhere in a document. *)
Fixpoint has_key (k : string) (j : Json) : bool :=
  match j with
  | JArr items => existsb (has_key k) items
  | JObj props =>
      existsb (fun kv => String.eqb k (fst kv) || has_key k (snd kv)) props
  | _ => false
  end.

(** A configuration that sets [apiVersion] for the enterprise-cloud
    provider. *)
Definition config_with_apiVersion : AppConfig :=
  {| defaultProvider := azure;
     providers :=
       {| of_openai := None;
          of_azure := Some {| apiKey := Some "secret"; baseUrl := None;
                              model := Some "gpt-4o"; apiVersion := Some "2024-06-01" |};
          of_local := None |} |}.

(** *** Readings of a provider client *)

(** The lazy initialisation has happened: both the SDK handle and the
    active configuration are set. *)
Definition initialized (p : LLMProvider) : bool :=
  match p with
  | an_OpenAIProvider this => not_null (oa_openai this) && not_null (oa_activeConfig this)
  | an_AzureOpenAIProvider this => not_null (az_client this) && not_null (az_activeConfig this)
  | a_LocalLLMProvider this => not_null (lo_client this) && not_null (lo_activeConfig this)
  end.

Definition sdk_client (p : LLMProvider) : option SdkClient :=
  match p with
  | an_OpenAIProvider this => oa_openai this
  | an_AzureOpenAIProvider this => az_client this
  | a_LocalLLMProvider this => lo_client this
  end.

(** The model, or deployment name, the client holds from its
    configuration. *)
Definition configured_model (p : LLMProvider) : option string :=
  match p with
  | an_OpenAIProvider this => oa_activeConfig this ≫= model
  | an_AzureOpenAIProvider this => az_deploymentName this
  | a_LocalLLMProvider this => lo_activeConfig this ≫= model
  end.

(** The precedence of the spec: the override if supplied, else the
    configured model if present, else the fallback. *)
Definition precedence (override configured : option string) (fallback : string) : string :=
  match override with
  | Some m => m
  | None =>
      match configured with
      | Some m => m
      | None => fallback
      end
  end.

(** An optional string that counts only when it is not empty. *)
Definition nonempty (o : option string) : option string :=
  match o with
  | Some s => if String.eqb s "" then None else Some s
  | None => None
  end.

(** The text of the first completion, the empty string when any level of
    it is absent. *)
Definition first_completion_text (completion : ChatCompletion) : string :=
  match choices completion with
  | {| message := Some {| message_content := Some t |} |} :: _ => t
  | _ => ""
  end.

(** The response the spec asks for, given what the endpoint answered. *)
Definition normalised (answer : ChatCompletion + JsError) : LLMResponse :=
  match answer with
  | inl completion =>
      {| content := Some (first_completion_text completion);
         error := None;
         usage := Some {| promptTokens := prompt_tokens <$> completion_usage completion;
                          completionTokens := completion_tokens <$> completion_usage completion;
                          totalTokens := total_tokens <$> completion_usage completion |} |}
  | inr e => {| content := None; error := Some (error_message e); usage := None |}
  end.

(** The cloud and enterprise-cloud clients lack a field they require in
    the configuration [c].  (The local client is not covered.) *)
Definition missing_required (p : LLMProvider) (c : AppConfig) : bool :=
  match p with
  | an_OpenAIProvider _ => negb (truthy (apiKey (block openai c)))
  | an_AzureOpenAIProvider _ =>
      negb (truthy (apiKey (block azure c))) || negb (truthy (baseUrl (block azure c)))
      || negb (truthy (model (block azure c)))
  | a_LocalLLMProvider _ => false
  end.

(** The message of the configuration error of a client. *)
Definition configuration_error (p : LLMProvider) : string :=
  match p with
  | an_OpenAIProvider _ => "API key for OpenAI is not configured. Run the `configure` command."
  | an_AzureOpenAIProvider _ =>
      "API key, endpoint (baseUrl), or deployment name (model) of Azure OpenAI are not configured. Run the `configure` command"
  | a_LocalLLMProvider _ => ""
  end.

Section Requests.
Context `{LocalLLMConstants}.

Definition fallback_model (p : LLMProvider) : string :=
  match p with
  | an_OpenAIProvider _ => "gpt-3.5-turbo"
  | an_AzureOpenAIProvider _ => "gpt-4o"
  | a_LocalLLMProvider _ => LOCAL_FALLBACK_MODEL
  end.

(** [this.getModel(userModel)] of whichever client [p] is. *)
Definition LLMProvider_getModel (p : LLMProvider) (userModel : option string) : string :=
  match p with
  | an_OpenAIProvider this => OpenAIProvider_getModel this userModel
  | an_AzureOpenAIProvider this => AzureOpenAIProvider_getModel this userModel
  | a_LocalLLMProvider this => LocalLLMProvider_getModel this userModel
  end.

(** The two-message exchange of [generate]. *)
Definition generate_request (p : LLMProvider) (promptContent : string) (model_ : option string)
  : ChatRequest :=
  {| req_model := LLMProvider_getModel p model_;
     messages :=
       [ {| role := system;
            text := match p with
                    | an_OpenAIProvider _ => OpenAI_GENERATE_SYSTEM_PROMPT
                    | an_AzureOpenAIProvider _ => Azure_GENERATE_SYSTEM_PROMPT
                    | a_LocalLLMProvider _ => LOCAL_GENERATE_SYSTEM_PROMPT
                    end |};
         {| role := user; text := promptContent |} ] |}.

(** The two-message exchange of [explain]. *)
Definition explain_request (p : LLMProvider) (command : string) (model_ : option string)
  : ChatRequest :=
  {| req_model := LLMProvider_getModel p model_;
     messages :=
       [ {| role := system;
            text := match p with
                    | a_LocalLLMProvider _ => LOCAL_EXPLAIN_SYSTEM_PROMPT
                    | _ => EXPLAIN_SYSTEM_PROMPT
                    end |};
         {| role := user;
            text := match p with
                    | a_LocalLLMProvider _ => command
                    | _ => "Explain the following command: " +:+ command
                    end |} ] |}.
End Requests.

(** *** Readings of the factory and of the callers *)

(** The object [getLLMProvider] constructs for a provider id. *)
Definition fresh_client (id : ProviderId) : LLMProvider :=
  match id with
  | openai => an_OpenAIProvider new_OpenAIProvider
  | azure => an_AzureOpenAIProvider new_AzureOpenAIProvider
  | local => a_LocalLLMProvider new_LocalLLMProvider
  end.

(** The three outcomes a provider result is reported as. *)
Inductive Classification : Type := failure | nothing_returned | success.

(** The content begins with the failure marker. *)
Definition begins_with_failure_marker (c : option string) : bool :=
  startsWith (toLowerCase (default "" c)) "error:".

(** The classification of a result, given what counts as an error being
    there: a failure when the error is there; else a success when the
    content is not empty and, on the generate path, does not begin with
    the failure marker; else nothing returned. *)
Definition classify (error_there : option string -> bool) (generate : bool) (r : LLMResponse)
  : Classification :=
  if error_there (error r) then failure
  else if truthy (content r) && negb (generate && begins_with_failure_marker (content r))
       then success
       else nothing_returned.

(** What [handleExplainCommand] prints for each outcome. *)
Definition explain_report (c : Classification) (r : LLMResponse) : list Event :=
  match c with
  | failure => [spinner_fail ("LLM Error: " +:+ default "" (error r))]
  | nothing_returned => [spinner_warn "No explanation received from LLM."]
  | success =>
      [spinner_succeed "Command explanation successful!";
       console_log (LF +:+ "Explanation:" +:+ LF +:+ default "" (content r) +:+ LF)]
  end.

(** What [handleGenerationPrompt] prints for each outcome, after the
    spinner has stopped and, on success, before the menu. *)
Definition generate_report (c : Classification) (r : LLMResponse) : list Event :=
  match c with
  | failure => [console_error ("❌ LLM Error: " +:+ default "" (error r))]
  | nothing_returned =>
      [console_warn ("⚠️ Could not generate command: "
                     +:+ js_or_str (content r) "No specific error message.")]
  | success =>
      [console_log "✅ Suggested command:";
       console_log ("   " +:+ default "" (content r))]
  end.

(** The command the session remembers for each outcome. *)
Definition remembered (c : Classification) (r : LLMResponse) : option string :=
  match c with
  | success => content r
  | _ => None
  end.

Definition say (evs : list Event) (w : World) : World :=
  with_console (console w ++ evs) w.

(** A process that has just started, over a given disk. *)
Definition process_start (d : ConfigDisk) : World :=
  {| defaultConfig := defaultConfig_initial; disk := d; heap := []; console := [] |}.

(** ** A reference platform

    One platform that has the three facts asked of [Runtime], so that the
    theorems can be run on concrete states: a document is written as the
    binary numeral of its code, a URL is a text with a scheme prefix, and
    the endpoint is whatever function is supplied. *)

Definition Leaf : Type := bool + Z + string.

Fixpoint Json_to_tree (j : Json) : gen_tree Leaf :=
  match j with
  | JNull => GenNode 0 []
  | JBool b => GenLeaf (inl (inl b))
  | JNum n => GenLeaf (inl (inr n))
  | JStr s => GenLeaf (inr s)
  | JArr items => GenNode 1 (List.map Json_to_tree items)
  | JObj props =>
      GenNode 2 (List.map (fun kv => GenNode 3 [GenLeaf (inr (fst kv)); Json_to_tree (snd kv)]) props)
  end.

Fixpoint tree_to_Json (t : gen_tree Leaf) : Json :=
  match t with
  | GenLeaf (inl (inl b)) => JBool b
  | GenLeaf (inl (inr n)) => JNum n
  | GenLeaf (inr s) => JStr s
  | GenNode 1 ts => JArr (List.map tree_to_Json ts)
  | GenNode 2 ts =>
      JObj (List.map (fun t' =>
                        match t' with
                        | GenNode _ [GenLeaf (inr k); v] => (k, tree_to_Json v)
                        | _ => ("", JNull)
                        end) ts)
  | GenNode _ _ => JNull
  end.

Fixpoint numeral (p : positive) : string :=
  match p with
  | xH => "1"
  | xO q => String "0" (numeral q)
  | xI q => String "I" (numeral q)
  end.

Fixpoint of_numeral (s : string) : option positive :=
  match s with
  | EmptyString => None
  | String c EmptyString => if Ascii.eqb c "1" then Some xH else None
  | String c r =>
      if Ascii.eqb c "0" then xO <$> of_numeral r
      else if Ascii.eqb c "I" then xI <$> of_numeral r
      else None
  end.

Definition reference_stringify (j : Json) : string :=
  numeral (encode (Json_to_tree j)).

Definition reference_parse (s : string) : option Json :=
  p ← of_numeral s; tree_to_Json <$> decode p.

Definition reference_isUrl (s : string) : bool :=
  startsWith s "http://" || startsWith s "https://".

Section JsonInduction.
Variable P : Json -> Prop.
Hypothesis HNull : P JNull.
Hypothesis HBool : forall b, P (JBool b).
Hypothesis HNum : forall n, P (JNum n).
Hypothesis HStr : forall s, P (JStr s).
Hypothesis HArr : forall items, Forall P items -> P (JArr items).
Hypothesis HObj : forall props, Forall (fun kv => P (snd kv)) props -> P (JObj props).

(** Induction on documents, with the hypothesis for every item of an
    array and every property of an object. *)
Fixpoint Json_nested_ind (j : Json) : P j :=
  match j with
  | JNull => HNull
  | JBool b => HBool b
  | JNum n => HNum n
  | JStr s => HStr s
  | JArr items =>
      HArr items ((fix go (l : list Json) : Forall P l :=
                     match l with
                     | [] => Forall_nil_2 P
                     | x :: r => Forall_cons_2 P x r (Json_nested_ind x) (go r)
                     end) items)
  | JObj props =>
      HObj props ((fix go (l : list (string * Json)) : Forall (fun kv => P (snd kv)) l :=
                     match l with
                     | [] => Forall_nil_2 _
                     | x :: r => Forall_cons_2 _ x r (Json_nested_ind (snd x)) (go r)
                     end) props)
  end.
End JsonInduction.

(** The reference platform over a given endpoint. *)
Definition reference_runtime (endpoint : SdkClient -> ChatRequest -> ChatCompletion + JsError)
  : Runtime.
Proof.
  refine {| JSON_parse := reference_parse;
            JSON_stringify := reference_stringify;
            isUrl := reference_isUrl;
            ZodError_message := fun _ => "Invalid input";
            chat_completions_create := endpoint;
            JSON_parse_empty := eq_refl;
            JSON_parse_stringify := _;
            isUrl_localhost := eq_refl |}.
  assert (Htree : forall j, tree_to_Json (Json_to_tree j) = j).
  { induction j as [| | | |items IH|props IH] using Json_nested_ind; cbn; try reflexivity.
    - f_equal. induction IH as [|x r Hx _ IHr]; cbn; [reflexivity|]. now rewrite Hx, IHr.
    - f_equal. induction IH as [|[k v] r Hx _ IHr]; cbn; [reflexivity|].
      cbn in Hx. now rewrite Hx, IHr. }
  assert (Hnum : forall p, of_numeral (numeral p) = Some p).
  { induction p as [q IH|q IH|]; cbn; [| |reflexivity].
    - destruct (numeral q) eqn:E; [destruct q; discriminate|]. now rewrite IH.
    - destruct (numeral q) eqn:E; [destruct q; discriminate|]. now rewrite IH. }
  intros c. generalize (AppConfig_toJs c) as j. intros j.
  unfold reference_parse, reference_stringify.
  rewrite Hnum. cbn. rewrite decode_encode. cbn. now rewrite Htree.
Defined.

(** ** Concrete states, for running the model *)

(** An endpoint that rejects every request with an empty message. *)
Definition failing_endpoint (client : SdkClient) (request : ChatRequest)
  : ChatCompletion + JsError :=
  inr (Error "").

(** An endpoint that answers every request with one completion. *)
Definition listing_endpoint (client : SdkClient) (request : ChatRequest)
  : ChatCompletion + JsError :=
  inl {| choices := [ {| message := Some {| message_content := Some "ls -la" |} |} ];
         completion_usage := Some {| prompt_tokens := 12; completion_tokens := 3;
                                     total_tokens := 15 |} |}.

(** Modelled from the spec: values for the constants of the missing local
    client, for running the model; section 4.3 gives the two instructions
    in these words. *)
Definition example_local_constants : LocalLLMConstants :=
  {| LOCAL_GENERATE_SYSTEM_PROMPT := "Turn language into a single command, prefer code-only output.";
     LOCAL_EXPLAIN_SYSTEM_PROMPT :=
       "Explain this command concisely, covering main function and key parameters.";
     LOCAL_FALLBACK_MODEL := "local-model";
     LOCAL_CONFIGURATION_ERROR := "Base URL for the local LLM is not configured. Run the `configure` command." |}.

(** A cloud client after a successful initialisation with an API key and
    the model [gpt-4]. *)
Definition ready_OpenAIProvider : OpenAIProvider :=
  {| oa_openai := Some (new_OpenAI (Some "secret") None);
     oa_activeConfig := Some {| apiKey := Some "secret"; baseUrl := None;
                                model := Some "gpt-4"; apiVersion := None |};
     oa_appConfig := Some TheDefault |}.

(** A process that holds one client, over an empty home directory. *)
Definition process_with (p : LLMProvider) : World :=
  {| defaultConfig := defaultConfig_initial; disk := NoDir; heap := [p]; console := [] |}.

(** A configuration file that parses but names no known provider. *)
Definition unknown_provider_document : Json :=
  JObj [("defaultProvider", JStr "anthropic"); ("providers", JObj [])].

(** A configuration with every field of the enterprise-cloud provider. *)
Definition azure_config : AppConfig :=
  {| defaultProvider := azure;
     providers :=
       {| of_openai := None;
          of_azure := Some {| apiKey := Some "secret";
                              baseUrl := Some "https://example.openai.azure.com";
                              model := Some "gpt-4o"; apiVersion := Some "2024-06-01" |};
          of_local := None |} |}.


(** [{ baseUrl: u }] *)
Definition only_baseUrl (u : string) : LLMProviderConfig :=
  {| apiKey := None; baseUrl := Some u; model := None; apiVersion := None |}.

(** The object literal that writes the properties a block has, each with
    its text. *)
Definition written (b : LLMProviderConfig) : Partial_LLMProviderConfig :=
  let property v := match v with Some s => given s | None => omitted end in
  {| apiKey_of := property (apiKey b); baseUrl_of := property (baseUrl b);
     model_of := property (model b); apiVersion_of := property (apiVersion b) |}.


(** ** Further readings of the configuration service *)

(** The configuration after [currentConfig.defaultProvider = name]. *)
Definition with_defaultProvider (name : ProviderId) (c : AppConfig) : AppConfig :=
  {| defaultProvider := name; providers := providers c |}.

(** What [saveConfig] prints when the configuration is written. *)
Definition save_succeeded : list Event :=
  [spinner_start "Saving configuration..."; spinner_succeed "Configuration saved successfully."].

Section SaveReport.
Context `{Runtime}.

(** What [saveConfig] prints when the schema rejects the configuration. *)
Definition save_rejected (config : AppConfig) : list Event :=
  [spinner_start "Saving configuration...";
   spinner_fail ("Error saving configuration: " +:+ ZodError_message (AppConfig_toJs config));
   console_error ("Zod validation error details: " +:+ ZodError_message (AppConfig_toJs config))].
End SaveReport.

(** A configuration whose local endpoint is not a URL. *)
Definition config_with_bad_url : AppConfig :=
  {| defaultProvider := local;
     providers := {| of_openai := None; of_azure := None;
                     of_local := Some (only_baseUrl "not a url") |} |}.

(** ** Further readings of the clients *)

(** The cloud or enterprise-cloud client finds every field it requires in
    the configuration [c]. *)
Definition has_required (p : LLMProvider) (c : AppConfig) : bool :=
  match p with
  | an_OpenAIProvider _ => truthy (apiKey (block openai c))
  | an_AzureOpenAIProvider _ =>
      truthy (apiKey (block azure c)) && truthy (baseUrl (block azure c))
      && truthy (model (block azure c))
  | a_LocalLLMProvider _ => false
  end.

(** The fields of a client after its initialisation succeeded on the
    configuration [c], which [loadConfig] had returned as [r]. *)
Definition initialized_from (p : LLMProvider) (c : AppConfig) (r : ConfigRef) : LLMProvider :=
  match p with
  | an_OpenAIProvider _ =>
      an_OpenAIProvider
        {| oa_openai := Some (new_OpenAI (of_openai (providers c) ≫= apiKey) None);
           oa_activeConfig := of_openai (providers c);
           oa_appConfig := Some r |}
  | an_AzureOpenAIProvider _ =>
      an_AzureOpenAIProvider
        {| az_client := Some (new_AzureOpenAI (of_azure (providers c) ≫= apiKey)
                                (of_azure (providers c) ≫= model)
                                (js_or_str (of_azure (providers c) ≫= apiVersion)
                                   "2025-03-01-preview")
                                (of_azure (providers c) ≫= baseUrl));
           az_appConfig := Some r;
           az_activeConfig := of_azure (providers c);
           az_deploymentName := of_azure (providers c) ≫= model |}
  | a_LocalLLMProvider this => a_LocalLLMProvider this
  end.

(** The fields of a client after its initialisation was rejected: only
    the reference to the configuration it loaded is kept. *)
Definition rejected_with (p : LLMProvider) (r : ConfigRef) : LLMProvider :=
  match p with
  | an_OpenAIProvider this =>
      an_OpenAIProvider {| oa_openai := oa_openai this; oa_activeConfig := oa_activeConfig this;
                           oa_appConfig := Some r |}
  | an_AzureOpenAIProvider this =>
      an_AzureOpenAIProvider {| az_client := az_client this; az_appConfig := Some r;
                                az_activeConfig := az_activeConfig this;
                                az_deploymentName := az_deploymentName this |}
  | a_LocalLLMProvider this => a_LocalLLMProvider this
  end.

(** The client is one of the two whose class is among the sources. *)
Definition from_sources (p : LLMProvider) : bool :=
  match p with
  | a_LocalLLMProvider _ => false
  | _ => true
  end.

(** The provider id whose block a client reads. *)
Definition block_of (p : LLMProvider) : ProviderId :=
  match p with
  | an_OpenAIProvider _ => openai
  | an_AzureOpenAIProvider _ => azure
  | a_LocalLLMProvider _ => local
  end.

(** [{ apiKey: k }] *)
Definition only_apiKey (k : string) : Partial_LLMProviderConfig :=
  {| apiKey_of := given k; baseUrl_of := omitted; model_of := omitted;
     apiVersion_of := omitted |}.

(** ** The configuration command, the command-line [explain] action, the
    execution of a suggestion and the input loop

    What the user answers to a prompt is an argument of the function that
    asks. *)

Section Configure.
Context `{Runtime}.

(** [path.join(os.homedir(), '.ai-shell-js', 'config.json')] *)
Variable CONFIG_FILE_PATH : string.

Definition getConfigFilePath : M string := ret CONFIG_FILE_PATH.

(** *** core/orchestrator.ts, [handleConfigureCommand] *)
Definition handleConfigureCommand (confirmChanges : bool) (newDefaultProvider : ProviderId)
  : ST (Orchestrator * World) unit :=
  call (emit (console_log (LF +:+ "--- ai-shell-js Configuration ---")));;
  configFilePath <- call getConfigFilePath;;
  call (emit (console_log ("Configuration file: " +:+ configFilePath)));;
  currentConfig <- call loadConfig;;
  w <- the_world;;
  call (emit (console_log ("Current settings: "
                           +:+ JSON_stringify (AppConfig_toJs (deref currentConfig w)))));;
  call (emit (inquirer_prompt "Do you want to modify the configuration?"));;
  if negb confirmChanges
  then call (emit (console_log "Configuration unchanged."))
  else
    call (emit (console_log "To re-implement full configuration with inquirer, please see previous Orchestrator code and adapt."));;
    call (emit (console_log "For now, exiting simplified configuration step."));;
    call (emit (inquirer_prompt "Select default LLM provider:"));;
    call (setDefaultProvider newDefaultProvider);;
    call (emit (spinner_succeed ("Default provider set to "
                                 +:+ ProviderId_name newDefaultProvider +:+ ".")));;
    call (emit (console_log "--- Configuration Finished ---")).
End Configure.

(** One entry of [validationResult.error.errors]. *)
Record ZodIssue : Type := {
  issue_path : list string;
  issue_message : string;
}.

Section ExplainCommand.
Context `{Runtime} `{LocalLLMConstants}.

(** zod's message for a text outside an enumeration *)
Variable invalid_enum_value : string -> string.

(** [ExplainCommandArgsSchema.safeParse({ commandToExplain, provider })]:
    every property is checked, in the order of the schema, and the issues
    are collected. *)
Definition ExplainCommandArgsSchema_safeParse
    (commandToExplain_ : string) (provider_ : option string)
  : list ZodIssue + ExplainCommandArgs :=
  let issues :=
    ((if (1 <=? String.length commandToExplain_)%nat then []
      else [ {| issue_path := ["commandToExplain"];
                issue_message := "Command to explain cannot be empty" |} ])
     ++ match provider_ with
        | None => []
        | Some s =>
            match z_enum_ProviderId (JStr s) with
            | Some _ => []
            | None => [ {| issue_path := ["provider"];
                           issue_message := invalid_enum_value s |} ]
            end
        end)%list in
  match issues with
  | [] => inr {| commandToExplain := commandToExplain_;
                 provider := provider_ ≫= (fun s => z_enum_ProviderId (JStr s)) |}
  | _ => inl issues
  end.

(** [errors.forEach(f)] *)
Fixpoint forEach {A : Type} (l : list A) (f : A -> M unit) : M unit :=
  match l with
  | [] => ret tt
  | x :: r => f x;; forEach r f
  end.

(** *** cli/commands/explainCommand.ts, the action of the command *)
Definition explainCommand_action (shellCommand : string) (options_provider : option string)
  : M unit :=
  match ExplainCommandArgsSchema_safeParse shellCommand options_provider with
  | inl errors =>
      emit (spinner_fail "Invalid parameters:");;
      forEach errors
        (fun err => emit (console_error ("- " +:+ String.concat "." (issue_path err)
                                         +:+ ": " +:+ issue_message err)))
  | inr data =>
      fun w =>
        let '(o, (_, w')) := handleExplainCommand data ({| llmProvider := None |}, w) in
        (o, w')
  end.
End ExplainCommand.

(** The line the action prints for an issue. *)
Definition issue_line (err : ZodIssue) : Event :=
  console_error ("- " +:+ String.concat "." (issue_path err) +:+ ": " +:+ issue_message err).

(** [s.split(sep)] for a separator of one character: the pieces between
    the occurrences of [sep], empty pieces included. *)
Fixpoint split (sep : ascii) (s : string) : list string :=
  match s with
  | EmptyString => [EmptyString]
  | String c r =>
      if Ascii.eqb c sep then EmptyString :: split sep r
      else match split sep r with
           | piece :: pieces => String c piece :: pieces
           | [] => [String c EmptyString]
           end
  end.

(** What a child process leaves: its two output streams read to the end,
    and [proc.exitCode], which is [null] while no code is known. *)
Record ChildProcess : Type := {
  stdout : string;
  stderr : string;
  exitCode : option Z;
}.

(** The process state together with the child processes spawned so far,
    each by its argument vector. *)
Record Machine : Type := {
  world : World;
  spawned : list (list string);
}.

(** [`${exitCode}`] *)
Definition exitCode_text (c : option Z) : string :=
  match c with
  | Some n => pretty n
  | None => "null"
  end.

Section Execute.
(** Bun's [spawn], followed to the end of the child: it throws when the
    child cannot be started. *)
Variable spawn : list string -> JsError + ChildProcess.

Definition in_world {T A : Type} (m : M A) : ST (T * Machine) A :=
  fun s =>
    let (o, w') := m (world (snd s)) in
    (o, (fst s, {| world := w'; spawned := spawned (snd s) |})).

Definition Bun_spawn {T : Type} (cmd : list string) : ST (T * Machine) ChildProcess :=
  fun s =>
    (match spawn cmd with
     | inl e => Thrown e
     | inr proc => Returned proc
     end,
     (fst s, {| world := world (snd s); spawned := (spawned (snd s) ++ [cmd])%list |})).

(** *** interactiveSession.ts, [executeLastCommand] *)
Definition executeLastCommand (confirm : bool) : ST (InteractiveSession * Machine) unit :=
  this <- (fun s => (Returned (fst s), s));;
  if negb (truthy (lastGeneratedCommand this))
  then in_world (emit (console_log "No command to execute."))
  else
    let cmd := default "" (lastGeneratedCommand this) in
    in_world (emit (inquirer_prompt ("Execute this command?" +:+ LF +:+ "   " +:+ cmd +:+ LF)));;
    if confirm
    then
      in_world (emit (spinner_start ("Executing: " +:+ cmd)));;
      try_catch
        (let commandParts := split " " cmd in
         let commandToExecute := default "" (head commandParts) in
         let commandArgs := tail commandParts in
         proc <- Bun_spawn (commandToExecute :: commandArgs);;
         if bool_decide (exitCode proc = Some 0%Z)
         then
           in_world (emit (spinner_succeed "Execution successful!"));;
           if truthy (Some (stdout proc))
           then in_world (emit (console_log ("Output:" +:+ LF +:+ " " +:+ stdout proc)))
           else ret tt
         else
           in_world (emit (spinner_fail ("Execution error (exit code: "
                                         +:+ exitCode_text (exitCode proc) +:+ ").")));;
           (if truthy (Some (stderr proc))
            then in_world (emit (console_error ("Error Output:" +:+ LF +:+ " " +:+ stderr proc)))
            else ret tt);;
           if truthy (Some (stdout proc)) && negb (truthy (Some (stderr proc)))
           then in_world (emit (console_log ("Output (non-stderr errors possible):" +:+ LF
                                             +:+ " " +:+ stdout proc)))
           else ret tt)
        (fun execError =>
           in_world (emit (spinner_fail ("Error executing command: "
                                         +:+ error_message execError))))
    else in_world (emit (console_log "Execution cancelled.")).
End Execute.

(** The console of the machine. *)
Definition printed (m : Machine) : list Event := console (world m).

(** *** interactiveSession.ts, [postGenerationActions] and
    [handleGenerationPrompt] *)

(** The machine together with the clipboard of the desktop: the text last
    written to it, if any was. *)
Record Desktop : Type := {
  machine : Machine;
  clipboard : option string;
}.

Definition with_world (w : World) (d : Desktop) : Desktop :=
  {| machine := {| world := w; spawned := spawned (machine d) |}; clipboard := clipboard d |}.

(** How a method of the session ends: as any call does, or with the
    process gone, by [process.exit(code)]. *)
Inductive Ending (A : Type) : Type :=
  | Ends (o : Outcome A)
  | Exited (code : Z).

Arguments Ends {A} o.
Arguments Exited {A} code.

(** A method of the session.  Nothing runs after an exit, and no [catch]
    sees it. *)
Definition Session (A : Type) : Type :=
  InteractiveSession * Desktop -> Ending A * (InteractiveSession * Desktop).

Definition Session_bind {A B : Type} (m : Session A) (k : A -> Session B) : Session B :=
  fun s =>
    match m s with
    | (Ends (Returned a), s') => k a s'
    | (Ends (Thrown e), s') => (Ends (Thrown e), s')
    | (Exited code, s') => (Exited code, s')
    end.

(** [try { m } catch (error) { handler(error) }] in the session *)
Definition Session_try {A : Type} (m : Session A) (handler : JsError -> Session A) : Session A :=
  fun s =>
    match m s with
    | (Ends (Thrown e), s') => handler e s'
    | ending => ending
    end.

Declare Scope Session_scope.
Delimit Scope Session_scope with Session.
Notation "x <- m ;; k" := (Session_bind m (fun x => k))
  (at level 100, m at next level, right associativity) : Session_scope.
Notation "m ;; k" := (Session_bind m (fun _ => k))
  (at level 100, right associativity) : Session_scope.

(** A method written over the machine, run in the session. *)
Definition on_machine {A : Type} (m : ST (InteractiveSession * Machine) A) : Session A :=
  fun s =>
    let '(o, (this', m')) := m (fst s, machine (snd s)) in
    (Ends o, (this', {| machine := m'; clipboard := clipboard (snd s) |})).

(** A method written over the process state, run in the session. *)
Definition on_world {A : Type} (m : ST (InteractiveSession * World) A) : Session A :=
  fun s =>
    let '(o, (this', w')) := m (fst s, world (machine (snd s))) in
    (Ends o, (this', with_world w' (snd s))).

(** [process.exit(code)] *)
Definition process_exit {A : Type} (code : Z) : Session A := fun s => (Exited code, s).

(** What the user answers after a suggestion: the entry chosen in the
    menu, with what that entry goes on to ask.  [execute] asks for a
    confirmation; [refine] asks for a follow-up prompt and, when the
    prompt it builds gives a suggestion again, shows the menu again. *)
Inductive Answers : Type :=
  | choose_execute (confirm : bool)
  | choose_copy
  | choose_refine (followUpPrompt : string) (next : Answers)
  | choose_new
  | choose_quit.

Section InteractiveSession.
Context `{Runtime} `{LocalLLMConstants}.
(** Bun's [spawn], as in [executeLastCommand]. *)
Variable spawn : list string -> JsError + ChildProcess.
(** clipboardy's [write]: the error it throws, where it throws one. *)
Variable clipboard_write : string -> option JsError.

Local Open Scope Session_scope.

(** [clipboard.write(text)] *)
Definition clipboard_write_text (text_ : string) : Session unit :=
  fun s =>
    match clipboard_write text_ with
    | Some e => (Ends (Thrown e), s)
    | None =>
        (Ends (Returned tt),
         (fst s, {| machine := machine (snd s); clipboard := Some text_ |}))
    end.

(** [handleGenerationPrompt], with the call of [postGenerationActions]
    left open: the two methods call each other, and
    [postGenerationActions] below closes the loop along the answers. *)
Definition handleGenerationPrompt_with (postGenerationActions : Session unit) (prompt : string)
  : Session unit :=
  on_world (call (emit (spinner_start ("Processing: " +:+ quote +:+ prompt +:+ quote +:+ "..."))));;
  Session_try
    (llmProvider <- on_world (on_orchestrator (getInitializedLLMProvider None));;
     match llmProvider with
     | None =>
         on_world (call (emit (spinner_fail "LLM Provider not initialized. Please configure first.")))
     | Some l =>
         response <- on_world (call (LLMProvider_generate l prompt None));;
         on_world (call (emit spinner_stop));;
         if truthy (error response)
         then
           on_world (call (emit (console_error ("❌ LLM Error: " +:+ default "" (error response)))));;
           on_world (set_lastGeneratedCommand None)
         else if truthy (content response)
                 && negb (startsWith (toLowerCase (default "" (content response))) "error:")
         then
           on_world (call (emit (console_log "✅ Suggested command:")));;
           on_world (call (emit (console_log ("   " +:+ default "" (content response)))));;
           on_world (set_lastGeneratedCommand (content response));;
           postGenerationActions
         else
           on_world (call (emit (console_warn ("⚠️ Could not generate command: "
                                              +:+ js_or_str (content response)
                                                    "No specific error message."))));;
           on_world (set_lastGeneratedCommand None)
     end)
    (fun error =>
       on_world (call (emit (spinner_fail ("Error generating command: "
                                           +:+ error_message error))));;
       on_world (set_lastGeneratedCommand None)).

Fixpoint postGenerationActions (answers : Answers) : Session unit :=
  this <- on_world get_this;;
  if negb (truthy (lastGeneratedCommand this)) then on_world (ret tt)
  else
    on_world (call (emit (inquirer_prompt "What next?")));;
    match answers with
    | choose_execute confirm => on_machine (executeLastCommand spawn confirm)
    | choose_copy =>
        Session_try
          (clipboard_write_text (default "" (lastGeneratedCommand this));;
           on_world (call (emit (console_log "📋 Command copied to clipboard!"))))
          (fun _ =>
             on_world (call (emit (console_error "Failed to copy to clipboard. You might need to install xclip or xsel on Linux."))))
    | choose_refine followUpPrompt next =>
        on_world (call (emit (inquirer_prompt "Refine or add to your previous prompt:")));;
        if truthy (Some followUpPrompt)
        then
          handleGenerationPrompt_with (postGenerationActions next)
            ("Regarding the previous command (" +:+ quote
             +:+ default "" (lastGeneratedCommand this) +:+ quote +:+ "), now: "
             +:+ followUpPrompt)
        else on_world (ret tt)
    | choose_new => on_world (call (emit (console_log "Enter your new prompt.")))
    | choose_quit =>
        on_world (call (emit (console_log "Goodbye!")));;
        process_exit 0
    end.

Definition handleGenerationPrompt (answers : Answers) (prompt : string) : Session unit :=
  handleGenerationPrompt_with (postGenerationActions answers) prompt.
End InteractiveSession.

(** Some entry chosen along the answers is [quit]. *)
Fixpoint quits (answers : Answers) : bool :=
  match answers with
  | choose_quit => true
  | choose_refine _ next => quits next
  | _ => false
  end.

(** A method of the session that never throws. *)
Definition never_throws {A : Type} (m : Session A) : Prop :=
  forall s e s', m s <> (Ends (Thrown e), s').

(** A method of the session ends well from a state: it returns, or, where
    [may_quit] allows it, the process exits with code 0; and the
    orchestrator holds a client afterwards. *)
Definition ends_well (may_quit : bool) (m : Session unit) (s : InteractiveSession * Desktop)
  : Prop :=
  exists this' d',
    (m s = (Ends (Returned tt), (this', d'))
     \/ (may_quit = true /\ m s = (Exited 0, (this', d'))))
    /\ is_Some (llmProvider (orchestrator this')).

(** A text has no space in it. *)
Fixpoint no_space (s : string) : bool :=
  match s with
  | EmptyString => true
  | String c r => negb (Ascii.eqb c " ") && no_space r
  end.

(** [s.substring(n)] *)
Fixpoint substring_from (n : nat) (s : string) : string :=
  match n, s with
  | O, _ => s
  | S n', String _ r => substring_from n' r
  | S _, EmptyString => EmptyString
  end.

(** The branch one turn of the loop of [start] takes on an input. *)
Inductive Branch : Type :=
  | skips
  | says_goodbye
  | explains (commandToExplain_ : string)
  | shows_usage
  | configures
  | generates (prompt : string).

Section Start.
(** [s.trim()] *)
Variable trim : string -> string.

(** *** interactiveSession.ts, [start]: the tests on [userInput] in the
    body of the loop, with the handler each one leads to *)
Definition start_branch (userInput : string) : Branch :=
  if negb (truthy (Some (trim userInput))) then skips
  else
    let inputLower := toLowerCase (trim userInput) in
    if String.eqb inputLower "quit" || String.eqb inputLower "exit" then says_goodbye
    else if startsWith inputLower "explain "
    then
      let commandToExplain_ := substring_from (String.length "explain ") (trim userInput) in
      if truthy (Some commandToExplain_) then explains commandToExplain_ else shows_usage
    else if String.eqb inputLower "config" || String.eqb inputLower "configure" then configures
    else generates (trim userInput).
End Start.

(** A [trim] on the blanks of ASCII, to run [start_branch] with. *)
Definition is_blank (c : ascii) : bool :=
  Ascii.eqb c " " || Ascii.eqb c (ascii_of_nat 9) || Ascii.eqb c (ascii_of_nat 10)
  || Ascii.eqb c (ascii_of_nat 13).

Fixpoint trimStart (s : string) : string :=
  match s with
  | EmptyString => EmptyString
  | String c r => if is_blank c then trimStart r else s
  end.

Fixpoint trimEnd (s : string) : string :=
  match s with
  | EmptyString => EmptyString
  | String c r =>
      match trimEnd r with
      | EmptyString => if is_blank c then EmptyString else String c EmptyString
      | r' => String c r'
      end
  end.

Definition ascii_trim (s : string) : string := trimEnd (trimStart s).

(** A child process that ends with code 0 and the given output. *)
Definition echo_spawn (out : string) (cmd : list string) : JsError + ChildProcess :=
  inr {| stdout := out; stderr := ""; exitCode := Some 0%Z |}.

(** A desktop on which nothing was spawned or copied yet. *)
Definition desktop_of (w : World) : Desktop :=
  {| machine := {| world := w; spawned := [] |}; clipboard := None |}.

(** A clipboard that takes every text. *)
Definition clipboard_accepts (text_ : string) : option JsError := None.

(** ** Facts about the schemas *)

Section SchemaFacts.
Context `{Runtime}.

Lemma LLMProviderConfigSchema_toJs (b : LLMProviderConfig) :
  LLMProviderConfigSchema (LLMProviderConfig_toJs b)
  = if url_ok b then Some (declared b) else None.
Proof.
  destruct b as [[k|] [u|] [m|] [v|]]; unfold url_ok; cbn;
    try destruct (isUrl u); reflexivity.
Qed.

Lemma ProvidersSchema_toJs (ps : Providers) :
  ProvidersSchema (Providers_toJs ps)
  = if from_option url_ok true (of_openai ps) && from_option url_ok true (of_azure ps)
       && from_option url_ok true (of_local ps)
    then Some {| of_openai := declared <$> of_openai ps;
                 of_azure := declared <$> of_azure ps;
                 of_local := declared <$> of_local ps |}
    else None.
Proof.
  destruct ps as [[a|] [b|] [c|]]; cbn -[LLMProviderConfigSchema LLMProviderConfig_toJs];
    rewrite ?LLMProviderConfigSchema_toJs;
    repeat match goal with |- context [url_ok ?x] => destruct (url_ok x) end;
    reflexivity.
Qed.

Lemma AppConfigSchema_toJs (c : AppConfig) :
  AppConfigSchema (AppConfig_toJs c) = if urls_ok c then Some (declared_config c) else None.
Proof.
  destruct c as [d ps]. unfold AppConfigSchema, AppConfig_toJs, urls_ok.
  cbn -[ProvidersSchema Providers_toJs].
  rewrite ProvidersSchema_toJs.
  destruct d; cbn;
    destruct (from_option url_ok true (of_openai ps) && from_option url_ok true (of_azure ps)
              && from_option url_ok true (of_local ps)); reflexivity.
Qed.

Lemma declared_idemp (b : LLMProviderConfig) : declared (declared b) = declared b.
Proof. reflexivity. Qed.

Lemma url_ok_declared (b : LLMProviderConfig) : url_ok (declared b) = url_ok b.
Proof. reflexivity. Qed.

Lemma urls_ok_declared_config (c : AppConfig) : urls_ok (declared_config c) = urls_ok c.
Proof.
  destruct c as [d [[a|] [b|] [e|]]]; reflexivity.
Qed.

Lemma urls_ok_initial : urls_ok defaultConfig_initial = true.
Proof. unfold urls_ok; cbn. unfold url_ok; cbn. now rewrite isUrl_localhost. Qed.

Lemma declared_config_initial : declared_config defaultConfig_initial = defaultConfig_initial.
Proof. reflexivity. Qed.

(** Validation drops [apiVersion] and nothing else; what comes out of it
    passes the URL check. *)
Lemma AppConfigSchema_declared (j : Json) (c : AppConfig) :
  AppConfigSchema j = Some c -> declared_config c = c /\ urls_ok c = true.
Proof.
  assert (Hblock : forall v b, LLMProviderConfigSchema v = Some b ->
                               declared b = b /\ url_ok b = true).
  { intros v b. destruct v; cbn; try discriminate.
    destruct (prop "apiKey" props) as [[]|]; cbn; try discriminate;
      destruct (prop "baseUrl" props) as [[| | |u| |]|]; cbn; try discriminate;
      try (destruct (isUrl u) eqn:Hu; cbn; try discriminate);
      destruct (prop "model" props) as [[]|]; cbn; try discriminate;
      intros [= <-]; unfold url_ok; cbn; auto. }
  assert (Hopt : forall v o, z_optional LLMProviderConfigSchema v = Some o ->
                             declared <$> o = o /\ from_option url_ok true o = true).
  { intros [v|] o; cbn.
    - destruct (LLMProviderConfigSchema v) eqn:E; cbn; try discriminate.
      intros [= <-]. cbn. apply Hblock in E as [E1 E2]. rewrite E1, E2. auto.
    - intros [= <-]. auto. }
  destruct j; cbn; try discriminate.
  destruct (z_default z_enum_ProviderId openai (prop "defaultProvider" props)) as [d|];
    cbn; try discriminate.
  destruct (prop "providers" props) as [[| | | | |o]|]; cbn; try discriminate.
  destruct (z_optional LLMProviderConfigSchema (prop "openai" o)) as [a|] eqn:Ea;
    cbn; try discriminate.
  destruct (z_optional LLMProviderConfigSchema (prop "azure" o)) as [b|] eqn:Eb;
    cbn; try discriminate.
  destruct (z_optional LLMProviderConfigSchema (prop "local" o)) as [e|] eqn:Ee;
    cbn; try discriminate.
  intros [= <-]. unfold declared_config, urls_ok; cbn.
  apply Hopt in Ea as [Ea1 Ea2], Eb as [Eb1 Eb2], Ee as [Ee1 Ee2].
  rewrite Ea1, Ea2, Eb1, Eb2, Ee1, Ee2. auto.
Qed.
End SchemaFacts.

(** ** Running the configuration service *)

Ltac run :=
  unfold bind, try_catch, ret, throw, emit, modify, get_world, get,
    fs_access, fs_mkdir, fs_readFile, fs_writeFile;
  cbn -[saveConfig loadConfig].

Section ConfigServiceFacts.
Context `{Runtime}.

Lemma saveConfig_run (config : AppConfig) (w : World) :
  exists w',
    saveConfig config w = (Returned tt, w')
    /\ defaultConfig w' = defaultConfig w
    /\ heap w' = heap w
    /\ disk w' = disk_after_save config (disk w)
    /\ exists evs, console w' = (console w ++ evs)%list.
Proof.
  unfold saveConfig, AppConfigSchema_parse, ensureConfigDirExists, disk_after_save.
  destruct (AppConfigSchema (AppConfig_toJs config)) as [v|]; run.
  - destruct (disk w) eqn:Hd; cbn; rewrite ?Hd; cbn;
      eexists; (split; [reflexivity|]); cbn;
      repeat split; try reflexivity; rewrite <- ?app_assoc; eexists; reflexivity.
  - eexists; (split; [reflexivity|]); cbn;
      repeat split; try reflexivity; rewrite <- ?app_assoc; eexists; reflexivity.
Qed.

Lemma loadConfig_run (w : World) :
  exists w',
    loadConfig w = (Returned (loaded (defaultConfig w) (disk w)), w')
    /\ defaultConfig w' = defaultConfig w
    /\ heap w' = heap w
    /\ disk w' = disk_after_load (defaultConfig w) (disk w)
    /\ exists evs, console w' = (console w ++ evs)%list.
Proof.
  unfold loadConfig, ensureConfigDirExists, JSON_parse_or_throw, loaded, disk_after_load, stored.
  assert (Hsave : forall w0 evs0,
             defaultConfig w0 = defaultConfig w -> heap w0 = heap w ->
             console w0 = (console w ++ evs0)%list ->
             exists w',
               (let (o, w1) := saveConfig (defaultConfig w0) w0 in
                match o with
                | Returned _ => (Returned TheDefault, w1)
                | Thrown e => (Thrown e, w1)
                end) = (Returned TheDefault, w')
               /\ defaultConfig w' = defaultConfig w /\ heap w' = heap w
               /\ disk w' = disk_after_save (defaultConfig w) (disk w0)
               /\ exists evs, console w' = (console w ++ evs)%list).
  { intros w0 evs0 Hc0 Hh0 He0.
    destruct (saveConfig_run (defaultConfig w0) w0) as (w' & -> & Hc & Hh & Hk & evs & He).
    exists w'. rewrite Hc, Hh, Hk, He, Hc0, Hh0, He0, <- app_assoc. eauto 10. }
  run.
  destruct (disk w) as [| |s] eqn:Hd; cbn -[saveConfig]; rewrite ?Hd; cbn -[saveConfig].
  1,2: match goal with
       | |- context [saveConfig _ ?w0] =>
           destruct (Hsave w0 [spinner_start "Loading configuration...";
                               spinner_warn "Configuration file not found or error reading/parsing. Using and creating default configuration."])
             as (w' & E & Hc & Hh & Hk & He)
       end; try reflexivity; try (cbn; rewrite <- app_assoc; reflexivity);
       cbn -[saveConfig] in E; rewrite E; exists w'; cbn in Hk; rewrite ?Hd in Hk; auto.
  destruct (JSON_parse s) as [j|]; cbn -[saveConfig]; rewrite ?Hd; cbn -[saveConfig].
  - destruct (AppConfigSchema j) as [l|]; run.
    + eexists; (split; [reflexivity|]); cbn; rewrite ?Hd;
        repeat split; try reflexivity; rewrite <- ?app_assoc; eexists; reflexivity.
    + match goal with
      | |- context [saveConfig _ ?w0] =>
          destruct (Hsave w0 [spinner_start "Loading configuration...";
                              spinner_warn ("Invalid configuration: " +:+ ZodError_message j
                                            +:+ ". Using default configuration.")])
            as (w' & E & Hc & Hh & Hk & He)
      end; try reflexivity; try (cbn; rewrite <- app_assoc; reflexivity);
        cbn -[saveConfig] in E; rewrite E; exists w'; cbn in Hk; rewrite ?Hd in Hk; auto.
  - match goal with
    | |- context [saveConfig _ ?w0] =>
        destruct (Hsave w0 [spinner_start "Loading configuration...";
                            spinner_warn "Configuration file not found or error reading/parsing. Using and creating default configuration."])
          as (w' & E & Hc & Hh & Hk & He)
    end; try reflexivity; try (cbn; rewrite <- app_assoc; reflexivity);
      cbn -[saveConfig] in E; rewrite E; exists w'; cbn in Hk; rewrite ?Hd in Hk; auto.
Qed.
End ConfigServiceFacts.

(** ** The configuration store *)

Section ConfigStore.
Context `{Runtime}.

Lemma stored_written (c v : AppConfig) :
  AppConfigSchema (AppConfig_toJs c) = Some v ->
  stored (File (JSON_stringify (AppConfig_toJs v))) = Some v.
Proof.
  intros Hv. apply AppConfigSchema_declared in Hv as [Hd Hu].
  unfold stored. rewrite JSON_parse_stringify. unfold mbind, option_bind.
  now rewrite AppConfigSchema_toJs, Hu, Hd.
Qed.

Lemma disk_after_save_valid (c : AppConfig) (d : ConfigDisk) :
  urls_ok c = true ->
  disk_after_save c d = File (JSON_stringify (AppConfig_toJs (declared_config c))).
Proof. intros Hu. unfold disk_after_save. now rewrite AppConfigSchema_toJs, Hu. Qed.

Lemma stored_after_save_valid (c : AppConfig) (d : ConfigDisk) :
  urls_ok c = true -> stored (disk_after_save c d) = Some (declared_config c).
Proof.
  intros Hu. unfold disk_after_save. rewrite AppConfigSchema_toJs, Hu.
  apply (stored_written c). now rewrite AppConfigSchema_toJs, Hu.
Qed.

Lemma Unusable_stored (d : ConfigDisk) : Unusable d -> stored d = None.
Proof.
  intros [| | |s Hs|s j Hs Hj]; cbn; try reflexivity.
  - now rewrite JSON_parse_empty.
  - now rewrite Hs.
  - now rewrite Hs.
Qed.

(** While the default configuration object of the process has the value it
    was initialised with: whenever the configuration file is missing,
    empty, not valid JSON or rejected by the schema, [loadConfig] does not
    fail.  It returns the default configuration object, whose value is
    exactly the default configuration, and the file at the configuration
    path then holds the default configuration. *)
Lemma loadConfig_falls_back_to_default (w : World) :
  defaultConfig w = defaultConfig_initial ->
  Unusable (disk w) ->
  exists w',
    loadConfig w = (Returned TheDefault, w')
    /\ deref TheDefault w' = defaultConfig_initial
    /\ disk w' = File (JSON_stringify (AppConfig_toJs defaultConfig_initial))
    /\ stored (disk w') = Some defaultConfig_initial.
Proof.
  intros Hd Hu. apply Unusable_stored in Hu.
  destruct (loadConfig_run w) as (w' & E & Hc & _ & Hk & _).
  exists w'. unfold loaded, disk_after_load in *. rewrite Hu in *.
  rewrite Hd in *. rewrite disk_after_save_valid in Hk by apply urls_ok_initial.
  rewrite declared_config_initial in Hk.
  repeat split; auto.
  rewrite Hk. apply (stored_written defaultConfig_initial).
  now rewrite AppConfigSchema_toJs, urls_ok_initial.
Qed.

Lemma bind_returned {S A B : Type} (m : ST S A) (k : A -> ST S B) (s s' : S) (a : A) :
  m s = (Returned a, s') -> bind m k s = k a s'.
Proof. intros E. unfold bind. now rewrite E. Qed.

Lemma bind_thrown {S A B : Type} (m : ST S A) (k : A -> ST S B) (s s' : S) (e : JsError) :
  m s = (Thrown e, s') -> bind m k s = (Thrown e, s').
Proof. intros E. unfold bind. now rewrite E. Qed.

(** What [saveConfig] followed by [loadConfig] gives for a configuration
    that passes the schema: the declared keys of the configuration, merged
    over the defaults. *)
Lemma saveConfig_then_loadConfig (config : AppConfig) (w : World) :
  urls_ok config = true ->
  exists w1 w2,
    saveConfig config w = (Returned tt, w1)
    /\ loadConfig w1 = (Returned (Fresh (merge_over (defaultConfig w) (declared_config config))), w2)
    /\ defaultConfig w2 = defaultConfig w
    /\ heap w2 = heap w
    /\ disk w2 = File (JSON_stringify (AppConfig_toJs (declared_config config))).
Proof.
  intros Hu.
  destruct (saveConfig_run config w) as (w1 & E1 & Hc1 & Hh1 & Hk1 & _).
  destruct (loadConfig_run w1) as (w2 & E2 & Hc2 & Hh2 & Hk2 & _).
  exists w1, w2. unfold loaded, disk_after_load in *.
  rewrite Hk1, stored_after_save_valid in * by assumption.
  rewrite Hc1 in *. rewrite disk_after_save_valid in Hk2 by assumption.
  repeat split; congruence.
Qed.

(** C4. The code at a configuration that sets [apiVersion]: after
    [saveConfig] and [loadConfig] the enterprise-cloud block has no
    [apiVersion], while the configuration merged over the defaults has the
    one that was saved. *)
Theorem saveConfig_loadConfig_loses_apiVersion (d : ConfigDisk) :
  exists w1 c w2,
    saveConfig config_with_apiVersion (process_start d) = (Returned tt, w1)
    /\ loadConfig w1 = (Returned (Fresh c), w2)
    /\ apiVersion (block azure c) = None
    /\ apiVersion (block azure (merge_over defaultConfig_initial config_with_apiVersion))
       = Some "2024-06-01"
    /\ c <> merge_over defaultConfig_initial config_with_apiVersion.
Proof.
  destruct (saveConfig_then_loadConfig config_with_apiVersion (process_start d) eq_refl)
    as (w1 & w2 & E1 & E2 & _).
  exists w1, (merge_over defaultConfig_initial (declared_config config_with_apiVersion)), w2.
  repeat split; try assumption; try reflexivity. discriminate.
Qed.

Lemma updateProviderConfig_run (name : ProviderId) (updateData : Partial_LLMProviderConfig)
    (w : World) :
  exists w',
    updateProviderConfig name updateData w = (Returned tt, w')
    /\ heap w' = heap w
    /\ defaultConfig w' = match stored (disk w) with
                          | Some _ => defaultConfig w
                          | None => updated (defaultConfig w) name updateData
                          end
    /\ disk w' = disk_after_save (updated (shown w) name updateData)
                   (disk_after_load (defaultConfig w) (disk w)).
Proof.
  destruct (loadConfig_run w) as (w1 & E1 & Hc1 & Hh1 & Hk1 & _).
  unfold updateProviderConfig. rewrite (bind_returned _ _ _ _ _ E1).
  unfold shown, loaded in *.
  destruct (stored (disk w)) as [l|] eqn:Hs; run; unfold assign_provider; cbn -[saveConfig].
  - match goal with
    | |- context [saveConfig ?c ?w0] =>
        destruct (saveConfig_run c w0) as (w' & -> & Hc & Hh & Hk & _)
    end.
    exists w'. rewrite Hc, Hh, Hk, Hc1, Hh1, Hk1. auto.
  - match goal with
    | |- context [saveConfig ?c ?w0] =>
        destruct (saveConfig_run c w0) as (w' & -> & Hc & Hh & Hk & _)
    end.
    exists w'. rewrite Hc, Hh, Hk. cbn. rewrite Hc1, Hh1, Hk1. auto.
Qed.

Lemma setDefaultProvider_run (name : ProviderId) (w : World) :
  exists w',
    setDefaultProvider name w = (Returned tt, w')
    /\ heap w' = heap w
    /\ defaultConfig w' = match stored (disk w) with
                          | Some _ => defaultConfig w
                          | None => with_defaultProvider name (defaultConfig w)
                          end
    /\ disk w' = disk_after_save (with_defaultProvider name (shown w))
                   (disk_after_load (defaultConfig w) (disk w)).
Proof.
  destruct (loadConfig_run w) as (w1 & E1 & Hc1 & Hh1 & Hk1 & _).
  unfold setDefaultProvider. rewrite (bind_returned _ _ _ _ _ E1).
  unfold shown, loaded in *.
  destruct (stored (disk w)) as [l|] eqn:Hs; run; unfold assign_defaultProvider; cbn -[saveConfig].
  - match goal with
    | |- context [saveConfig ?c ?w0] =>
        destruct (saveConfig_run c w0) as (w' & -> & Hc & Hh & Hk & _)
    end.
    exists w'. rewrite Hc, Hh, Hk, Hc1, Hh1, Hk1. auto.
  - match goal with
    | |- context [saveConfig ?c ?w0] =>
        destruct (saveConfig_run c w0) as (w' & -> & Hc & Hh & Hk & _)
    end.
    exists w'. rewrite Hc, Hh, Hk. cbn. rewrite Hc1, Hh1, Hk1. auto.
Qed.

(** C3. The recovery of [loadConfig] returns the default configuration
    object of the process itself, and [setDefaultProvider] assigns into
    what [loadConfig] returned.  So in a process that started without a
    configuration directory, after [setDefaultProvider azure], once the
    file is gone again, [loadConfig] returns a configuration whose default
    provider is [azure], which is not the default configuration, and
    persists that one. *)
Theorem loadConfig_returns_the_changed_defaults :
  exists w1 w2,
    setDefaultProvider azure (process_start NoDir) = (Returned tt, w1)
    /\ Unusable (disk (with_disk NoFile w1))
    /\ loadConfig (with_disk NoFile w1) = (Returned TheDefault, w2)
    /\ defaultProvider (deref TheDefault w2) = azure
    /\ deref TheDefault w2 <> defaultConfig_initial
    /\ disk w2
       = File (JSON_stringify (AppConfig_toJs (with_defaultProvider azure defaultConfig_initial))).
Proof.
  destruct (setDefaultProvider_run azure (process_start NoDir)) as (w1 & E1 & _ & Hc1 & _).
  cbn in Hc1.
  destruct (loadConfig_run (with_disk NoFile w1)) as (w2 & E2 & Hc2 & _ & Hk2 & _).
  unfold loaded, disk_after_load in *. cbn [disk with_disk defaultConfig stored] in *.
  rewrite Hc1 in *.
  rewrite disk_after_save_valid in Hk2 by apply urls_ok_initial.
  exists w1, w2. split; [exact E1|]. split; [constructor|]. split; [exact E2|].
  cbn [deref]. rewrite Hc2. repeat split; [discriminate|exact Hk2].
Qed.

(** *** Blocks of merged and updated configurations *)

Lemma spread_empty_l (b : LLMProviderConfig) : spread empty_block b = b.
Proof. now destruct b as [[] [] [] []]. Qed.

Lemma spread_empty_r (b : LLMProviderConfig) : spread b empty_block = b.
Proof. now destruct b. Qed.

Lemma spread_blocks_default (a b : option LLMProviderConfig) :
  spread_blocks a b = spread (default empty_block a) (default empty_block b).
Proof.
  unfold spread_blocks. destruct a as [a|], b as [b|]; cbn;
    now rewrite ?spread_empty_l, ?spread_empty_r.
Qed.

Lemma block_merge_over (name : ProviderId) (d l : AppConfig) :
  block name (merge_over d l) = spread (block name d) (block name l).
Proof. unfold block. destruct name; cbn; apply spread_blocks_default. Qed.

Lemma block_updated_same (name : ProviderId) (c : AppConfig) (u : Partial_LLMProviderConfig) :
  block name (updated c name u) = spread_written (block name c) u.
Proof. unfold block, updated. now destruct name. Qed.

Lemma block_updated_other (name other : ProviderId) (c : AppConfig)
    (u : Partial_LLMProviderConfig) :
  other <> name -> block other (updated c name u) = block other c.
Proof. unfold block, updated. destruct name, other; cbn; congruence. Qed.

Lemma block_declared_config (name : ProviderId) (c : AppConfig) :
  block name (declared_config c) = declared (block name c).
Proof.
  unfold block. destruct name; cbn;
    match goal with |- context [declared <$> ?x] => now destruct x end.
Qed.

Lemma stored_declared (d : ConfigDisk) (l : AppConfig) :
  stored d = Some l -> declared_config l = l /\ urls_ok l = true.
Proof.
  destruct d as [| |s]; cbn; try discriminate.
  destruct (JSON_parse s) as [j|]; cbn; try discriminate.
  apply AppConfigSchema_declared.
Qed.

Lemma url_ok_spread (a b : LLMProviderConfig) :
  url_ok a = true -> url_ok b = true -> url_ok (spread a b) = true.
Proof. unfold url_ok, spread. cbn. now destruct (baseUrl b). Qed.

Lemma urls_ok_blocks (c : AppConfig) :
  urls_ok c = true <-> forall name, url_ok (block name c) = true.
Proof.
  unfold urls_ok, block. split.
  - intros Hc name. apply andb_prop in Hc as [Hc H3]. apply andb_prop in Hc as [H1 H2].
    destruct name; cbn;
      match goal with |- context [default _ ?x] => now destruct x end.
  - intros Hall. pose proof (Hall openai) as H1. pose proof (Hall azure) as H2.
    pose proof (Hall local) as H3. cbn in H1, H2, H3.
    destruct (of_openai (providers c)), (of_azure (providers c)), (of_local (providers c));
      cbn in *; rewrite ?H1, ?H2, ?H3; reflexivity.
Qed.

(** Over defaults whose [baseUrl]s are URLs, so are those [loadConfig]
    shows. *)
Lemma urls_ok_shown_over (w : World) :
  urls_ok (defaultConfig w) = true -> urls_ok (shown w) = true.
Proof.
  intros Hd. unfold shown.
  destruct (stored (disk w)) as [l|] eqn:Hs; [|exact Hd].
  apply stored_declared in Hs as [_ Hl].
  apply urls_ok_blocks. intros name. rewrite block_merge_over.
  apply url_ok_spread; now apply urls_ok_blocks.
Qed.

Lemma urls_ok_shown (w : World) :
  defaultConfig w = defaultConfig_initial -> urls_ok (shown w) = true.
Proof. intros Hd. apply urls_ok_shown_over. rewrite Hd. apply urls_ok_initial. Qed.

Lemma url_ok_spread_written (a : LLMProviderConfig) (u : Partial_LLMProviderConfig) :
  url_ok a = true -> url_ok_written u = true -> url_ok (spread_written a u) = true.
Proof. unfold url_ok, url_ok_written, spread_written. cbn. now destruct (baseUrl_of u). Qed.

Lemma urls_ok_updated (c : AppConfig) (name : ProviderId) (u : Partial_LLMProviderConfig) :
  urls_ok c = true -> url_ok_written u = true -> urls_ok (updated c name u) = true.
Proof.
  intros Hc Hu. apply urls_ok_blocks. intros other.
  destruct (decide (other = name)) as [->|Hne].
  - rewrite block_updated_same.
    apply url_ok_spread_written; [now apply urls_ok_blocks|assumption].
  - rewrite block_updated_other by assumption. now apply urls_ok_blocks.
Qed.

(** With the defaults of a fresh process, no block that [loadConfig]
    shows has an [apiVersion]. *)
Lemma apiVersion_shown (w : World) (name : ProviderId) :
  defaultConfig w = defaultConfig_initial -> apiVersion (block name (shown w)) = None.
Proof.
  intros Hd. unfold shown. rewrite Hd.
  destruct (stored (disk w)) as [l|] eqn:Hs; [|now destruct name].
  apply stored_declared in Hs as [Hl _].
  rewrite block_merge_over, <- Hl, block_declared_config. now destruct name.
Qed.

Lemma loadConfig_shown (w : World) :
  exists w', loadConfig w = (Returned (loaded (defaultConfig w) (disk w)), w')
             /\ deref (loaded (defaultConfig w) (disk w)) w' = shown w
             /\ defaultConfig w' = defaultConfig w
             /\ heap w' = heap w
             /\ disk w' = disk_after_load (defaultConfig w) (disk w).
Proof.
  destruct (loadConfig_run w) as (w' & E & Hc & Hh & Hk & _).
  exists w'. repeat split; try assumption.
  unfold loaded, shown. destruct (stored (disk w)); cbn; congruence.
Qed.

Lemma spread_declared_self (b : LLMProviderConfig) : spread b (declared b) = b.
Proof. now destruct b as [[] [] [] []]. Qed.

Lemma spread_field_absorb {A : Type} (a b c : option A) :
  spread_field a (spread_field (spread_field a b) c) = spread_field (spread_field a b) c.
Proof. now destruct a, b, c. Qed.





End ConfigStore.

(** ** The provider clients *)

Ltac run_method :=
  unfold bind, try_catch, ret, throw, get_this, set_this, the_world, create; cbn.

Section ProviderFacts.
Context `{Runtime}.

Lemma call_loadConfig {T : Type} (this : T) (w : World) :
  exists w',
    call loadConfig (this, w) = (Returned (loaded (defaultConfig w) (disk w)), (this, w'))
    /\ deref (loaded (defaultConfig w) (disk w)) w' = shown w
    /\ defaultConfig w' = defaultConfig w
    /\ heap w' = heap w
    /\ disk w' = disk_after_load (defaultConfig w) (disk w).
Proof.
  destruct (loadConfig_shown w) as (w' & E & Hs & Hc & Hh & Hk).
  exists w'. unfold call. cbn [fst snd]. rewrite E. auto.
Qed.

(** The lazy initialisation of the cloud client, when it has not happened
    yet. *)
Lemma OpenAIProvider_initializeClient_run (this : OpenAIProvider) (w : World) :
  not_null (oa_openai this) && not_null (oa_activeConfig this) = false ->
  exists w',
    heap w' = heap w /\ defaultConfig w' = defaultConfig w
    /\ disk w' = disk_after_load (defaultConfig w) (disk w)
    /\ OpenAIProvider_initializeClient (this, w)
       = let cfg := of_openai (providers (shown w)) in
         let r := Some (loaded (defaultConfig w) (disk w)) in
         if truthy (cfg ≫= apiKey)
         then (Returned tt,
               ({| oa_openai := Some (new_OpenAI (cfg ≫= apiKey) None);
                   oa_activeConfig := cfg; oa_appConfig := r |}, w'))
         else (Thrown (Error "API key for OpenAI is not configured. Run the `configure` command."),
               ({| oa_openai := oa_openai this; oa_activeConfig := oa_activeConfig this;
                   oa_appConfig := r |}, w')).
Proof.
  intros Hinit.
  destruct (call_loadConfig this w) as (w' & E & Hs & Hc & Hh & Hk).
  exists w'. repeat split; try assumption.
  unfold OpenAIProvider_initializeClient.
  unfold bind at 1. unfold get_this at 1. cbn [fst snd]. rewrite Hinit.
  rewrite (bind_returned _ _ _ _ _ E). run_method. rewrite Hs.
  now destruct (truthy (of_openai (providers (shown w)) ≫= apiKey)).
Qed.

Lemma OpenAIProvider_initializeClient_done (this : OpenAIProvider) (w : World) :
  not_null (oa_openai this) && not_null (oa_activeConfig this) = true ->
  OpenAIProvider_initializeClient (this, w) = (Returned tt, (this, w)).
Proof.
  intros Hinit. unfold OpenAIProvider_initializeClient.
  unfold bind at 1. unfold get_this at 1. cbn [fst snd]. now rewrite Hinit.
Qed.

(** The lazy initialisation of the enterprise-cloud client, when it has
    not happened yet. *)
Lemma AzureOpenAIProvider_initializeClient_run (this : AzureOpenAIProvider) (w : World) :
  not_null (az_client this) && not_null (az_activeConfig this) = false ->
  exists w',
    heap w' = heap w /\ defaultConfig w' = defaultConfig w
    /\ disk w' = disk_after_load (defaultConfig w) (disk w)
    /\ AzureOpenAIProvider_initializeClient (this, w)
       = let cfg := of_azure (providers (shown w)) in
         let r := Some (loaded (defaultConfig w) (disk w)) in
         if truthy (cfg ≫= apiKey) && truthy (cfg ≫= baseUrl) && truthy (cfg ≫= model)
         then (Returned tt,
               ({| az_client := Some (new_AzureOpenAI (cfg ≫= apiKey) (cfg ≫= model)
                                        (js_or_str (cfg ≫= apiVersion) "2025-03-01-preview")
                                        (cfg ≫= baseUrl));
                   az_appConfig := r; az_activeConfig := cfg;
                   az_deploymentName := cfg ≫= model |}, w'))
         else (Thrown (Error "API key, endpoint (baseUrl), or deployment name (model) of Azure OpenAI are not configured. Run the `configure` command"),
               ({| az_client := az_client this; az_appConfig := r;
                   az_activeConfig := az_activeConfig this;
                   az_deploymentName := az_deploymentName this |}, w')).
Proof.
  intros Hinit.
  destruct (call_loadConfig this w) as (w' & E & Hs & Hc & Hh & Hk).
  exists w'. repeat split; try assumption.
  unfold AzureOpenAIProvider_initializeClient.
  unfold bind at 1. unfold get_this at 1. cbn [fst snd]. rewrite Hinit.
  rewrite (bind_returned _ _ _ _ _ E). run_method. rewrite Hs.
  destruct (truthy (of_azure (providers (shown w)) ≫= apiKey)),
    (truthy (of_azure (providers (shown w)) ≫= baseUrl)),
    (truthy (of_azure (providers (shown w)) ≫= model)); reflexivity.
Qed.

Lemma AzureOpenAIProvider_initializeClient_done (this : AzureOpenAIProvider) (w : World) :
  not_null (az_client this) && not_null (az_activeConfig this) = true ->
  AzureOpenAIProvider_initializeClient (this, w) = (Returned tt, (this, w)).
Proof.
  intros Hinit. unfold AzureOpenAIProvider_initializeClient.
  unfold bind at 1. unfold get_this at 1. cbn [fst snd]. now rewrite Hinit.
Qed.
End ProviderFacts.

(** ** The [apiVersion] of a provider block *)

Section ApiVersion.
Context `{Runtime}.

Lemma has_key_apiVersion_declared (c : AppConfig) :
  has_key "apiVersion" (AppConfig_toJs (declared_config c)) = false.
Proof.
  assert (Hb : forall b, has_key "apiVersion" (LLMProviderConfig_toJs (declared b)) = false)
    by (intros [[] [] [] []]; reflexivity).
  destruct c as [d [[a|] [b|] [e|]]]; cbn -[LLMProviderConfig_toJs declared];
    rewrite ?Hb; reflexivity.
Qed.

Lemma bind_block (name : ProviderId) (c : AppConfig) (f : LLMProviderConfig -> option string) :
  f empty_block = None -> provider_get name (providers c) ≫= f = f (block name c).
Proof. intros Hf. unfold block. now destruct (provider_get name (providers c)). Qed.



End ApiVersion.

(** ** Calls through the interface *)

Section Interface.
Context `{Runtime} `{LocalLLMConstants}.

Lemma with_heap_same (w : World) (l : nat) (p : LLMProvider) :
  heap w !! l = Some p -> with_heap (<[l := p]> (heap w)) w = w.
Proof.
  intros Hl. rewrite list_insert_id by assumption. now destruct w.
Qed.

Lemma responseContent_first (completion : ChatCompletion) :
  responseContent completion = first_completion_text completion.
Proof.
  unfold responseContent, first_completion_text.
  destruct (choices completion) as [|[[[[t|]]|]] r]; cbn; try reflexivity.
  destruct (String.eqb t "") eqn:E; [|reflexivity].
  now apply String.eqb_eq in E.
Qed.

Lemma response_of_normalised (completion : ChatCompletion) :
  response_of completion = normalised (inl completion).
Proof. unfold response_of, normalised. now rewrite responseContent_first. Qed.

Lemma LocalLLMProvider_initializeClient_done (this : LocalLLMProvider) (w : World) :
  not_null (lo_client this) && not_null (lo_activeConfig this) = true ->
  LocalLLMProvider_initializeClient (this, w) = (Returned tt, (this, w)).
Proof.
  intros Hinit. unfold LocalLLMProvider_initializeClient.
  unfold bind at 1. unfold get_this at 1. cbn [fst snd]. now rewrite Hinit.
Qed.

(** An initialised client sends the two-message request of the operation
    and returns the normalised answer; nothing else changes. *)
Lemma LLMProvider_calls_initialized (w : World) (l : nat) (p : LLMProvider)
    (text : string) (model_ : option string) :
  heap w !! l = Some p ->
  initialized p = true ->
  exists client,
    sdk_client p = Some client
    /\ LLMProvider_generate l text model_ w
       = (Returned (normalised (chat_completions_create client (generate_request p text model_))), w)
    /\ LLMProvider_explain l text model_ w
       = (Returned (normalised (chat_completions_create client (explain_request p text model_))), w).
Proof.
  intros Hl Hinit. unfold LLMProvider_generate, LLMProvider_explain. rewrite Hl.
  destruct p as [this|this|this]; cbn in Hinit; unfold invoke.
  - apply andb_prop in Hinit as Hi. destruct Hi as [Hc _].
    destruct (oa_openai this) as [client|] eqn:Ec; [clear Hc|discriminate Hc].
    exists client. split; [exact Ec|].
    unfold OpenAIProvider_generate, OpenAIProvider_explain.
    rewrite !(bind_returned _ _ _ _ _ (OpenAIProvider_initializeClient_done this w
                                         ltac:(rewrite Ec; exact Hinit))).
    run_method. rewrite Ec. cbn.
    split;
      match goal with
      | |- context [chat_completions_create ?c ?r] =>
          change r with (generate_request (an_OpenAIProvider this) text model_)
          || change r with (explain_request (an_OpenAIProvider this) text model_);
          destruct (chat_completions_create c _)
      end; cbn; rewrite ?response_of_normalised, (with_heap_same w l _ Hl); reflexivity.
  - apply andb_prop in Hinit as Hi. destruct Hi as [Hc _].
    destruct (az_client this) as [client|] eqn:Ec; [clear Hc|discriminate Hc].
    exists client. split; [exact Ec|].
    unfold AzureOpenAIProvider_generate, AzureOpenAIProvider_explain.
    rewrite !(bind_returned _ _ _ _ _ (AzureOpenAIProvider_initializeClient_done this w
                                         ltac:(rewrite Ec; exact Hinit))).
    run_method. rewrite Ec. cbn.
    split;
      match goal with
      | |- context [chat_completions_create ?c ?r] =>
          change r with (generate_request (an_AzureOpenAIProvider this) text model_)
          || change r with (explain_request (an_AzureOpenAIProvider this) text model_);
          destruct (chat_completions_create c _)
      end; cbn; rewrite ?response_of_normalised, (with_heap_same w l _ Hl); reflexivity.
  - apply andb_prop in Hinit as Hi. destruct Hi as [Hc _].
    destruct (lo_client this) as [client|] eqn:Ec; [clear Hc|discriminate Hc].
    exists client. split; [exact Ec|].
    unfold LocalLLMProvider_generate, LocalLLMProvider_explain, LocalLLMProvider_request.
    unfold try_catch.
    rewrite !(bind_returned _ _ _ _ _ (LocalLLMProvider_initializeClient_done this w
                                         ltac:(rewrite Ec; exact Hinit))).
    run_method. rewrite Ec. cbn.
    split;
      match goal with
      | |- context [chat_completions_create ?c ?r] =>
          change r with (generate_request (a_LocalLLMProvider this) text model_)
          || change r with (explain_request (a_LocalLLMProvider this) text model_);
          destruct (chat_completions_create c _)
      end; cbn; rewrite ?response_of_normalised, (with_heap_same w l _ Hl); reflexivity.
Qed.

(** C5. For both operations of every initialised client: the call
    returns, never throws, and changes nothing else.  When the endpoint
    answers with a completion, the response carries the text of the first
    completion (the empty string when it is absent), the usage counters
    as far as the completion has them, and no error; when the endpoint
    fails, the response is [{ content: null, error: message }]. *)
Theorem generate_and_explain_normalise_the_answer
    (w : World) (l : nat) (p : LLMProvider) (text : string) (model_ : option string) :
  heap w !! l = Some p ->
  initialized p = true ->
  exists client,
    sdk_client p = Some client
    /\ match chat_completions_create client (generate_request p text model_) with
       | inl completion =>
           LLMProvider_generate l text model_ w
           = (Returned {| content := Some (first_completion_text completion);
                          error := None;
                          usage := Some {| promptTokens := prompt_tokens <$> completion_usage completion;
                                           completionTokens :=
                                             completion_tokens <$> completion_usage completion;
                                           totalTokens := total_tokens <$> completion_usage completion |} |},
              w)
       | inr e =>
           LLMProvider_generate l text model_ w
           = (Returned {| content := None; error := Some (error_message e); usage := None |}, w)
       end
    /\ match chat_completions_create client (explain_request p text model_) with
       | inl completion =>
           LLMProvider_explain l text model_ w
           = (Returned {| content := Some (first_completion_text completion);
                          error := None;
                          usage := Some {| promptTokens := prompt_tokens <$> completion_usage completion;
                                           completionTokens :=
                                             completion_tokens <$> completion_usage completion;
                                           totalTokens := total_tokens <$> completion_usage completion |} |},
              w)
       | inr e =>
           LLMProvider_explain l text model_ w
           = (Returned {| content := None; error := Some (error_message e); usage := None |}, w)
       end.
Proof.
  intros Hl Hinit.
  destruct (LLMProvider_calls_initialized w l p text model_ Hl Hinit) as (client & Hc & Eg & Ee).
  exists client. split; [exact Hc|]. rewrite Eg, Ee.
  split; match goal with |- match ?a with _ => _ end => now destruct a end.
Qed.

Lemma js_or_nonempty (a b : option string) (f : string) :
  js_or_str (js_or a b) f = precedence (nonempty a) (nonempty b) f.
Proof.
  unfold js_or, js_or_str, precedence, nonempty, truthy.
  destruct a as [a|], b as [b|]; cbn;
    repeat (cbn;
            match goal with
            | E : String.eqb ?x "" = _ |- context [String.eqb ?x ""] => rewrite E
            | |- context [String.eqb ?x ""] => destruct (String.eqb x "") eqn:?
            end);
    cbn; congruence.
Qed.


(** C10. The empty string as the per-call model override is no override:
    the model resolved is the configured model, or deployment name, when
    that is present and not empty, and the fallback of the variant
    otherwise, as with no override at all.  That model is the model of
    the request an initialised client sends from [generate] and from
    [explain], and either call does with the empty string exactly what it
    does without an override. *)
Theorem empty_override_is_no_override (p : LLMProvider) :
  LLMProvider_getModel p (Some "")
  = default (fallback_model p) (nonempty (configured_model p))
  /\ LLMProvider_getModel p None
     = default (fallback_model p) (nonempty (configured_model p))
  /\ (forall (w : World) (l : nat) (text : string),
         heap w !! l = Some p ->
         initialized p = true ->
         exists client generating explaining,
           req_model generating = default (fallback_model p) (nonempty (configured_model p))
           /\ req_model explaining = default (fallback_model p) (nonempty (configured_model p))
           /\ LLMProvider_generate l text (Some "") w
              = (Returned (normalised (chat_completions_create client generating)), w)
           /\ LLMProvider_explain l text (Some "") w
              = (Returned (normalised (chat_completions_create client explaining)), w))
  /\ (forall (w : World) (l : nat) (text : string),
         LLMProvider_generate l text (Some "") w = LLMProvider_generate l text None w
         /\ LLMProvider_explain l text (Some "") w = LLMProvider_explain l text None w).
Proof.
  assert (Hm : forall override, nonempty override = None ->
                 LLMProvider_getModel p override
                 = default (fallback_model p) (nonempty (configured_model p))).
  { intros override Ho.
    replace (LLMProvider_getModel p override)
      with (precedence (nonempty override) (nonempty (configured_model p)) (fallback_model p))
      by (symmetry; destruct p; apply js_or_nonempty).
    rewrite Ho. cbn. now destruct (nonempty (configured_model p)). }
  split; [now apply Hm|]. split; [now apply Hm|]. split.
  - intros w l text Hl Hinit.
    destruct (LLMProvider_calls_initialized w l p text (Some "") Hl Hinit)
      as (client & _ & Eg & Ee).
    exists client, (generate_request p text (Some "")), (explain_request p text (Some "")).
    split; [now apply Hm|]. split; [now apply Hm|]. split; assumption.
  - intros w l text. unfold LLMProvider_generate, LLMProvider_explain.
    split; destruct (heap w !! l) as [[this|this|this]|]; reflexivity.
Qed.
End Interface.

(** ** The factory and its cache *)

Section Factory.
Context `{Runtime} `{LocalLLMConstants}.

Lemma getLLMProvider_run (providerName : option ProviderId) (w : World) :
  exists w',
    getLLMProvider providerName w = (Returned (length (heap w)), w')
    /\ heap w' = (heap w ++ [fresh_client (default (defaultProvider (shown w)) providerName)])%list
    /\ defaultConfig w' = defaultConfig w
    /\ disk w' = disk_after_load (defaultConfig w) (disk w).
Proof.
  destruct (loadConfig_shown w) as (w1 & E & Hs & Hc & Hh & Hk).
  unfold getLLMProvider. rewrite (bind_returned _ _ _ _ _ E).
  unfold bind, get_world, get. rewrite Hs.
  destruct (default (defaultProvider (shown w)) providerName); unfold new; cbn;
    rewrite Hh; eexists; (split; [reflexivity|]); cbn; auto.
Qed.

Lemma getInitializedLLMProvider_cached (this : Orchestrator) (w : World) (l : nat) :
  llmProvider this = Some l ->
  getInitializedLLMProvider None (this, w) = (Returned (Some l), (this, w)).
Proof.
  intros Hl. unfold getInitializedLLMProvider. run_method. rewrite Hl. cbn. now rewrite Hl.
Qed.

Lemma getInitializedLLMProvider_constructs
    (this : Orchestrator) (w : World) (providerName : option ProviderId) :
  llmProvider this = None \/ providerName <> None ->
  exists w',
    getInitializedLLMProvider providerName (this, w)
    = (Returned (Some (length (heap w))), ({| llmProvider := Some (length (heap w)) |}, w'))
    /\ heap w' = (heap w ++ [fresh_client (default (defaultProvider (shown w)) providerName)])%list
    /\ defaultConfig w' = defaultConfig w
    /\ disk w' = disk_after_load (defaultConfig w) (disk w).
Proof.
  intros Hwhy.
  destruct (getLLMProvider_run providerName w) as (w' & E & Hh & Hc & Hk).
  exists w'. repeat split; try assumption.
  unfold getInitializedLLMProvider, initializeProvider. run_method.
  assert (Hcond : negb (not_null (llmProvider this)) || not_null providerName = true).
  { destruct Hwhy as [->|Hn]; [reflexivity|].
    destruct providerName; [apply orb_true_r|congruence]. }
  rewrite Hcond. unfold call. cbn. now rewrite E.
Qed.

Lemma getInitializedLLMProvider_total
    (providerName : option ProviderId) (this : Orchestrator) (w : World) :
  exists l this' w',
    getInitializedLLMProvider providerName (this, w) = (Returned (Some l), (this', w'))
    /\ llmProvider this' = Some l.
Proof.
  destruct (llmProvider this) as [l|] eqn:Hl; [destruct providerName as [name|]|].
  - destruct (getInitializedLLMProvider_constructs this w (Some name)) as (w' & E & _);
      [right; discriminate|]. eauto 6.
  - exists l, this, w. split; [now apply getInitializedLLMProvider_cached|exact Hl].
  - destruct (getInitializedLLMProvider_constructs this w providerName) as (w' & E & _);
      [now left|]. eauto 6.
Qed.

(** C2. The orchestrator keeps one client.  With a client cached and no
    explicit name, it returns that client and constructs nothing.  With
    no client cached, or with an explicit name, equal or not to the cached
    provider's, it constructs a fresh client of the resolved provider,
    which replaces the cached one.  Two calls in a row with an explicit
    name construct two clients. *)
Theorem provider_is_cached_unless_named (this : Orchestrator) (w : World) :
  (forall l,
      llmProvider this = Some l ->
      getInitializedLLMProvider None (this, w) = (Returned (Some l), (this, w)))
  /\ (forall providerName,
         llmProvider this = None \/ providerName <> None ->
         exists w',
           getInitializedLLMProvider providerName (this, w)
           = (Returned (Some (length (heap w))), ({| llmProvider := Some (length (heap w)) |}, w'))
           /\ heap w' = (heap w ++ [fresh_client (default (defaultProvider (shown w)) providerName)])%list)
  /\ (forall id,
         exists this1 w1 this2 w2,
           getInitializedLLMProvider (Some id) (this, w)
           = (Returned (Some (length (heap w))), (this1, w1))
           /\ getInitializedLLMProvider (Some id) (this1, w1)
              = (Returned (Some (S (length (heap w)))), (this2, w2))
           /\ llmProvider this2 = Some (S (length (heap w)))
           /\ heap w2 = (heap w ++ [fresh_client id; fresh_client id])%list).
Proof.
  split; [|split].
  - intros l. apply getInitializedLLMProvider_cached.
  - intros providerName Hwhy.
    destruct (getInitializedLLMProvider_constructs this w providerName Hwhy) as (w' & E & Hh & _).
    eauto.
  - intros id.
    destruct (getInitializedLLMProvider_constructs this w (Some id)) as (w1 & E1 & Hh1 & _);
      [right; discriminate|].
    destruct (getInitializedLLMProvider_constructs {| llmProvider := Some (length (heap w)) |}
                w1 (Some id)) as (w2 & E2 & Hh2 & _); [right; discriminate|].
    eexists _, w1, _, w2. split; [exact E1|].
    rewrite Hh1, length_app, Nat.add_1_r in E2. split; [exact E2|]. split; [reflexivity|].
    rewrite Hh2, Hh1, <- app_assoc. reflexivity.
Qed.
End Factory.

(** ** The callers of the clients *)

Section Facade.
Context `{Runtime} `{LocalLLMConstants}.
Variable spawn : list string -> JsError + ChildProcess.
Variable clipboard_write : string -> option JsError.

Lemma say_say (a b : list Event) (w : World) : say b (say a w) = say (a ++ b) w.
Proof. unfold say, with_console. cbn. now rewrite app_assoc. Qed.

Lemma call_emit {T : Type} (e : Event) (this : T) (w : World) :
  call (emit e) (this, w) = (Returned tt, (this, say [e] w)).
Proof. reflexivity. Qed.

(** One run of [handleExplainCommand], given the client it resolved. *)
Lemma handleExplainCommand_run
    (args : ExplainCommandArgs) (this this' : Orchestrator) (w w0 : World) (l : nat) :
  getInitializedLLMProvider (provider args) (this, w) = (Returned (Some l), (this', w0)) ->
  handleExplainCommand args (this, w)
  = match LLMProvider_explain l (commandToExplain args) None
            (say [spinner_start ("Explaining command: " +:+ quote +:+ commandToExplain args
                                 +:+ quote +:+ "...")] w0) with
    | (Returned response, w2) =>
        (Returned tt, (this', say (explain_report (classify truthy false response) response) w2))
    | (Thrown e, w2) =>
        (Returned tt,
         (this', say [spinner_fail ("Error explaining command: " +:+ error_message e)] w2))
    end.
Proof.
  intros Hget. unfold handleExplainCommand.
  rewrite (bind_returned _ _ _ _ _ Hget).
  unfold bind at 1. rewrite call_emit.
  unfold try_catch, bind. unfold call at 1. cbn [fst snd].
  destruct (LLMProvider_explain l (commandToExplain args) None _) as [[response|e] w2];
    [|apply call_emit].
  unfold classify. destruct (truthy (error response)); [apply call_emit|].
  destruct (truthy (content response)); cbn [andb negb explain_report];
    rewrite ?call_emit, ?say_say; reflexivity.
Qed.

(** *** Steps of the session *)

Lemma with_world_with_world (w1 w2 : World) (d : Desktop) :
  with_world w2 (with_world w1 d) = with_world w2 d.
Proof. reflexivity. Qed.

Lemma on_world_emit (e : Event) (this : InteractiveSession) (d : Desktop) :
  on_world (call (emit e)) (this, d)
  = (Ends (Returned tt), (this, with_world (say [e] (world (machine d))) d)).
Proof. reflexivity. Qed.

Lemma on_world_set_lastGeneratedCommand
    (v : option string) (this : InteractiveSession) (d : Desktop) :
  on_world (set_lastGeneratedCommand v) (this, d)
  = (Ends (Returned tt),
     ({| orchestrator := orchestrator this; lastGeneratedCommand := v |},
      with_world (world (machine d)) d)).
Proof. reflexivity. Qed.

Lemma with_world_same (d : Desktop) : with_world (world (machine d)) d = d.
Proof. now destruct d as [[w sp] c]. Qed.

(** [executeLastCommand] returns, whatever the child does. *)
Lemma executeLastCommand_returns (confirm : bool) (this : InteractiveSession) (m : Machine) :
  exists m', executeLastCommand spawn confirm (this, m) = (Returned tt, (this, m')).
Proof.
  unfold executeLastCommand, bind, try_catch, Bun_spawn, in_world, emit, modify, ret.
  cbn [fst snd].
  destruct (truthy (lastGeneratedCommand this)); cbn [negb]; [|eauto].
  destruct confirm; [|eauto]. cbv zeta. cbn [fst snd world spawned].
  destruct (spawn _) as [e|proc]; [eauto|].
  destruct (bool_decide (exitCode proc = Some 0%Z)); cbn [fst snd world spawned].
  - destruct (truthy (Some (stdout proc))); eauto.
  - destruct (truthy (Some (stderr proc))), (truthy (Some (stdout proc)));
      cbn [andb negb fst snd world spawned]; eauto.
Qed.

Lemma never_throws_bind {A B : Type} (m : Session A) (k : A -> Session B) :
  never_throws m -> (forall a, never_throws (k a)) -> never_throws (Session_bind m k).
Proof.
  intros Hm Hk s e s' E. unfold Session_bind in E.
  destruct (m s) as [[[a|e0]|code] s0] eqn:Em.
  - exact (Hk a _ _ _ E).
  - exact (Hm _ _ _ Em).
  - discriminate E.
Qed.

Lemma never_throws_try {A : Type} (m : Session A) (handler : JsError -> Session A) :
  (forall e, never_throws (handler e)) -> never_throws (Session_try m handler).
Proof.
  intros Hh s e s' E. unfold Session_try in E.
  destruct (m s) as [[[a|e0]|code] s0]; try discriminate E.
  exact (Hh e0 _ _ _ E).
Qed.

Lemma never_throws_emit (e : Event) : never_throws (on_world (call (emit e))).
Proof. intros [this d] e0 s'. rewrite on_world_emit. discriminate. Qed.

Lemma never_throws_set_lastGeneratedCommand (v : option string) :
  never_throws (on_world (set_lastGeneratedCommand v)).
Proof. intros [this d] e0 s'. rewrite on_world_set_lastGeneratedCommand. discriminate. Qed.

(** [handleGenerationPrompt] never throws, whatever the menu does: its
    [try] spans the whole body and its [catch] only prints and forgets. *)
Lemma handleGenerationPrompt_with_never_throws (post : Session unit) (prompt : string) :
  never_throws (handleGenerationPrompt_with post prompt).
Proof.
  unfold handleGenerationPrompt_with.
  apply never_throws_bind; [apply never_throws_emit|]. intros _.
  apply never_throws_try. intros e.
  apply never_throws_bind; [apply never_throws_emit|]. intros _.
  apply never_throws_set_lastGeneratedCommand.
Qed.

Lemma postGenerationActions_never_throws (answers : Answers) :
  never_throws (postGenerationActions spawn clipboard_write answers).
Proof.
  destruct answers as [confirm| |followUpPrompt next| |]; cbn [postGenerationActions];
    (apply never_throws_bind; [intros [this d] e s'; discriminate|]); intros this;
    (destruct (truthy (lastGeneratedCommand this)); cbn [negb];
     [|intros [this0 d] e s'; discriminate]);
    (apply never_throws_bind; [apply never_throws_emit|]); intros _.
  - intros [this0 d] e s'. unfold on_machine. cbn [fst snd].
    destruct (executeLastCommand_returns confirm this0 (machine d)) as (m' & ->). discriminate.
  - apply never_throws_try. intros _. apply never_throws_emit.
  - apply never_throws_bind; [apply never_throws_emit|]. intros _.
    destruct (truthy (Some followUpPrompt)).
    + apply handleGenerationPrompt_with_never_throws.
    + intros [this0 d] e s'. discriminate.
  - apply never_throws_emit.
  - apply never_throws_bind; [apply never_throws_emit|]. intros _.
    intros [this0 d] e s'. discriminate.
Qed.

(** One run of [handleGenerationPrompt], given the client the
    orchestrator resolved: the result is reported and, on success,
    remembered, and then the menu runs. *)
Lemma handleGenerationPrompt_with_run
    (post : Session unit) (prompt : string) (this : InteractiveSession) (orch' : Orchestrator)
    (d : Desktop) (w0 : World) (l : nat) :
  never_throws post ->
  getInitializedLLMProvider None
    (orchestrator this,
     say [spinner_start ("Processing: " +:+ quote +:+ prompt +:+ quote +:+ "...")]
       (world (machine d)))
  = (Returned (Some l), (orch', w0)) ->
  handleGenerationPrompt_with post prompt (this, d)
  = match LLMProvider_generate l prompt None w0 with
    | (Returned response, w2) =>
        let c := classify truthy true response in
        let reported :=
          ({| orchestrator := orch'; lastGeneratedCommand := remembered c response |},
           with_world (say (spinner_stop :: generate_report c response) w2) d) in
        match c with
        | success => post reported
        | _ => (Ends (Returned tt), reported)
        end
    | (Thrown e, w2) =>
        (Ends (Returned tt),
         ({| orchestrator := orch'; lastGeneratedCommand := None |},
          with_world (say [spinner_fail ("Error generating command: " +:+ error_message e)] w2)
            d))
    end.
Proof.
  intros Hpost Hget. unfold handleGenerationPrompt_with.
  unfold Session_bind at 1. rewrite on_world_emit.
  unfold Session_try. unfold Session_bind at 1. unfold on_world at 1, on_orchestrator at 1.
  cbn [fst snd world machine with_world]. rewrite Hget. cbn [fst snd].
  unfold Session_bind at 1. unfold on_world at 1, call at 1.
  cbn [fst snd world machine with_world].
  destruct (LLMProvider_generate l prompt None w0) as [[response|e] w2].
  2: { unfold Session_bind. rewrite on_world_emit, on_world_set_lastGeneratedCommand.
       reflexivity. }
  unfold Session_bind at 1. rewrite on_world_emit.
  unfold classify, begins_with_failure_marker. cbv zeta.
  destruct (truthy (error response)) eqn:He.
  { unfold Session_bind. rewrite on_world_emit, on_world_set_lastGeneratedCommand.
    cbn. now rewrite !say_say. }
  destruct (truthy (content response)) eqn:Hc; cbn [andb negb].
  2: { unfold Session_bind. rewrite on_world_emit, on_world_set_lastGeneratedCommand.
       cbn. now rewrite !say_say. }
  destruct (startsWith (toLowerCase (default "" (content response))) "error:") eqn:Hm;
    cbn [andb negb].
  { unfold Session_bind. rewrite on_world_emit, on_world_set_lastGeneratedCommand.
    cbn. now rewrite !say_say. }
  unfold Session_bind at 1. rewrite on_world_emit.
  unfold Session_bind at 1. rewrite on_world_emit.
  unfold Session_bind at 1. rewrite on_world_set_lastGeneratedCommand.
  cbn [fst snd world machine with_world orchestrator remembered generate_report].
  rewrite !say_say. cbn [app].
  match goal with
  | |- match post ?s with _ => _ end = post ?s' =>
      change s with s'; destruct (post s') as [[[[]|e]|code] s2] eqn:Ep
  end; try reflexivity.
  exfalso. exact (Hpost _ _ _ Ep).
Qed.

(** C6, amended. Every result a client returns, on each of the two
    paths, is reported as one of three outcomes.  A result whose error is
    a non-empty string is reported as a failure; otherwise a result whose
    content is null or empty is reported as nothing returned; otherwise
    the content is the success.  On the generate path, content that
    begins with the failure marker is reported as nothing returned, as
    empty content is; the session remembers a command only on success,
    and only then goes on to the menu. *)
Theorem provider_results_are_classified
    (args : ExplainCommandArgs) (this this' : Orchestrator) (w w0 : World) (l : nat)
    (answers : Answers) (prompt : string) (session : InteractiveSession) (orch' : Orchestrator)
    (d : Desktop) (v0 : World) (k : nat) :
  getInitializedLLMProvider (provider args) (this, w) = (Returned (Some l), (this', w0)) ->
  getInitializedLLMProvider None
    (orchestrator session,
     say [spinner_start ("Processing: " +:+ quote +:+ prompt +:+ quote +:+ "...")]
       (world (machine d)))
  = (Returned (Some k), (orch', v0)) ->
  (forall (response : LLMResponse) (w2 : World),
      LLMProvider_explain l (commandToExplain args) None
        (say [spinner_start ("Explaining command: " +:+ quote +:+ commandToExplain args
                             +:+ quote +:+ "...")] w0)
      = (Returned response, w2) ->
      handleExplainCommand args (this, w)
      = (Returned tt,
         (this', say (explain_report (classify truthy false response) response) w2)))
  /\ (forall (response : LLMResponse) (v2 : World),
         LLMProvider_generate k prompt None v0 = (Returned response, v2) ->
         let c := classify truthy true response in
         let reported :=
           ({| orchestrator := orch'; lastGeneratedCommand := remembered c response |},
            with_world (say (spinner_stop :: generate_report c response) v2) d) in
         handleGenerationPrompt spawn clipboard_write answers prompt (session, d)
         = match c with
           | success => postGenerationActions spawn clipboard_write answers reported
           | _ => (Ends (Returned tt), reported)
           end)
  /\ (forall (generate : bool) (response : LLMResponse),
         (truthy (error response) = true -> classify truthy generate response = failure)
         /\ (truthy (error response) = false -> truthy (content response) = false ->
             classify truthy generate response = nothing_returned)
         /\ (truthy (error response) = false -> truthy (content response) = true ->
             classify truthy generate response
             = if generate && begins_with_failure_marker (content response)
               then nothing_returned else success)).
Proof.
  intros Hget Hgets. split; [|split].
  - intros response w2 He.
    rewrite (handleExplainCommand_run args this this' w w0 l Hget). now rewrite He.
  - intros response v2 Hg. unfold handleGenerationPrompt.
    rewrite (handleGenerationPrompt_with_run _ prompt session orch' d v0 k
               (postGenerationActions_never_throws answers) Hgets).
    now rewrite Hg.
  - intros generate response. unfold classify. repeat split.
    + now intros ->.
    + now intros -> ->.
    + intros -> ->. now destruct (generate && begins_with_failure_marker (content response)).
Qed.

Lemma shown_say (evs : list Event) (w : World) : shown (say evs w) = shown w.
Proof. reflexivity. Qed.

(** A client that has not initialised and lacks a required field rejects
    both operations with its configuration error. *)
Lemma LLMProvider_calls_unconfigured
    (w : World) (l : nat) (p : LLMProvider) (text : string) (model_ : option string) :
  heap w !! l = Some p ->
  initialized p = false ->
  missing_required p (shown w) = true ->
  (exists w', LLMProvider_generate l text model_ w = (Thrown (Error (configuration_error p)), w'))
  /\ (exists w', LLMProvider_explain l text model_ w = (Thrown (Error (configuration_error p)), w')).
Proof.
  intros Hl Hinit Hmiss. unfold LLMProvider_generate, LLMProvider_explain. rewrite Hl.
  destruct p as [this|this|this]; cbn in Hinit; unfold missing_required in Hmiss;
    [| |discriminate Hmiss]; unfold invoke.
  - destruct (OpenAIProvider_initializeClient_run this w Hinit) as (w' & _ & _ & _ & E).
    cbv zeta in E. rewrite (bind_block openai (shown w) apiKey eq_refl) in E.
    apply negb_true_iff in Hmiss. rewrite Hmiss in E.
    unfold OpenAIProvider_generate, OpenAIProvider_explain.
    rewrite !(bind_thrown _ _ _ _ _ E). split; eexists; reflexivity.
  - destruct (AzureOpenAIProvider_initializeClient_run this w Hinit) as (w' & _ & _ & _ & E).
    cbv zeta in E.
    rewrite (bind_block azure (shown w) apiKey eq_refl) in E.
    rewrite (bind_block azure (shown w) baseUrl eq_refl) in E.
    rewrite (bind_block azure (shown w) model eq_refl) in E.
    rewrite <- !negb_andb in Hmiss. apply negb_true_iff in Hmiss. rewrite Hmiss in E.
    unfold AzureOpenAIProvider_generate, AzureOpenAIProvider_explain.
    rewrite !(bind_thrown _ _ _ _ _ E). split; eexists; reflexivity.
Qed.

(** C1, amended. A cloud or enterprise-cloud client that has not
    initialised and whose configuration lacks a required field returns no
    response from [generate] or [explain]: the call is rejected with the
    configuration error, whose message says to run [configure].  The
    callers catch it: [handleExplainCommand] and [handleGenerationPrompt]
    return normally and report the message as a failure. *)
Theorem missing_configuration_is_thrown_and_reported
    (w : World) (l : nat) (p : LLMProvider) (text : string) (model_ : option string)
    (this : Orchestrator) (session : InteractiveSession) :
  heap w !! l = Some p ->
  initialized p = false ->
  missing_required p (shown w) = true ->
  llmProvider this = Some l ->
  llmProvider (orchestrator session) = Some l ->
  (exists w', LLMProvider_generate l text model_ w = (Thrown (Error (configuration_error p)), w'))
  /\ (exists w', LLMProvider_explain l text model_ w = (Thrown (Error (configuration_error p)), w'))
  /\ (exists w',
         handleExplainCommand {| commandToExplain := text; provider := None |} (this, w)
         = (Returned tt, (this, w'))
         /\ list.last (console w')
            = Some (spinner_fail ("Error explaining command: " +:+ configuration_error p)))
  /\ (forall (answers : Answers) (d : Desktop),
         world (machine d) = w ->
         exists w',
           handleGenerationPrompt spawn clipboard_write answers text (session, d)
           = (Ends (Returned tt),
              ({| orchestrator := orchestrator session; lastGeneratedCommand := None |},
               with_world w' d))
           /\ list.last (console w')
              = Some (spinner_fail ("Error generating command: " +:+ configuration_error p))).
Proof.
  intros Hl Hinit Hmiss Hthis Hsession.
  destruct (LLMProvider_calls_unconfigured w l p text model_ Hl Hinit Hmiss) as [Hg He].
  split; [exact Hg|]. split; [exact He|]. split.
  - rewrite (handleExplainCommand_run {| commandToExplain := text; provider := None |}
               this this w w l (getInitializedLLMProvider_cached this w l Hthis)).
    cbn [commandToExplain].
    match goal with |- context [LLMProvider_explain l text None ?w1] =>
      destruct (LLMProvider_calls_unconfigured w1 l p text None Hl Hinit Hmiss) as [_ [w' ->]]
    end.
    eexists. split; [reflexivity|]. cbn. apply last_snoc.
  - intros answers d Hd. unfold handleGenerationPrompt.
    rewrite (handleGenerationPrompt_with_run _ text session (orchestrator session) d _ l
               (postGenerationActions_never_throws answers)
               (getInitializedLLMProvider_cached _ _ l Hsession)).
    rewrite Hd.
    match goal with |- context [LLMProvider_generate l text None ?w1] =>
      destruct (LLMProvider_calls_unconfigured w1 l p text None Hl Hinit Hmiss) as [[w' ->] _]
    end.
    eexists. split; [reflexivity|]. cbn. apply last_snoc.
Qed.
End Facade.

(** ** Where the code departs from the specification *)

(** C1, as stated, fails: in a fresh process over an empty home directory
    the cloud client has no API key, and [generate] does not return a
    response with an error: it rejects. *)
Lemma generate_without_apiKey_returns_no_response :
  ~ exists (response : LLMResponse) (s : OpenAIProvider * World),
      @OpenAIProvider_generate (reference_runtime failing_endpoint) "list files" None
        (new_OpenAIProvider, process_start NoDir)
      = (Returned response, s)
      /\ error response <> None /\ content response = None.
Proof.
  intros (response & s & E & _). vm_compute in E. discriminate E.
Qed.




(** Once an update with a [baseUrl] that is not a URL has gone into the
    default configuration object, the recovery of [loadConfig] persists
    nothing: the default object no longer passes the schema. *)
Lemma recovery_persists_nothing_over_corrupted_defaults :
  let R := reference_runtime failing_endpoint in
  let w := snd (updateProviderConfig local (written (only_baseUrl "not a url"))
                  (process_start NoDir)) in
  baseUrl (block local (defaultConfig w)) = Some "not a url"
  /\ disk (snd (loadConfig (with_disk NoFile w))) = NoFile.
Proof. vm_compute. auto. Qed.

(** C6, as stated, fails: a result whose error is set to the empty string
    is not reported as a failure but as nothing returned. *)
Lemma empty_error_is_not_reported_as_failure :
  let R := reference_runtime failing_endpoint in
  let L := example_local_constants in
  let w := process_with (an_OpenAIProvider ready_OpenAIProvider) in
  let response := {| content := None; error := Some ""; usage := None |} in
  fst (LLMProvider_explain 0 "ls -la" None w) = Returned response
  /\ classify not_null false response = failure
  /\ console (snd (snd (handleExplainCommand {| commandToExplain := "ls -la"; provider := None |}
                          ({| llmProvider := Some 0%nat |}, w))))
     = [spinner_start ("Explaining command: " +:+ quote +:+ "ls -la" +:+ quote +:+ "...");
        spinner_warn "No explanation received from LLM."].
Proof. vm_compute. auto. Qed.

(** ** The theorems at concrete states

    Each theorem above that has hypotheses is applied here to a concrete
    process on the reference platform, with its hypotheses checked by
    computation. *)

Lemma loadConfig_falls_back_to_default_witness :
  let R := reference_runtime failing_endpoint in
  let w := process_start (File (JSON_stringify unknown_provider_document)) in
  defaultConfig w = defaultConfig_initial
  /\ Unusable (disk w)
  /\ exists w',
       loadConfig w = (Returned TheDefault, w')
       /\ deref TheDefault w' = defaultConfig_initial
       /\ disk w' = File (JSON_stringify (AppConfig_toJs defaultConfig_initial))
       /\ stored (disk w') = Some defaultConfig_initial.
Proof.
  intros R w.
  assert (Hu : Unusable (disk w)).
  { apply (schema_invalid _ unknown_provider_document); vm_compute; reflexivity. }
  split; [reflexivity|]. split; [exact Hu|].
  exact (loadConfig_falls_back_to_default w eq_refl Hu).
Defined.



Lemma generate_and_explain_normalise_the_answer_witness :
  let R := reference_runtime listing_endpoint in
  let L := example_local_constants in
  let p := an_OpenAIProvider ready_OpenAIProvider in
  let w := process_with p in
  heap w !! 0%nat = Some p
  /\ initialized p = true
  /\ LLMProvider_generate 0 "list files" None w
     = (Returned {| content := Some "ls -la"; error := None;
                    usage := Some {| promptTokens := Some 12%N; completionTokens := Some 3%N;
                                     totalTokens := Some 15%N |} |}, w).
Proof.
  intros R L p w. split; [reflexivity|]. split; [reflexivity|].
  destruct (generate_and_explain_normalise_the_answer w 0 p "list files" None eq_refl eq_refl)
    as (client & _ & Hg & _).
  exact Hg.
Defined.

Lemma missing_configuration_is_thrown_and_reported_witness :
  let R := reference_runtime listing_endpoint in
  let L := example_local_constants in
  let p := an_OpenAIProvider new_OpenAIProvider in
  let w := process_with p in
  let this := {| llmProvider := Some 0%nat |} in
  let session := {| orchestrator := this; lastGeneratedCommand := None |} in
  heap w !! 0%nat = Some p
  /\ initialized p = false
  /\ missing_required p (shown w) = true
  /\ llmProvider this = Some 0%nat
  /\ llmProvider (orchestrator session) = Some 0%nat
  /\ (exists w', LLMProvider_generate 0 "list files" None w
                 = (Thrown (Error (configuration_error p)), w'))
  /\ (exists w', LLMProvider_explain 0 "list files" None w
                 = (Thrown (Error (configuration_error p)), w'))
  /\ (exists w',
         handleExplainCommand {| commandToExplain := "list files"; provider := None |} (this, w)
         = (Returned tt, (this, w'))
         /\ list.last (console w')
            = Some (spinner_fail ("Error explaining command: " +:+ configuration_error p)))
  /\ (forall (answers : Answers) (d : Desktop),
         world (machine d) = w ->
         exists w',
           handleGenerationPrompt (echo_spawn "") clipboard_accepts answers "list files"
             (session, d)
           = (Ends (Returned tt),
              ({| orchestrator := orchestrator session; lastGeneratedCommand := None |},
               with_world w' d))
           /\ list.last (console w')
              = Some (spinner_fail ("Error generating command: " +:+ configuration_error p))).
Proof.
  intros R L p w this session.
  assert (Hmiss : missing_required p (shown w) = true) by (vm_compute; reflexivity).
  repeat (split; [first [reflexivity | exact Hmiss]|]).
  exact (missing_configuration_is_thrown_and_reported (echo_spawn "") clipboard_accepts
           w 0 p "list files" None this session eq_refl eq_refl Hmiss eq_refl eq_refl).
Defined.

Lemma provider_results_are_classified_witness :
  let R := reference_runtime listing_endpoint in
  let L := example_local_constants in
  let w := process_with (an_OpenAIProvider ready_OpenAIProvider) in
  let this := {| llmProvider := Some 0%nat |} in
  let session := {| orchestrator := this; lastGeneratedCommand := None |} in
  let args := {| commandToExplain := "ls -la"; provider := None |} in
  let response :=
    {| content := Some "ls -la"; error := None;
       usage := Some {| promptTokens := Some 12%N; completionTokens := Some 3%N;
                        totalTokens := Some 15%N |} |} in
  let explaining :=
    say [spinner_start ("Explaining command: " +:+ quote +:+ "ls -la" +:+ quote +:+ "...")] w in
  let processing :=
    say [spinner_start ("Processing: " +:+ quote +:+ "list files" +:+ quote +:+ "...")] w in
  let reported :=
    ({| orchestrator := this; lastGeneratedCommand := Some "ls -la" |},
     with_world (say (spinner_stop :: generate_report success response) processing)
       (desktop_of w)) in
  getInitializedLLMProvider (provider args) (this, w) = (Returned (Some 0%nat), (this, w))
  /\ getInitializedLLMProvider None (orchestrator session, processing)
     = (Returned (Some 0%nat), (this, processing))
  /\ LLMProvider_explain 0 (commandToExplain args) None explaining = (Returned response, explaining)
  /\ LLMProvider_generate 0 "list files" None processing = (Returned response, processing)
  /\ handleExplainCommand args (this, w)
     = (Returned tt, (this, say (explain_report success response) explaining))
  /\ handleGenerationPrompt (echo_spawn "") clipboard_accepts choose_copy "list files"
       (session, desktop_of w)
     = postGenerationActions (echo_spawn "") clipboard_accepts choose_copy reported
  /\ postGenerationActions (echo_spawn "") clipboard_accepts choose_copy reported
     = (Ends (Returned tt),
        (fst reported,
         {| machine := {| world := say [inquirer_prompt "What next?";
                                        console_log "📋 Command copied to clipboard!"]
                                     (world (machine (snd reported)));
                          spawned := [] |};
            clipboard := Some "ls -la" |})).
Proof.
  intros R L w this session args response explaining processing reported.
  assert (H1 : getInitializedLLMProvider (provider args) (this, w)
               = (Returned (Some 0%nat), (this, w))) by reflexivity.
  assert (H2 : LLMProvider_explain 0 (commandToExplain args) None explaining
               = (Returned response, explaining)) by (vm_compute; reflexivity).
  assert (H3 : getInitializedLLMProvider None (orchestrator session, processing)
               = (Returned (Some 0%nat), (this, processing))) by reflexivity.
  assert (H4 : LLMProvider_generate 0 "list files" None processing
               = (Returned response, processing)) by (vm_compute; reflexivity).
  split; [exact H1|]. split; [exact H3|]. split; [exact H2|]. split; [exact H4|].
  destruct (provider_results_are_classified (echo_spawn "") clipboard_accepts
              args this this w w 0 choose_copy "list files" session this (desktop_of w)
              processing 0 H1 H3)
    as (He & Hg & _).
  split; [exact (He response explaining H2)|].
  split; [exact (Hg response processing H4)|].
  vm_compute. reflexivity.
Defined.

Lemma provider_is_cached_unless_named_witness :
  let R := reference_runtime listing_endpoint in
  let L := example_local_constants in
  let w := process_start NoDir in
  let this := {| llmProvider := None |} in
  exists this1 w1 this2 w2,
    getInitializedLLMProvider (Some local) (this, w) = (Returned (Some 0%nat), (this1, w1))
    /\ getInitializedLLMProvider (Some local) (this1, w1) = (Returned (Some 1%nat), (this2, w2))
    /\ llmProvider this2 = Some 1%nat
    /\ heap w2 = [a_LocalLLMProvider new_LocalLLMProvider; a_LocalLLMProvider new_LocalLLMProvider]
    /\ getInitializedLLMProvider None (this2, w2) = (Returned (Some 1%nat), (this2, w2)).
Proof.
  intros R L w this.
  destruct (provider_is_cached_unless_named this w) as (_ & _ & Htwice).
  destruct (Htwice local) as (this1 & w1 & this2 & w2 & E1 & E2 & Hl & Hh).
  exists this1, w1, this2, w2. repeat (split; [assumption|]).
  destruct (provider_is_cached_unless_named this2 w2) as (Hcached & _).
  exact (Hcached 1%nat Hl).
Defined.


Lemma empty_override_is_no_override_witness :
  let R := reference_runtime listing_endpoint in
  let L := example_local_constants in
  let p := an_OpenAIProvider ready_OpenAIProvider in
  let w := process_with p in
  heap w !! 0%nat = Some p
  /\ initialized p = true
  /\ LLMProvider_getModel p (Some "") = "gpt-4"
  /\ LLMProvider_getModel (an_OpenAIProvider new_OpenAIProvider) (Some "") = "gpt-3.5-turbo"
  /\ LLMProvider_getModel (an_AzureOpenAIProvider new_AzureOpenAIProvider) (Some "") = "gpt-4o"
  /\ exists client generating explaining,
       req_model generating = "gpt-4"
       /\ req_model explaining = "gpt-4"
       /\ LLMProvider_generate 0 "list files" (Some "") w
          = (Returned (normalised (chat_completions_create client generating)), w)
       /\ LLMProvider_explain 0 "list files" (Some "") w
          = (Returned (normalised (chat_completions_create client explaining)), w).
Proof.
  intros R L p w. split; [reflexivity|]. split; [reflexivity|].
  split; [exact (proj1 (empty_override_is_no_override p))|].
  split; [exact (proj1 (empty_override_is_no_override (an_OpenAIProvider new_OpenAIProvider)))|].
  split; [exact (proj1 (empty_override_is_no_override
                          (an_AzureOpenAIProvider new_AzureOpenAIProvider)))|].
  destruct (empty_override_is_no_override p) as (_ & _ & Hrequest & _).
  exact (Hrequest w 0%nat "list files" eq_refl eq_refl).
Defined.

(** ** More on the configuration service *)

Section ConfigServiceMore.
Context `{Runtime}.

(** X1. [saveConfig] of a configuration with a [baseUrl] that is not a URL
    returns normally, prints the failure and the validation details, and
    changes nothing else: the file and even a missing directory are left
    as they were. *)
Theorem saveConfig_invalid_writes_nothing (config : AppConfig) (w : World) :
  urls_ok config = false ->
  saveConfig config w = (Returned tt, say (save_rejected config) w).
Proof.
  intros Hu. unfold saveConfig, AppConfigSchema_parse.
  rewrite AppConfigSchema_toJs, Hu. run. unfold say, with_console. cbn.
  now rewrite <- !app_assoc.
Qed.

(** X2. [saveConfig] of a configuration that passes the schema replaces
    the whole file by the configuration's declared keys, whatever was on
    disk before, creating the directory when it is missing. *)
Theorem saveConfig_valid_overwrites (config : AppConfig) (w : World) :
  urls_ok config = true ->
  saveConfig config w
  = (Returned tt,
     say save_succeeded
       (with_disk (File (JSON_stringify (AppConfig_toJs (declared_config config)))) w)).
Proof.
  intros Hu. unfold saveConfig, AppConfigSchema_parse, ensureConfigDirExists.
  rewrite AppConfigSchema_toJs, Hu. run.
  destruct (disk w) eqn:Hd; cbn; rewrite ?Hd; cbn;
    unfold say, with_console, with_disk; cbn; now rewrite <- !app_assoc.
Qed.

(** X3. [loadConfig] of a file that parses and validates only reads: it
    returns a new object, the file's document merged over the defaults,
    and neither the file nor the defaults change. *)
Theorem loadConfig_usable_only_reads (w : World) (loadedConfig : AppConfig) :
  stored (disk w) = Some loadedConfig ->
  loadConfig w
  = (Returned (Fresh (merge_over (defaultConfig w) loadedConfig)),
     say [spinner_start "Loading configuration...";
          spinner_succeed "Configuration loaded successfully."] w).
Proof.
  intros Hs. unfold loadConfig, ensureConfigDirExists, JSON_parse_or_throw. run.
  destruct (disk w) as [| |s] eqn:Hd; cbn in Hs; try discriminate.
  cbn -[saveConfig]. rewrite Hd. cbn -[saveConfig].
  destruct (JSON_parse s) as [j|]; cbn in Hs; try discriminate.
  cbn -[saveConfig]. rewrite Hs. run. rewrite ?Hd.
  unfold say, with_console. cbn. rewrite ?Hd. now rewrite <- !app_assoc.
Qed.

Lemma reload_block (w : World) (name : ProviderId) :
  defaultConfig w = defaultConfig_initial ->
  spread (block name defaultConfig_initial) (declared (block name (shown w)))
  = block name (shown w).
Proof.
  intros Hd. pose proof (apiVersion_shown w name Hd) as Hav.
  unfold shown in *. rewrite Hd in *.
  destruct (stored (disk w)) as [l|] eqn:Hs; [|apply spread_declared_self].
  rewrite block_merge_over in *.
  destruct (block name defaultConfig_initial) as [k1 u1 m1 v1] eqn:Eb.
  destruct (block name l) as [k2 u2 m2 v2].
  cbn [spread apiVersion] in Hav.
  assert (v1 = None) as -> by (destruct name; cbv in Eb; now inversion Eb).
  destruct v2; [discriminate|]. now destruct k1, u1, m1, k2, u2, m2.
Qed.

(** X4. With the defaults of a fresh process, [loadConfig] is stable:
    after any call the file parses and validates, and a second call
    returns the same configuration and leaves the file as the first call
    left it. *)
Theorem loadConfig_twice (w : World) :
  defaultConfig w = defaultConfig_initial ->
  exists r1 w1 r2 w2,
    loadConfig w = (Returned r1, w1)
    /\ loadConfig w1 = (Returned r2, w2)
    /\ is_Some (stored (disk w1))
    /\ deref r2 w2 = deref r1 w1
    /\ disk w2 = disk w1.
Proof.
  intros Hd.
  destruct (loadConfig_shown w) as (w1 & E1 & Hs1 & Hc1 & _ & Hk1).
  destruct (loadConfig_shown w1) as (w2 & E2 & Hs2 & _ & _ & Hk2).
  eexists _, w1, _, w2. split; [exact E1|]. split; [exact E2|].
  rewrite Hs1, Hs2, Hk2, Hc1. unfold shown, disk_after_load. rewrite Hk1, Hc1, Hd.
  unfold disk_after_load.
  destruct (stored (disk w)) as [l|] eqn:Hs.
  - rewrite Hs. repeat split; eauto.
  - rewrite stored_after_save_valid by apply urls_ok_initial.
    repeat split; eauto.
Qed.

Lemma urls_ok_with_defaultProvider (name : ProviderId) (c : AppConfig) :
  urls_ok (with_defaultProvider name c) = urls_ok c.
Proof. reflexivity. Qed.

(** X5. With the defaults of a fresh process, after
    [setDefaultProvider name] a [loadConfig] shows [name] as the default
    provider and every provider block as it was before. *)
Theorem setDefaultProvider_then_loadConfig (name : ProviderId) (w : World) :
  defaultConfig w = defaultConfig_initial ->
  exists w1 after w2,
    setDefaultProvider name w = (Returned tt, w1)
    /\ loadConfig w1 = (Returned after, w2)
    /\ defaultProvider (deref after w2) = name
    /\ forall id, block id (deref after w2) = block id (shown w).
Proof.
  intros Hd.
  destruct (setDefaultProvider_run name w) as (w1 & E1 & _ & Hc1 & Hk1).
  destruct (loadConfig_shown w1) as (w2 & E2 & Hs2 & _).
  eexists w1, _, w2. split; [exact E1|]. split; [exact E2|].
  assert (Hshown1 : shown w1 = merge_over (defaultConfig w1)
                                 (declared_config (with_defaultProvider name (shown w)))).
  { unfold shown at 1. rewrite Hk1.
    now rewrite stored_after_save_valid
      by (rewrite urls_ok_with_defaultProvider; now apply urls_ok_shown). }
  rewrite Hs2, Hshown1.
  split; [reflexivity|]. intros id.
  rewrite block_merge_over, block_declared_config.
  change (block id (with_defaultProvider name (shown w))) with (block id (shown w)).
  rewrite Hc1, Hd.
  replace (block id match stored (disk w) with
                    | Some _ => defaultConfig_initial
                    | None => with_defaultProvider name defaultConfig_initial
                    end) with (block id defaultConfig_initial)
    by (now destruct (stored (disk w))).
  now apply reload_block.
Qed.

(** X6. [setDefaultProvider] changes the defaults of the process exactly
    when [loadConfig] had to recover.  Over a usable file the defaults
    stay as they are.  Over an unusable file the default provider of the
    process becomes [name], so that a later recovery, from whatever
    unusable file, returns [name] as the default provider and not the
    initial one. *)
Theorem setDefaultProvider_changes_the_defaults (name : ProviderId) (w : World) :
  defaultConfig w = defaultConfig_initial ->
  exists w1,
    setDefaultProvider name w = (Returned tt, w1)
    /\ (is_Some (stored (disk w)) -> defaultConfig w1 = defaultConfig_initial)
    /\ (Unusable (disk w) ->
        defaultConfig w1 = with_defaultProvider name defaultConfig_initial
        /\ forall d, Unusable d ->
             exists w2, loadConfig (with_disk d w1) = (Returned TheDefault, w2)
                        /\ defaultProvider (deref TheDefault w2) = name).
Proof.
  intros Hd.
  destruct (setDefaultProvider_run name w) as (w1 & E1 & _ & Hc1 & _).
  exists w1. split; [exact E1|]. rewrite Hd in Hc1. split.
  - intros [l Hl]. now rewrite Hl in Hc1.
  - intros Hu. apply Unusable_stored in Hu. rewrite Hu in Hc1. split; [exact Hc1|].
    intros d Hud. apply Unusable_stored in Hud.
    destruct (loadConfig_run (with_disk d w1)) as (w2 & E2 & Hc2 & _).
    unfold loaded in E2. cbn [disk with_disk] in E2. rewrite Hud in E2.
    exists w2. split; [exact E2|]. cbn [deref]. rewrite Hc2. cbn [defaultConfig with_disk].
    now rewrite Hc1.
Qed.

(** X7. An [apiVersion] named in [updateProviderConfig], with the defaults
    of a fresh process and a [baseUrl] that is a URL when given: when the
    file was usable, the [loadConfig] that follows shows no [apiVersion];
    when it was not, [loadConfig] had returned the default object, the
    assignment reached the defaults of the process, and the [loadConfig]
    that follows shows the [apiVersion] of the update, although the file
    does not hold it. *)
Theorem updateProviderConfig_apiVersion (name : ProviderId)
    (updateData : Partial_LLMProviderConfig) (w : World) :
  defaultConfig w = defaultConfig_initial ->
  url_ok_written updateData = true ->
  exists w1 after w2,
    updateProviderConfig name updateData w = (Returned tt, w1)
    /\ loadConfig w1 = (Returned after, w2)
    /\ apiVersion (block name (deref after w2))
       = match stored (disk w) with
         | Some _ => None
         | None => Property_text (apiVersion_of updateData)
         end
    /\ (forall s j, disk w2 = File s -> JSON_parse s = Some j -> has_key "apiVersion" j = false).
Proof.
  intros Hd Hu.
  destruct (updateProviderConfig_run name updateData w) as (w1 & E1 & _ & Hc1 & Hk1).
  destruct (loadConfig_shown w1) as (w2 & E2 & Hs2 & _ & _ & Hk2).
  assert (Hok : urls_ok (updated (shown w) name updateData) = true)
    by (apply urls_ok_updated; [now apply urls_ok_shown|assumption]).
  eexists w1, _, w2. split; [exact E1|]. split; [exact E2|]. split.
  - rewrite Hs2. unfold shown at 1. rewrite Hk1, stored_after_save_valid by assumption.
    rewrite block_merge_over, block_declared_config, Hc1, Hd.
    cbn [spread declared apiVersion spread_field].
    destruct (stored (disk w)); [now destruct name|].
    rewrite block_updated_same. cbn [spread_written apiVersion].
    destruct name; cbn; now destruct (apiVersion_of updateData).
  - unfold disk_after_load in Hk2. rewrite Hk1 in Hk2.
    rewrite stored_after_save_valid in Hk2 by assumption.
    rewrite disk_after_save_valid in Hk2 by assumption.
    intros s j Hf Hj. rewrite Hk2 in Hf. injection Hf as <-.
    rewrite JSON_parse_stringify in Hj. injection Hj as <-.
    apply has_key_apiVersion_declared.
Qed.
End ConfigServiceMore.

(** ** More on the clients *)

Section ClientsMore.
Context `{Runtime} `{LocalLLMConstants}.

Lemma truthy_nonempty (o : option string) :
  truthy o = true -> exists s, o = Some s /\ s <> "".
Proof.
  destruct o as [s|]; [|discriminate]. cbn. intros Hs. exists s. split; [reflexivity|].
  apply negb_true_iff in Hs. now apply String.eqb_neq.
Qed.

Lemma truthy_bind_Some (o : option LLMProviderConfig) (f : LLMProviderConfig -> option string) :
  truthy (o ≫= f) = true -> not_null o = true.
Proof. now destruct o. Qed.

(** The first call on a cloud or enterprise-cloud client that has not
    initialised: it loads the configuration, and then either is rejected
    or sends the request as the client the configuration gives. *)
Lemma LLMProvider_calls_uninitialized
    (w : World) (l : nat) (p : LLMProvider) (text : string) (model_ : option string) :
  heap w !! l = Some p ->
  initialized p = false ->
  has_required p (shown w) || missing_required p (shown w) = true ->
  exists w0,
    heap w0 = heap w /\ defaultConfig w0 = defaultConfig w
    /\ disk w0 = disk_after_load (defaultConfig w) (disk w)
    /\ let r := loaded (defaultConfig w) (disk w) in
       let p1 := initialized_from p (shown w) r in
       if has_required p (shown w)
       then
         initialized p1 = true
         /\ exists client,
              sdk_client p1 = Some client
              /\ LLMProvider_generate l text model_ w
                 = (Returned (normalised (chat_completions_create client
                                            (generate_request p1 text model_))),
                    with_heap (<[l := p1]> (heap w)) w0)
              /\ LLMProvider_explain l text model_ w
                 = (Returned (normalised (chat_completions_create client
                                            (explain_request p1 text model_))),
                    with_heap (<[l := p1]> (heap w)) w0)
       else
         LLMProvider_generate l text model_ w
         = (Thrown (Error (configuration_error p)),
            with_heap (<[l := rejected_with p r]> (heap w)) w0)
         /\ LLMProvider_explain l text model_ w
            = (Thrown (Error (configuration_error p)),
               with_heap (<[l := rejected_with p r]> (heap w)) w0).
Proof.
  intros Hl Hinit Hvariant. unfold LLMProvider_generate, LLMProvider_explain. rewrite Hl.
  destruct p as [this|this|this]; cbn in Hinit; [| |discriminate Hvariant]; unfold invoke.
  - destruct (OpenAIProvider_initializeClient_run this w Hinit) as (w0 & Hh & Hc & Hk & E).
    exists w0. repeat (split; [assumption|]). cbv zeta in *.
    unfold has_required. rewrite <- (bind_block openai (shown w) apiKey eq_refl).
    change (provider_get openai (providers (shown w))) with (of_openai (providers (shown w))).
    destruct (truthy (of_openai (providers (shown w)) ≫= apiKey)) eqn:Hkey.
    + pose proof (truthy_bind_Some _ _ Hkey) as Hsome. split; [cbn; now rewrite Hsome|].
      eexists. split; [reflexivity|].
      unfold OpenAIProvider_generate, OpenAIProvider_explain.
      rewrite !(bind_returned _ _ _ _ _ E). run_method.
      match type of E with _ = (_, (?t, _)) => set (this1 := t) in * end.
      split;
        match goal with
        | |- context [chat_completions_create ?c ?r] =>
            change r with (generate_request (an_OpenAIProvider this1) text model_)
            || change r with (explain_request (an_OpenAIProvider this1) text model_);
            destruct (chat_completions_create c _)
        end; cbn; rewrite ?response_of_normalised, Hh; reflexivity.
    + unfold OpenAIProvider_generate, OpenAIProvider_explain.
      rewrite !(bind_thrown _ _ _ _ _ E). cbv beta iota. rewrite Hh. split; reflexivity.
  - destruct (AzureOpenAIProvider_initializeClient_run this w Hinit) as (w0 & Hh & Hc & Hk & E).
    exists w0. repeat (split; [assumption|]). cbv zeta in *.
    unfold has_required.
    rewrite <- (bind_block azure (shown w) apiKey eq_refl).
    rewrite <- (bind_block azure (shown w) baseUrl eq_refl).
    rewrite <- (bind_block azure (shown w) model eq_refl).
    change (provider_get azure (providers (shown w))) with (of_azure (providers (shown w))).
    destruct (truthy (of_azure (providers (shown w)) ≫= apiKey)
              && truthy (of_azure (providers (shown w)) ≫= baseUrl)
              && truthy (of_azure (providers (shown w)) ≫= model)) eqn:Hreq.
    + assert (Hsome : not_null (of_azure (providers (shown w))) = true).
      { apply andb_prop in Hreq as [Hreq _]. apply andb_prop in Hreq as [Hkey _].
        exact (truthy_bind_Some _ _ Hkey). }
      split; [cbn; now rewrite Hsome|].
      eexists. split; [reflexivity|].
      unfold AzureOpenAIProvider_generate, AzureOpenAIProvider_explain.
      rewrite !(bind_returned _ _ _ _ _ E). run_method.
      match type of E with _ = (_, (?t, _)) => set (this1 := t) in * end.
      split;
        match goal with
        | |- context [chat_completions_create ?c ?r] =>
            change r with (generate_request (an_AzureOpenAIProvider this1) text model_)
            || change r with (explain_request (an_AzureOpenAIProvider this1) text model_);
            destruct (chat_completions_create c _)
        end; cbn; rewrite ?response_of_normalised, Hh; reflexivity.
    + unfold AzureOpenAIProvider_generate, AzureOpenAIProvider_explain.
      rewrite !(bind_thrown _ _ _ _ _ E). cbv beta iota. rewrite Hh. split; reflexivity.
Qed.

(** X8. Initialisation is lazy and happens once.  The first call on a
    cloud or enterprise-cloud client whose required fields are configured
    loads the configuration, builds the SDK client from the provider's
    block, sends the request and returns the normalised answer; every
    later call finds the client initialised, loads nothing, changes
    nothing and returns a response. *)
Theorem first_call_initializes_once
    (w : World) (l : nat) (p : LLMProvider) (text : string) (model_ : option string) :
  heap w !! l = Some p ->
  initialized p = false ->
  has_required p (shown w) = true ->
  exists client w1,
    let p1 := initialized_from p (shown w) (loaded (defaultConfig w) (disk w)) in
    let answer :=
      normalised (chat_completions_create client (generate_request p1 text model_)) in
    initialized p1 = true
    /\ sdk_client p1 = Some client
    /\ LLMProvider_generate l text model_ w = (Returned answer, w1)
    /\ heap w1 = <[l := p1]> (heap w)
    /\ disk w1 = disk_after_load (defaultConfig w) (disk w)
    /\ forall text' model',
         (exists response, LLMProvider_generate l text' model' w1 = (Returned response, w1))
         /\ (exists response, LLMProvider_explain l text' model' w1 = (Returned response, w1)).
Proof.
  intros Hl Hinit Hreq.
  destruct (LLMProvider_calls_uninitialized w l p text model_ Hl Hinit) as (w0 & Hh & Hc & Hk & Hcall);
    [now rewrite Hreq|].
  cbv zeta in Hcall. rewrite Hreq in Hcall.
  destruct Hcall as (Hinit1 & client & Hclient & Eg & _).
  exists client, (with_heap (<[l := initialized_from p (shown w) (loaded (defaultConfig w) (disk w))]>
                              (heap w)) w0).
  cbv zeta. split; [exact Hinit1|]. split; [exact Hclient|]. split; [exact Eg|].
  split; [reflexivity|]. split; [exact Hk|].
  intros text' model'.
  match goal with |- context [LLMProvider_generate _ _ _ ?w1] =>
    destruct (LLMProvider_calls_initialized w1 l
                (initialized_from p (shown w) (loaded (defaultConfig w) (disk w)))
                text' model') as (client' & _ & Eg' & Ee')
  end.
  - cbn [heap with_heap]. apply list_lookup_insert_eq. now apply lookup_lt_Some in Hl.
  - exact Hinit1.
  - split; eexists; eassumption.
Qed.

(** X9. A rejected call leaves the client uninitialised, so the next call
    loads the configuration again: nothing is constructed, every other
    client is untouched, and the client at [l] keeps its fields but for
    the configuration reference. *)
Theorem rejected_call_leaves_client_uninitialized
    (w : World) (l : nat) (p : LLMProvider) (text : string) (model_ : option string) :
  heap w !! l = Some p ->
  initialized p = false ->
  missing_required p (shown w) = true ->
  exists w1,
    let p1 := rejected_with p (loaded (defaultConfig w) (disk w)) in
    LLMProvider_generate l text model_ w = (Thrown (Error (configuration_error p)), w1)
    /\ heap w1 = <[l := p1]> (heap w)
    /\ initialized p1 = false
    /\ sdk_client p1 = sdk_client p
    /\ defaultConfig w1 = defaultConfig w
    /\ disk w1 = disk_after_load (defaultConfig w) (disk w).
Proof.
  intros Hl Hinit Hmiss.
  destruct (LLMProvider_calls_uninitialized w l p text model_ Hl Hinit) as (w0 & Hh & Hc & Hk & Hcall);
    [rewrite Hmiss; apply orb_true_r|].
  cbv zeta in Hcall.
  assert (Hreq : has_required p (shown w) = false).
  { destruct p; cbn in Hmiss |- *; [| |discriminate].
    - now apply negb_true_iff in Hmiss.
    - rewrite <- !negb_andb in Hmiss. now apply negb_true_iff in Hmiss. }
  rewrite Hreq in Hcall. destruct Hcall as [Eg _].
  eexists. cbv zeta. split; [exact Eg|]. cbn [heap defaultConfig disk with_heap].
  repeat split; try assumption; now destruct p.
Qed.

(** X10. The fallback name of the enterprise-cloud client is never used
    by a client that the code initialised: a successful initialisation
    leaves a non-empty API key, endpoint and deployment name, and the model
    of every request is then the override when it is not empty and the
    deployment name otherwise. *)
Theorem azure_fallback_is_unreachable
    (this this' : AzureOpenAIProvider) (w w' : World) :
  not_null (az_client this) && not_null (az_activeConfig this) = false ->
  AzureOpenAIProvider_initializeClient (this, w) = (Returned tt, (this', w')) ->
  exists key endpoint name version,
    key <> "" /\ endpoint <> "" /\ name <> ""
    /\ az_client this' = Some (new_AzureOpenAI (Some key) (Some name) version (Some endpoint))
    /\ az_deploymentName this' = Some name
    /\ forall userModel,
         AzureOpenAIProvider_getModel this' userModel = default name (nonempty userModel).
Proof.
  intros Hinit E.
  destruct (AzureOpenAIProvider_initializeClient_run this w Hinit) as (w0 & _ & _ & _ & E0).
  rewrite E in E0. cbv zeta in E0.
  destruct (truthy (of_azure (providers (shown w)) ≫= apiKey)) eqn:Hkey;
    [|discriminate E0].
  destruct (truthy (of_azure (providers (shown w)) ≫= baseUrl)) eqn:Hend;
    [|discriminate E0].
  destruct (truthy (of_azure (providers (shown w)) ≫= model)) eqn:Hname;
    [|discriminate E0].
  cbn [andb] in E0. injection E0 as -> _.
  apply truthy_nonempty in Hkey as (key & -> & Hkey).
  apply truthy_nonempty in Hend as (endpoint & -> & Hend).
  apply truthy_nonempty in Hname as (name & -> & Hname).
  exists key, endpoint, name,
    (js_or_str (of_azure (providers (shown w)) ≫= apiVersion) "2025-03-01-preview").
  repeat split; try assumption.
  intros userModel. unfold AzureOpenAIProvider_getModel. cbn [az_deploymentName].
  rewrite js_or_nonempty. unfold precedence, nonempty.
  apply String.eqb_neq in Hname. rewrite Hname.
  destruct userModel as [m|]; [destruct (String.eqb m "")|]; reflexivity.
Qed.

Lemma has_or_missing (p : LLMProvider) (c : AppConfig) :
  from_sources p = true -> has_required p c || missing_required p c = true.
Proof.
  destruct p; unfold from_sources, has_required, missing_required; try discriminate; intros _.
  - now destruct (truthy (apiKey (block openai c))).
  - now destruct (truthy (apiKey (block azure c))), (truthy (baseUrl (block azure c))),
      (truthy (model (block azure c))).
Qed.

(** X11. A call through the interface on a cloud or enterprise-cloud
    client, in any state and whatever its outcome, constructs no client,
    leaves every other client as it was, leaves the defaults of the process
    as they were, and touches the disk only through the [loadConfig] of a
    first initialisation. *)
Theorem calls_touch_one_client
    (w : World) (l : nat) (p : LLMProvider) (text : string) (model_ : option string) :
  heap w !! l = Some p ->
  from_sources p = true ->
  forall w',
    w' = snd (LLMProvider_generate l text model_ w)
    \/ w' = snd (LLMProvider_explain l text model_ w) ->
    length (heap w') = length (heap w)
    /\ (forall k, k <> l -> heap w' !! k = heap w !! k)
    /\ (exists p', heap w' !! l = Some p' /\ block_of p' = block_of p)
    /\ defaultConfig w' = defaultConfig w
    /\ disk w' = if initialized p then disk w
                 else disk_after_load (defaultConfig w) (disk w).
Proof.
  intros Hl Hsrc w' Hw'.
  destruct (initialized p) eqn:Hinit.
  - destruct (LLMProvider_calls_initialized w l p text model_ Hl Hinit) as (c & _ & Eg & Ee).
    rewrite Eg, Ee in Hw'. cbn in Hw'. assert (w' = w) as -> by (now destruct Hw').
    repeat split; eauto.
  - pose proof (lookup_lt_Some _ _ _ Hl) as Hlt.
    destruct (LLMProvider_calls_uninitialized w l p text model_ Hl Hinit
                (has_or_missing p (shown w) Hsrc)) as (w0 & Hh & Hc & Hk & Hcall).
    cbv zeta in Hcall.
    assert (Hw0 : exists p', w' = with_heap (<[l := p']> (heap w)) w0 /\ block_of p' = block_of p).
    { destruct (has_required p (shown w)).
      - destruct Hcall as (_ & c & _ & Eg & Ee). rewrite Eg, Ee in Hw'. cbn in Hw'.
        destruct Hw' as [->| ->]; eexists; (split; [reflexivity|now destruct p]).
      - destruct Hcall as (Eg & Ee). rewrite Eg, Ee in Hw'. cbn in Hw'.
        destruct Hw' as [->| ->]; eexists; (split; [reflexivity|now destruct p]). }
    destruct Hw0 as (p' & -> & Hp'). cbn [heap defaultConfig disk with_heap].
    split; [apply length_insert|]. split.
    { intros k Hk'. apply list_lookup_insert_ne. congruence. }
    split; [|auto].
    exists p'. split; [now apply list_lookup_insert_eq|exact Hp'].
Qed.

Lemma shown_after_load (w w1 : World) :
  defaultConfig w = defaultConfig_initial ->
  defaultConfig w1 = defaultConfig w ->
  disk w1 = disk_after_load (defaultConfig w) (disk w) ->
  shown w1 = shown w.
Proof.
  intros Hd Hc Hk. unfold shown, disk_after_load in *. rewrite Hc, Hk, Hd.
  destruct (stored (disk w)) as [l|] eqn:Hs; [now rewrite Hs|].
  now rewrite stored_after_save_valid by apply urls_ok_initial.
Qed.

Lemma spread_field_truthy (a b : option string) :
  truthy b = true -> spread_field a b = b.
Proof. now destruct b. Qed.

(** A property that the updated block holds with a text that is not empty
    is shown by [loadConfig] after [updateProviderConfig]. *)
Lemma fields_after_updateProviderConfig
    (name : ProviderId) (updateData : Partial_LLMProviderConfig) (w : World) :
  defaultConfig w = defaultConfig_initial ->
  url_ok_written updateData = true ->
  exists w1,
    updateProviderConfig name updateData w = (Returned tt, w1)
    /\ heap w1 = heap w
    /\ forall f : LLMProviderConfig -> option string,
         f = apiKey \/ f = baseUrl \/ f = model ->
         truthy (f (block name (updated (shown w) name updateData))) = true ->
         f (block name (shown w1)) = f (block name (updated (shown w) name updateData)).
Proof.
  intros Hd Hu.
  destruct (updateProviderConfig_run name updateData w) as (w1 & E1 & Hh1 & Hc1 & Hk1).
  exists w1. split; [exact E1|]. split; [exact Hh1|].
  assert (Hshown1 : shown w1 = merge_over (defaultConfig w1)
                                 (declared_config (updated (shown w) name updateData))).
  { unfold shown at 1. rewrite Hk1.
    now rewrite stored_after_save_valid
      by (apply urls_ok_updated; [now apply urls_ok_shown|assumption]). }
  intros f Hf Ht.
  rewrite Hshown1, block_merge_over, block_declared_config.
  destruct Hf as [->|[->| ->]]; cbn [apiKey baseUrl model spread declared];
    now apply spread_field_truthy.
Qed.

Lemma has_required_fields (p : LLMProvider) (c c' : AppConfig) :
  (forall f : LLMProviderConfig -> option string,
      f = apiKey \/ f = baseUrl \/ f = model ->
      truthy (f (block (block_of p) c)) = true ->
      f (block (block_of p) c') = f (block (block_of p) c)) ->
  has_required p c = true -> has_required p c' = true.
Proof.
  destruct p; unfold has_required, block_of; intros Hf Hreq; [| |discriminate].
  - now rewrite (Hf apiKey) by auto.
  - apply andb_prop in Hreq as [Hreq Hm]. apply andb_prop in Hreq as [Hk Hb].
    now rewrite (Hf apiKey), (Hf baseUrl), (Hf model), Hk, Hb, Hm by auto.
Qed.

(** X12. Configuring after a rejection makes the same client work.  With
    the defaults of a fresh process: a call on a client that lacks a
    required field is rejected; after an [updateProviderConfig] on the
    client's provider that supplies what is missing, the next call on the
    same client loads the configuration again, initialises from it and
    returns the normalised answer. *)
Theorem retry_after_configuring
    (w : World) (l : nat) (p : LLMProvider) (updateData : Partial_LLMProviderConfig)
    (text : string) (model_ : option string) :
  defaultConfig w = defaultConfig_initial ->
  heap w !! l = Some p ->
  initialized p = false ->
  missing_required p (shown w) = true ->
  url_ok_written updateData = true ->
  has_required p (updated (shown w) (block_of p) updateData) = true ->
  exists w1 w2 p2 client w3,
    LLMProvider_generate l text model_ w = (Thrown (Error (configuration_error p)), w1)
    /\ updateProviderConfig (block_of p) updateData w1 = (Returned tt, w2)
    /\ LLMProvider_generate l text model_ w2
       = (Returned (normalised (chat_completions_create client
                                  (generate_request p2 text model_))), w3)
    /\ heap w3 !! l = Some p2
    /\ initialized p2 = true
    /\ sdk_client p2 = Some client.
Proof.
  intros Hd Hl Hinit Hmiss Hu Hreq.
  pose proof (lookup_lt_Some _ _ _ Hl) as Hlt.
  destruct (LLMProvider_calls_uninitialized w l p text model_ Hl Hinit)
    as (w0 & Hh0 & Hc0 & Hk0 & Hcall); [rewrite Hmiss; apply orb_true_r|].
  cbv zeta in Hcall.
  assert (Hnot : has_required p (shown w) = false).
  { destruct p; unfold has_required, missing_required in *; [| |discriminate].
    - now apply negb_true_iff in Hmiss.
    - rewrite <- !negb_andb in Hmiss. now apply negb_true_iff in Hmiss. }
  rewrite Hnot in Hcall. destruct Hcall as [E1 _].
  set (p1 := rejected_with p (loaded (defaultConfig w) (disk w))) in *.
  set (w1 := with_heap (<[l := p1]> (heap w)) w0) in *.
  assert (Hinit1 : initialized p1 = false) by (subst p1; now destruct p).
  assert (Hd1 : defaultConfig w1 = defaultConfig_initial) by (cbn; congruence).
  assert (Hshown1 : shown w1 = shown w) by (apply shown_after_load; assumption).
  destruct (fields_after_updateProviderConfig (block_of p) updateData w1 Hd1 Hu)
    as (w2 & E2 & Hh2 & Hf2).
  rewrite Hshown1 in Hf2.
  assert (Hl2 : heap w2 !! l = Some p1).
  { rewrite Hh2. cbn. now apply list_lookup_insert_eq. }
  assert (Hreq2 : has_required p1 (shown w2) = true).
  { replace (has_required p1 (shown w2)) with (has_required p (shown w2))
      by (subst p1; now destruct p).
    now apply (has_required_fields p _ _ Hf2). }
  destruct (LLMProvider_calls_uninitialized w2 l p1 text model_ Hl2 Hinit1)
    as (w3 & _ & _ & _ & Hcall2); [now rewrite Hreq2|].
  cbv zeta in Hcall2. rewrite Hreq2 in Hcall2.
  destruct Hcall2 as (Hinit3 & client & Hclient & E3 & _).
  eexists w1, w2, _, client, _.
  split; [exact E1|]. split; [exact E2|]. split; [exact E3|].
  split; [|split; eassumption].
  cbn [heap with_heap]. apply list_lookup_insert_eq. now apply lookup_lt_Some in Hl2.
Qed.
End ClientsMore.

(** ** More on the callers *)

Section CallersMore.
Context `{Runtime} `{LocalLLMConstants}.

Variable spawn : list string -> JsError + ChildProcess.
Variable clipboard_write : string -> option JsError.

(** [handleGenerationPrompt] ends well when the menu it goes on to does. *)
Lemma handleGenerationPrompt_with_ends_well
    (may_quit : bool) (post : Session unit) (prompt : string) :
  never_throws post ->
  (forall this d, is_Some (llmProvider (orchestrator this)) -> ends_well may_quit post (this, d)) ->
  forall s, ends_well may_quit (handleGenerationPrompt_with post prompt) s.
Proof.
  intros Hthrows Hpost [this d].
  destruct (getInitializedLLMProvider_total None (orchestrator this)
              (say [spinner_start ("Processing: " +:+ quote +:+ prompt +:+ quote +:+ "...")]
                 (world (machine d))))
    as (l & orch' & w0 & Hget & Hl).
  unfold ends_well.
  rewrite (handleGenerationPrompt_with_run post prompt this orch' d w0 l Hthrows Hget).
  destruct (LLMProvider_generate l prompt None w0) as [[response|e] w2].
  - cbv zeta. destruct (classify truthy true response).
    + eexists _, _. split; [left; reflexivity|]. cbn. rewrite Hl. eauto.
    + eexists _, _. split; [left; reflexivity|]. cbn. rewrite Hl. eauto.
    + apply Hpost. cbn. rewrite Hl. eauto.
  - eexists _, _. split; [left; reflexivity|]. cbn. rewrite Hl. eauto.
Qed.

(** The menu ends well: every entry returns, but [quit], which exits
    with code 0. *)
Lemma postGenerationActions_ends_well (answers : Answers) :
  forall this d,
    is_Some (llmProvider (orchestrator this)) ->
    ends_well (quits answers) (postGenerationActions spawn clipboard_write answers) (this, d).
Proof.
  induction answers as [confirm| |followUpPrompt next IH| |]; intros this d Hc;
    unfold ends_well; cbn [quits];
    remember (postGenerationActions spawn clipboard_write _ (this, d)) as r eqn:Er;
    cbn [postGenerationActions] in Er; unfold Session_bind at 1 in Er;
    change (on_world get_this (this, d))
      with (@Ends InteractiveSession (Returned this), (this, with_world (world (machine d)) d))
      in Er;
    cbn iota in Er; rewrite with_world_same in Er;
    (destruct (truthy (lastGeneratedCommand this)); cbn [negb] in Er;
     [|exists this, d; split; [|exact Hc]; left; rewrite Er;
       unfold on_world, ret; cbn; now rewrite with_world_same]);
    unfold Session_bind at 1 in Er; rewrite on_world_emit in Er; cbn iota in Er.
  - unfold on_machine in Er. cbn [fst snd machine with_world] in Er.
    destruct (executeLastCommand_returns spawn confirm this
                {| world := say [inquirer_prompt "What next?"] (world (machine d));
                   spawned := spawned (machine d) |}) as (m' & E).
    rewrite E in Er. eexists _, _. split; [left; exact Er|exact Hc].
  - unfold Session_try, Session_bind, clipboard_write_text in Er. cbn [fst snd] in Er.
    destruct (clipboard_write _); [|rewrite on_world_emit in Er];
      (eexists _, _; split; [left; exact Er|exact Hc]).
  - unfold Session_bind at 1 in Er. rewrite on_world_emit in Er. cbn iota in Er.
    destruct (truthy (Some followUpPrompt)).
    + rewrite Er.
      apply (handleGenerationPrompt_with_ends_well (quits next));
        [apply postGenerationActions_never_throws|exact IH].
    + eexists _, _. split; [left; exact Er|exact Hc].
  - rewrite on_world_emit in Er. eexists _, _. split; [left; exact Er|exact Hc].
  - unfold Session_bind in Er. rewrite on_world_emit in Er. unfold process_exit in Er.
    eexists _, _. split; [right; split; [reflexivity|exact Er]|exact Hc].
Qed.

(** X13. Neither handler lets a fault escape, and neither ever finds the
    orchestrator without a client.  Whatever the state, the arguments and
    the outcome of the client's call, [handleExplainCommand] returns
    normally.  [handleGenerationPrompt] returns normally too, whatever
    the user answers in the menu and whatever the child process and the
    clipboard do, unless the user chooses [quit]: then the process exits
    with code 0.  Afterwards the orchestrator holds a client. *)
Theorem handlers_never_throw
    (args : ExplainCommandArgs) (prompt : string) (answers : Answers)
    (this : Orchestrator) (session : InteractiveSession) (w : World) (d : Desktop) :
  (exists this' w',
      handleExplainCommand args (this, w) = (Returned tt, (this', w'))
      /\ is_Some (llmProvider this'))
  /\ ends_well (quits answers) (handleGenerationPrompt spawn clipboard_write answers prompt)
       (session, d).
Proof.
  split.
  - destruct (getInitializedLLMProvider_total (provider args) this w)
      as (l & this' & w0 & Hget & Hl).
    rewrite (handleExplainCommand_run args this this' w w0 l Hget).
    destruct (LLMProvider_explain l (commandToExplain args) None _) as [[response|e] w2];
      eexists _, _; (split; [reflexivity|]); rewrite Hl; eauto.
  - apply handleGenerationPrompt_with_ends_well.
    + apply postGenerationActions_never_throws.
    + apply postGenerationActions_ends_well.
Qed.
End CallersMore.

(** ** The configuration command *)

Section ConfigureFacts.
Context `{Runtime} `{LocalLLMConstants}.
Variable CONFIG_FILE_PATH : string.

Lemma call_run {T A : Type} (m : M A) (this : T) (w w' : World) (o : Outcome A) :
  m w = (o, w') -> call m (this, w) = (o, (this, w')).
Proof. intros E. unfold call. cbn. now rewrite E. Qed.

(** One run of [handleConfigureCommand], up to the question. *)
Lemma handleConfigureCommand_run
    (confirmChanges : bool) (name : ProviderId) (this : Orchestrator) (w : World) :
  exists w0,
    defaultConfig w0 = defaultConfig w
    /\ heap w0 = heap w
    /\ disk w0 = disk_after_load (defaultConfig w) (disk w)
    /\ handleConfigureCommand CONFIG_FILE_PATH confirmChanges name (this, w)
       = if confirmChanges
         then
           match setDefaultProvider name (say [console_log "To re-implement full configuration with inquirer, please see previous Orchestrator code and adapt.";
                                               console_log "For now, exiting simplified configuration step.";
                                               inquirer_prompt "Select default LLM provider:"] w0) with
           | (Returned _, w1) =>
               (Returned tt,
                (this, say [spinner_succeed ("Default provider set to "
                                             +:+ ProviderId_name name +:+ ".");
                            console_log "--- Configuration Finished ---"] w1))
           | (Thrown e, w1) => (Thrown e, (this, w1))
           end
         else (Returned tt, (this, say [console_log "Configuration unchanged."] w0)).
Proof.
  set (wA := say [console_log (LF +:+ "--- ai-shell-js Configuration ---");
                  console_log ("Configuration file: " +:+ CONFIG_FILE_PATH)] w).
  destruct (loadConfig_shown wA) as (w1 & E & Hs & Hc & Hh & Hk).
  exists (say [console_log ("Current settings: " +:+ JSON_stringify (AppConfig_toJs (shown wA)));
               inquirer_prompt "Do you want to modify the configuration?"] w1).
  split; [exact Hc|]. split; [exact Hh|]. split; [exact Hk|].
  unfold handleConfigureCommand.
  unfold bind at 1. rewrite call_emit.
  unfold bind at 1. unfold getConfigFilePath, call at 1, ret. cbn [fst snd].
  unfold bind at 1. rewrite call_emit, say_say. cbn [app]. fold wA.
  unfold bind at 1. rewrite (call_run _ _ _ _ _ E).
  unfold bind at 1, the_world at 1. cbn [fst snd]. rewrite Hs.
  unfold bind at 1. rewrite call_emit.
  unfold bind at 1. rewrite call_emit, say_say. cbn [app].
  destruct confirmChanges; cbn [negb]; [|apply call_emit].
  unfold bind at 1. rewrite call_emit.
  unfold bind at 1. rewrite call_emit, say_say.
  unfold bind at 1. rewrite call_emit, say_say. cbn [app].
  unfold bind at 1. unfold call at 1. cbn [fst snd].
  destruct (setDefaultProvider name _) as [[[]|e] w2]; [|reflexivity].
  unfold bind at 1. rewrite call_emit. rewrite call_emit, say_say. reflexivity.
Qed.

(** X14. Answering no to [handleConfigureCommand] leaves the orchestrator,
    the provider objects and the defaults of the process as they were,
    and a usable configuration file too; what the command may still have
    done is what [loadConfig] does to an unusable file.  Its last line
    says that the configuration is unchanged. *)
Theorem handleConfigureCommand_declined
    (newDefaultProvider : ProviderId) (this : Orchestrator) (w : World) :
  exists w',
    handleConfigureCommand CONFIG_FILE_PATH false newDefaultProvider (this, w)
    = (Returned tt, (this, w'))
    /\ heap w' = heap w
    /\ defaultConfig w' = defaultConfig w
    /\ disk w' = disk_after_load (defaultConfig w) (disk w)
    /\ (is_Some (stored (disk w)) -> disk w' = disk w)
    /\ list.last (console w') = Some (console_log "Configuration unchanged.").
Proof.
  destruct (handleConfigureCommand_run false newDefaultProvider this w)
    as (w0 & Hc & Hh & Hk & E).
  eexists. split; [exact E|]. cbn.
  split; [exact Hh|]. split; [exact Hc|]. split; [exact Hk|]. split.
  - intros [c Hs]. rewrite Hk. unfold disk_after_load. now rewrite Hs.
  - apply last_snoc.
Qed.

(** X15. With the defaults of a fresh process, answering yes to
    [handleConfigureCommand] and choosing [name] makes [name] the default
    provider that [loadConfig] shows, and the factory then constructs the
    client of [name]; the orchestrator that ran the command is unchanged,
    so that a client it already holds is still the one it answers with
    when no provider is named. *)
Theorem handleConfigureCommand_keeps_the_cached_client
    (name : ProviderId) (this : Orchestrator) (w : World) :
  defaultConfig w = defaultConfig_initial ->
  exists w1,
    handleConfigureCommand CONFIG_FILE_PATH true name (this, w) = (Returned tt, (this, w1))
    /\ heap w1 = heap w
    /\ defaultProvider (shown w1) = name
    /\ (exists w2, getLLMProvider None w1 = (Returned (length (heap w1)), w2)
                   /\ heap w2 = (heap w1 ++ [fresh_client name])%list)
    /\ (forall l, llmProvider this = Some l ->
                  getInitializedLLMProvider None (this, w1) = (Returned (Some l), (this, w1))).
Proof.
  intros Hd.
  destruct (handleConfigureCommand_run true name this w) as (w0 & Hc & Hh & Hk & E).
  match type of E with
  | context [setDefaultProvider name ?wB] =>
      destruct (setDefaultProvider_run name wB) as (w1 & E1 & Hh1 & Hc1 & Hk1);
      rewrite E1 in E
  end.
  cbn [heap say with_console] in Hh1.
  eexists. split; [exact E|].
  assert (Hs : defaultProvider
                 (shown (say [spinner_succeed ("Default provider set to "
                                               +:+ ProviderId_name name +:+ ".");
                              console_log "--- Configuration Finished ---"] w1)) = name).
  { rewrite shown_say. unfold shown at 1. rewrite Hk1.
    rewrite stored_after_save_valid; [reflexivity|].
    rewrite urls_ok_with_defaultProvider, shown_say. apply urls_ok_shown.
    now rewrite Hc. }
  split; [cbn; congruence|]. split; [exact Hs|]. split.
  - match goal with
    | |- context [getLLMProvider None ?wC] =>
        destruct (getLLMProvider_run None wC) as (w2 & E2 & Hh2 & _)
    end.
    exists w2. split; [exact E2|]. rewrite Hh2. cbn [default]. now rewrite Hs.
  - intros l Hl. now apply getInitializedLLMProvider_cached.
Qed.
End ConfigureFacts.

(** ** The command-line [explain] action *)

Section ExplainCommandFacts.
Context `{Runtime} `{LocalLLMConstants}.
Variable invalid_enum_value : string -> string.

Lemma say_nil (w : World) : say [] w = w.
Proof. destruct w. unfold say, with_console. cbn. now rewrite app_nil_r. Qed.

Lemma forEach_emit {A : Type} (f : A -> Event) (l : list A) (w : World) :
  forEach l (fun x => emit (f x)) w = (Returned tt, say (map f l) w).
Proof.
  revert w. induction l as [|x l IH]; intros w; cbn [forEach map].
  - unfold ret. now rewrite say_nil.
  - unfold bind. change (emit (f x) w) with (Returned tt, say [f x] w).
    cbn iota. now rewrite IH, say_say.
Qed.

(** X16. The [explain] action of the command line stops at the first
    check: for an empty command, or a provider name that is none of
    [openai], [azure], [local], it prints the heading and one line for
    each issue, then returns; no configuration is read and no client is
    constructed. *)
Theorem explainCommand_action_rejects
    (shellCommand : string) (options_provider : option string) (w : World) :
  shellCommand = ""
  \/ (exists s, options_provider = Some s /\ s <> "openai" /\ s <> "azure" /\ s <> "local") ->
  exists issues,
    issues <> []
    /\ ExplainCommandArgsSchema_safeParse invalid_enum_value shellCommand options_provider
       = inl issues
    /\ explainCommand_action invalid_enum_value shellCommand options_provider w
       = (Returned tt, say (spinner_fail "Invalid parameters:" :: map issue_line issues) w).
Proof.
  intros Hbad.
  assert (Hi : exists i issues,
             ExplainCommandArgsSchema_safeParse invalid_enum_value shellCommand options_provider
             = inl (i :: issues)).
  { unfold ExplainCommandArgsSchema_safeParse.
    destruct Hbad as [->|(s & -> & H1 & H2 & H3)].
    - cbn. eauto.
    - unfold z_enum_ProviderId.
      apply String.eqb_neq in H1, H2, H3. rewrite H1, H2, H3.
      destruct (1 <=? String.length shellCommand)%nat; cbn; eauto. }
  destruct Hi as (i & issues & Hi).
  exists (i :: issues). split; [discriminate|]. split; [exact Hi|].
  unfold explainCommand_action. rewrite Hi.
  unfold bind. change (emit ?e w) with (Returned tt, say [e] w). cbn iota.
  change (fun err : ZodIssue => emit (console_error _)) with (fun err => emit (issue_line err)).
  now rewrite forEach_emit, say_say.
Qed.
End ExplainCommandFacts.

(** ** The execution of a suggestion *)

Section ExecuteFacts.
Variable spawn : list string -> JsError + ChildProcess.

Lemma in_world_emit {T : Type} (e : Event) (this : T) (m : Machine) :
  in_world (emit e) (this, m)
  = (Returned tt, (this, {| world := say [e] (world m); spawned := spawned m |})).
Proof. reflexivity. Qed.

Lemma split_nonempty (sep : ascii) (s : string) : split sep s <> [].
Proof.
  destruct s as [|c r]; cbn; [discriminate|].
  destruct (Ascii.eqb c sep); [discriminate|]. now destruct (split sep r).
Qed.

Lemma concat_split (s : string) : String.concat " " (split " " s) = s.
Proof.
  induction s as [|c r IH]; [reflexivity|]. cbn [split].
  pose proof (split_nonempty " " r) as Hne.
  destruct (Ascii.eqb c " ") eqn:Ec.
  - apply Ascii.eqb_eq in Ec as ->.
    destruct (split " " r) as [|piece pieces]; [contradiction|].
    rewrite <- IH. reflexivity.
  - destruct (split " " r) as [|piece pieces]; [contradiction|].
    rewrite <- IH. now destruct pieces.
Qed.

Lemma no_space_split (s : string) : Forall (fun a => no_space a = true) (split " " s).
Proof.
  induction s as [|c r IH]; [repeat constructor|]. cbn [split].
  destruct (Ascii.eqb c " ") eqn:Ec; [now constructor|].
  destruct (split " " r) as [|piece pieces]; [repeat constructor; cbn; now rewrite Ec|].
  inversion IH; subst. constructor; [cbn; now rewrite Ec|assumption].
Qed.

(** X17. Without a remembered suggestion, or without the user's yes,
    [executeLastCommand] starts no child process: it prints and returns,
    and the session keeps its suggestion. *)
Theorem executeLastCommand_needs_consent
    (confirm : bool) (this : InteractiveSession) (m : Machine) :
  truthy (lastGeneratedCommand this) && confirm = false ->
  exists evs,
    executeLastCommand spawn confirm (this, m)
    = (Returned tt, (this, {| world := say evs (world m); spawned := spawned m |})).
Proof.
  intros Hno. unfold executeLastCommand. unfold bind at 1. cbn [fst snd].
  destruct (truthy (lastGeneratedCommand this)); cbn [negb].
  - cbn in Hno. subst confirm. unfold bind. rewrite in_world_emit. cbn iota.
    rewrite in_world_emit. cbn [world spawned]. rewrite say_say. eauto.
  - rewrite in_world_emit. eauto.
Qed.

(** X18. With a remembered suggestion and the user's yes,
    [executeLastCommand] starts exactly one child process and returns
    normally whatever becomes of it.  The argument vector is the
    suggestion cut at every space: its words have no space, joined by
    spaces they give the suggestion back, and quoting plays no part.
    Success is reported exactly when the child ended with code 0. *)
Theorem executeLastCommand_spawns_the_words
    (this : InteractiveSession) (m : Machine) (cmd : string) :
  lastGeneratedCommand this = Some cmd ->
  cmd <> "" ->
  exists evs,
    executeLastCommand spawn true (this, m)
    = (Returned tt,
       (this, {| world := say evs (world m);
                 spawned := (spawned m ++ [split " " cmd])%list |}))
    /\ String.concat " " (split " " cmd) = cmd
    /\ Forall (fun a => no_space a = true) (split " " cmd)
    /\ (spinner_succeed "Execution successful!" ∈ evs
        <-> exists proc, spawn (split " " cmd) = inr proc /\ exitCode proc = Some 0%Z).
Proof.
  intros Hcmd Hne.
  assert (Ht : truthy (Some cmd) = true).
  { cbn. apply negb_true_iff, String.eqb_neq, Hne. }
  assert (Hparts : default "" (head (split " " cmd)) :: tail (split " " cmd) = split " " cmd).
  { pose proof (split_nonempty " " cmd). now destruct (split " " cmd). }
  unfold executeLastCommand. unfold bind at 1. cbn [fst snd].
  rewrite Hcmd, Ht. cbn [negb]. change (default "" (Some cmd)) with cmd.
  unfold bind at 1. rewrite in_world_emit.
  unfold bind at 1. rewrite in_world_emit. cbn [world spawned]. rewrite say_say. cbn [app].
  cbv zeta. rewrite Hparts.
  unfold try_catch. unfold bind at 1. unfold Bun_spawn at 1. cbn [fst snd world spawned].
  destruct (spawn (split " " cmd)) as [e|proc] eqn:Hs.
  - rewrite in_world_emit. cbn [world spawned]. rewrite say_say. cbn [app].
    eexists. split; [reflexivity|]. split; [apply concat_split|].
    split; [apply no_space_split|]. split.
    + intros Hin. repeat (apply elem_of_cons in Hin as [Hin|Hin]; [discriminate|]).
      now apply elem_of_nil in Hin.
    + intros (proc & [=] & _).
  - destruct (bool_decide (exitCode proc = Some 0%Z)) eqn:Hcode.
    + apply bool_decide_eq_true in Hcode.
      unfold bind at 1. rewrite in_world_emit. cbn [world spawned]. rewrite say_say. cbn [app].
      destruct (truthy (Some (stdout proc)));
        [rewrite in_world_emit; cbn [world spawned]; rewrite say_say; cbn [app]|unfold ret];
        (eexists; split; [reflexivity|]; split; [apply concat_split|];
         split; [apply no_space_split|]; split;
         [intros _; eauto | intros _; rewrite !elem_of_cons; auto 10]).
    + apply bool_decide_eq_false in Hcode.
      unfold bind at 1. rewrite in_world_emit. cbn [world spawned]. rewrite say_say. cbn [app].
      unfold bind at 1.
      destruct (truthy (Some (stderr proc))); cbn [andb negb];
        [rewrite in_world_emit; cbn [world spawned]; rewrite say_say; cbn [app]|unfold ret at 1];
        (destruct (truthy (Some (stdout proc))); cbn [andb negb];
         [try (rewrite in_world_emit; cbn [world spawned]; rewrite say_say; cbn [app])
         |]);
        unfold ret;
        (eexists; split; [reflexivity|]; split; [apply concat_split|];
         split; [apply no_space_split|]; split;
         [intros Hin; repeat (apply elem_of_cons in Hin as [Hin|Hin]; [discriminate|]);
          now apply elem_of_nil in Hin
         |intros (proc' & [= <-] & Hc); contradiction]).
Qed.
End ExecuteFacts.

(** ** The input loop *)

Section StartFacts.
Variable trim : string -> string.

Lemma ascii_toLowerCase_space (c : ascii) : ascii_toLowerCase c = " "%char -> c = " "%char.
Proof. destruct c as [[] [] [] [] [] [] [] []]; cbv; congruence. Qed.

Lemma prefix_toLowerCase (p t : string) :
  String.prefix p (toLowerCase t) = true ->
  exists kw, t = kw +:+ substring_from (String.length p) t /\ toLowerCase kw = p.
Proof.
  revert t. induction p as [|a p IH]; intros t Hp.
  - now exists "".
  - destruct t as [|c t]; [discriminate|]. cbn in Hp.
    destruct (ascii_dec a (ascii_toLowerCase c)) as [->|]; [|discriminate].
    destruct (IH t Hp) as (kw & Ht & Hkw).
    exists (String c kw). split; [|cbn; now rewrite Hkw].
    change (String c t = String c (kw +:+ substring_from (String.length p) t)).
    now rewrite <- Ht.
Qed.

Lemma append_empty (s : string) : s +:+ "" = s.
Proof.
  induction s as [|a s IH]; [reflexivity|].
  change (String a (s +:+ "") = String a s). now rewrite IH.
Qed.

Lemma explain_keyword (kw : string) :
  toLowerCase kw = "explain " -> exists kw', kw = kw' +:+ " ".
Proof.
  intros Hkw.
  do 8 (destruct kw as [|? kw]; [discriminate|]).
  destruct kw; [|discriminate].
  cbn in Hkw. injection Hkw as _ _ _ _ _ _ _ Hs.
  apply ascii_toLowerCase_space in Hs as ->.
  now eexists (String _ (String _ (String _ (String _ (String _ (String _ (String _ ""))))))).
Qed.

(** X19. For a [trim] that leaves no space at the end, a turn of the loop
    of [start] never shows the usage line of [explain]: an input that
    reaches the [explain] branch carries a command.  The command handed to
    [handleExplainCommand] is not empty and is what follows the keyword
    in the trimmed input, in the user's own case; the prompt handed to
    [handleGenerationPrompt] is the trimmed input, and is not empty. *)
Theorem start_never_shows_usage (userInput : string) :
  (forall s t, trim s <> t +:+ " ") ->
  start_branch trim userInput <> shows_usage
  /\ (forall c, start_branch trim userInput = explains c ->
        c <> "" /\ exists kw, trim userInput = kw +:+ c /\ toLowerCase kw = "explain ")
  /\ (forall p, start_branch trim userInput = generates p ->
        p = trim userInput /\ p <> "").
Proof.
  intros trim_end. unfold start_branch.
  destruct (truthy (Some (trim userInput))) eqn:Ht; cbn [negb];
    [|repeat split; discriminate].
  assert (Hne : trim userInput <> "").
  { cbn in Ht. now apply negb_true_iff, String.eqb_neq in Ht. }
  cbv zeta.
  destruct (String.eqb (toLowerCase (trim userInput)) "quit"
            || String.eqb (toLowerCase (trim userInput)) "exit");
    [repeat split; discriminate|].
  destruct (startsWith (toLowerCase (trim userInput)) "explain ") eqn:Hp.
  - apply prefix_toLowerCase in Hp as (kw & Hkw & Hlow).
    destruct (explain_keyword kw Hlow) as (kw' & ->).
    destruct (truthy (Some (substring_from (String.length "explain ") (trim userInput))))
      eqn:Hc.
    + split; [discriminate|]. split; [|discriminate].
      intros c [= <-]. split.
      * cbn in Hc. now apply negb_true_iff, String.eqb_neq in Hc.
      * eauto.
    + exfalso. cbn [truthy] in Hc. apply negb_false_iff, String.eqb_eq in Hc.
      rewrite Hc, append_empty in Hkw. exact (trim_end userInput kw' Hkw).
  - destruct (String.eqb (toLowerCase (trim userInput)) "config"
              || String.eqb (toLowerCase (trim userInput)) "configure");
      [repeat split; discriminate|].
    split; [discriminate|]. split; [discriminate|]. now intros p [= <-].
Qed.
End StartFacts.

Lemma trimEnd_no_space (s t : string) : trimEnd s <> t +:+ " ".
Proof.
  revert t. induction s as [|c r IH]; intros t; cbn [trimEnd].
  - now destruct t.
  - destruct (trimEnd r) as [|c' r'] eqn:Hr.
    + destruct (is_blank c) eqn:Hb; [now destruct t|].
      destruct t as [|a t]; cbn; [|now destruct t].
      intros [= ->]. discriminate.
    + destruct t as [|a t]; cbn; [discriminate|].
      intros [= -> Ht]. exact (IH t Ht).
Qed.

(** ** The further theorems at concrete states *)

Lemma saveConfig_invalid_writes_nothing_witness :
  let R := reference_runtime failing_endpoint in
  let w := process_start NoDir in
  urls_ok config_with_bad_url = false
  /\ saveConfig config_with_bad_url w = (Returned tt, say (save_rejected config_with_bad_url) w).
Proof.
  intros R w.
  assert (Hu : urls_ok config_with_bad_url = false) by (vm_compute; reflexivity).
  split; [exact Hu|]. exact (saveConfig_invalid_writes_nothing config_with_bad_url w Hu).
Defined.

Lemma saveConfig_valid_overwrites_witness :
  let R := reference_runtime failing_endpoint in
  let w := process_start (File "{") in
  urls_ok azure_config = true
  /\ saveConfig azure_config w
     = (Returned tt,
        say save_succeeded
          (with_disk (File (JSON_stringify (AppConfig_toJs (declared_config azure_config)))) w)).
Proof.
  intros R w.
  assert (Hu : urls_ok azure_config = true) by (vm_compute; reflexivity).
  split; [exact Hu|]. exact (saveConfig_valid_overwrites azure_config w Hu).
Defined.

Lemma loadConfig_usable_only_reads_witness :
  let R := reference_runtime failing_endpoint in
  let w := process_start (File (JSON_stringify (AppConfig_toJs (declared_config azure_config)))) in
  stored (disk w) = Some (declared_config azure_config)
  /\ loadConfig w
     = (Returned (Fresh (merge_over defaultConfig_initial (declared_config azure_config))),
        say [spinner_start "Loading configuration...";
             spinner_succeed "Configuration loaded successfully."] w).
Proof.
  intros R w.
  assert (Hs : stored (disk w) = Some (declared_config azure_config))
    by (vm_compute; reflexivity).
  split; [exact Hs|]. exact (loadConfig_usable_only_reads w _ Hs).
Defined.

Lemma loadConfig_twice_witness :
  let R := reference_runtime failing_endpoint in
  let w := process_start (File "{") in
  exists r1 w1 r2 w2,
    loadConfig w = (Returned r1, w1)
    /\ loadConfig w1 = (Returned r2, w2)
    /\ is_Some (stored (disk w1))
    /\ deref r2 w2 = deref r1 w1
    /\ disk w2 = disk w1.
Proof. intros R w. exact (loadConfig_twice w eq_refl). Defined.

Lemma setDefaultProvider_then_loadConfig_witness :
  let R := reference_runtime failing_endpoint in
  let w := process_start (File (JSON_stringify (AppConfig_toJs (declared_config azure_config)))) in
  exists w1 after w2,
    setDefaultProvider local w = (Returned tt, w1)
    /\ loadConfig w1 = (Returned after, w2)
    /\ defaultProvider (deref after w2) = local
    /\ forall id, block id (deref after w2) = block id (shown w).
Proof. intros R w. exact (setDefaultProvider_then_loadConfig local w eq_refl). Defined.

Lemma setDefaultProvider_changes_the_defaults_witness :
  let R := reference_runtime failing_endpoint in
  let w := process_start NoDir in
  exists w1,
    setDefaultProvider azure w = (Returned tt, w1)
    /\ (is_Some (stored (disk w)) -> defaultConfig w1 = defaultConfig_initial)
    /\ (Unusable (disk w) ->
        defaultConfig w1 = with_defaultProvider azure defaultConfig_initial
        /\ forall d, Unusable d ->
             exists w2, loadConfig (with_disk d w1) = (Returned TheDefault, w2)
                        /\ defaultProvider (deref TheDefault w2) = azure).
Proof. intros R w. exact (setDefaultProvider_changes_the_defaults azure w eq_refl). Defined.

Lemma updateProviderConfig_apiVersion_witness :
  let R := reference_runtime failing_endpoint in
  let w := process_start (File (JSON_stringify (AppConfig_toJs (declared_config azure_config)))) in
  let updateData := {| apiKey_of := omitted; baseUrl_of := omitted; model_of := undefined;
                       apiVersion_of := given "2024-06-01" |} in
  url_ok_written updateData = true
  /\ exists w1 after w2,
       updateProviderConfig azure updateData w = (Returned tt, w1)
       /\ loadConfig w1 = (Returned after, w2)
       /\ apiVersion (block azure (deref after w2))
          = match stored (disk w) with
            | Some _ => None
            | None => Property_text (apiVersion_of updateData)
            end
       /\ (forall s j, disk w2 = File s -> JSON_parse s = Some j -> has_key "apiVersion" j = false).
Proof.
  intros R w updateData.
  assert (Hu : url_ok_written updateData = true) by (vm_compute; reflexivity).
  split; [exact Hu|]. exact (updateProviderConfig_apiVersion azure updateData w eq_refl Hu).
Defined.

Lemma first_call_initializes_once_witness :
  let R := reference_runtime listing_endpoint in
  let L := example_local_constants in
  let p := an_AzureOpenAIProvider new_AzureOpenAIProvider in
  let w := {| defaultConfig := defaultConfig_initial;
              disk := File (JSON_stringify (AppConfig_toJs (declared_config azure_config)));
              heap := [p]; console := [] |} in
  has_required p (shown w) = true
  /\ exists client w1,
       let p1 := initialized_from p (shown w) (loaded (defaultConfig w) (disk w)) in
       let answer :=
         normalised (chat_completions_create client (generate_request p1 "list files" None)) in
       initialized p1 = true
       /\ sdk_client p1 = Some client
       /\ LLMProvider_generate 0 "list files" None w = (Returned answer, w1)
       /\ heap w1 = <[0%nat := p1]> (heap w)
       /\ disk w1 = disk_after_load (defaultConfig w) (disk w)
       /\ forall text' model',
            (exists response,
                LLMProvider_generate 0 text' model' w1 = (Returned response, w1))
            /\ (exists response,
                   LLMProvider_explain 0 text' model' w1 = (Returned response, w1)).
Proof.
  intros R L p w.
  assert (Hr : has_required p (shown w) = true) by (vm_compute; reflexivity).
  split; [exact Hr|].
  exact (first_call_initializes_once w 0%nat p "list files" None eq_refl eq_refl Hr).
Defined.

Lemma rejected_call_leaves_client_uninitialized_witness :
  let R := reference_runtime listing_endpoint in
  let L := example_local_constants in
  let p := an_OpenAIProvider new_OpenAIProvider in
  let w := process_with p in
  missing_required p (shown w) = true
  /\ exists w1,
       let p1 := rejected_with p (loaded (defaultConfig w) (disk w)) in
       LLMProvider_generate 0 "list files" None w
       = (Thrown (Error (configuration_error p)), w1)
       /\ heap w1 = <[0%nat := p1]> (heap w)
       /\ initialized p1 = false
       /\ sdk_client p1 = sdk_client p
       /\ defaultConfig w1 = defaultConfig w
       /\ disk w1 = disk_after_load (defaultConfig w) (disk w).
Proof.
  intros R L p w.
  assert (Hm : missing_required p (shown w) = true) by (vm_compute; reflexivity).
  split; [exact Hm|].
  exact (rejected_call_leaves_client_uninitialized w 0%nat p "list files" None
           eq_refl eq_refl Hm).
Defined.

Lemma azure_fallback_is_unreachable_witness :
  let R := reference_runtime listing_endpoint in
  let this := new_AzureOpenAIProvider in
  let w := process_start (File (JSON_stringify (AppConfig_toJs (declared_config azure_config)))) in
  let this' := fst (snd (AzureOpenAIProvider_initializeClient (this, w))) in
  let w' := snd (snd (AzureOpenAIProvider_initializeClient (this, w))) in
  AzureOpenAIProvider_initializeClient (this, w) = (Returned tt, (this', w'))
  /\ exists key endpoint name version,
       key <> "" /\ endpoint <> "" /\ name <> ""
       /\ az_client this' = Some (new_AzureOpenAI (Some key) (Some name) version (Some endpoint))
       /\ az_deploymentName this' = Some name
       /\ forall userModel,
            AzureOpenAIProvider_getModel this' userModel = default name (nonempty userModel).
Proof.
  intros R this w this' w'.
  assert (E : AzureOpenAIProvider_initializeClient (this, w) = (Returned tt, (this', w')))
    by (vm_compute; reflexivity).
  split; [exact E|].
  exact (azure_fallback_is_unreachable this this' w w' eq_refl E).
Defined.

Lemma calls_touch_one_client_witness :
  let R := reference_runtime listing_endpoint in
  let L := example_local_constants in
  let p := an_OpenAIProvider ready_OpenAIProvider in
  let q := an_AzureOpenAIProvider new_AzureOpenAIProvider in
  let w := {| defaultConfig := defaultConfig_initial; disk := NoDir;
              heap := [p; q]; console := [] |} in
  let w' := snd (LLMProvider_explain 1 "list files" None w) in
  length (heap w') = length (heap w)
  /\ (forall k, k <> 1%nat -> heap w' !! k = heap w !! k)
  /\ (exists p', heap w' !! 1%nat = Some p' /\ block_of p' = block_of q)
  /\ defaultConfig w' = defaultConfig w
  /\ disk w' = if initialized q then disk w
               else disk_after_load (defaultConfig w) (disk w).
Proof.
  intros R L p q w w'.
  exact (calls_touch_one_client w 1%nat q "list files" None eq_refl eq_refl
           w' (or_intror eq_refl)).
Defined.

Lemma retry_after_configuring_witness :
  let R := reference_runtime listing_endpoint in
  let L := example_local_constants in
  let p := an_OpenAIProvider new_OpenAIProvider in
  let w := process_with p in
  let updateData := only_apiKey "secret" in
  missing_required p (shown w) = true
  /\ url_ok_written updateData = true
  /\ has_required p (updated (shown w) (block_of p) updateData) = true
  /\ exists w1 w2 p2 client w3,
       LLMProvider_generate 0 "list files" None w
       = (Thrown (Error (configuration_error p)), w1)
       /\ updateProviderConfig (block_of p) updateData w1 = (Returned tt, w2)
       /\ LLMProvider_generate 0 "list files" None w2
          = (Returned (normalised (chat_completions_create client
                                     (generate_request p2 "list files" None))), w3)
       /\ heap w3 !! 0%nat = Some p2
       /\ initialized p2 = true
       /\ sdk_client p2 = Some client.
Proof.
  intros R L p w updateData.
  assert (Hm : missing_required p (shown w) = true) by (vm_compute; reflexivity).
  assert (Hu : url_ok_written updateData = true) by (vm_compute; reflexivity).
  assert (Hr : has_required p (updated (shown w) (block_of p) updateData) = true)
    by (vm_compute; reflexivity).
  split; [exact Hm|]. split; [exact Hu|]. split; [exact Hr|].
  exact (retry_after_configuring w 0%nat p updateData "list files" None
           eq_refl eq_refl eq_refl Hm Hu Hr).
Defined.

Lemma handleConfigureCommand_keeps_the_cached_client_witness :
  let R := reference_runtime listing_endpoint in
  let L := example_local_constants in
  let this := {| llmProvider := Some 0%nat |} in
  let w := process_with (an_OpenAIProvider ready_OpenAIProvider) in
  exists w1,
    handleConfigureCommand "/home/user/.ai-shell-js/config.json" true local (this, w)
    = (Returned tt, (this, w1))
    /\ heap w1 = heap w
    /\ defaultProvider (shown w1) = local
    /\ (exists w2, getLLMProvider None w1 = (Returned (length (heap w1)), w2)
                   /\ heap w2 = (heap w1 ++ [fresh_client local])%list)
    /\ (forall l, llmProvider this = Some l ->
                  getInitializedLLMProvider None (this, w1) = (Returned (Some l), (this, w1))).
Proof.
  intros R L this w.
  exact (handleConfigureCommand_keeps_the_cached_client
           "/home/user/.ai-shell-js/config.json" local this w eq_refl).
Defined.

Lemma explainCommand_action_rejects_witness :
  let R := reference_runtime listing_endpoint in
  let L := example_local_constants in
  let invalid_enum_value := fun s : string => "Invalid enum value, received '" +:+ s +:+ "'" in
  let w := process_start NoDir in
  exists issues,
    issues <> []
    /\ ExplainCommandArgsSchema_safeParse invalid_enum_value "ls -la" (Some "OpenAI") = inl issues
    /\ explainCommand_action invalid_enum_value "ls -la" (Some "OpenAI") w
       = (Returned tt, say (spinner_fail "Invalid parameters:" :: map issue_line issues) w).
Proof.
  intros R L invalid_enum_value w.
  apply (explainCommand_action_rejects invalid_enum_value "ls -la" (Some "OpenAI") w).
  right. exists "OpenAI". repeat split; discriminate.
Defined.

Lemma executeLastCommand_needs_consent_witness :
  let this := {| orchestrator := {| llmProvider := None |};
                 lastGeneratedCommand := Some "rm -rf build" |} in
  let m := {| world := process_start NoDir; spawned := [] |} in
  exists evs,
    executeLastCommand (echo_spawn "") false (this, m)
    = (Returned tt, (this, {| world := say evs (world m); spawned := spawned m |})).
Proof.
  intros this m.
  exact (executeLastCommand_needs_consent (echo_spawn "") false this m eq_refl).
Defined.

Lemma executeLastCommand_spawns_the_words_witness :
  let this := {| orchestrator := {| llmProvider := None |};
                 lastGeneratedCommand := Some "ls  -la" |} in
  let m := {| world := process_start NoDir; spawned := [] |} in
  split " " "ls  -la" = ["ls"; ""; "-la"]
  /\ exists evs,
       executeLastCommand (echo_spawn "total 0") true (this, m)
       = (Returned tt,
          (this, {| world := say evs (world m);
                    spawned := (spawned m ++ [split " " "ls  -la"])%list |}))
       /\ String.concat " " (split " " "ls  -la") = "ls  -la"
       /\ Forall (fun a => no_space a = true) (split " " "ls  -la")
       /\ (spinner_succeed "Execution successful!" ∈ evs
           <-> exists proc, echo_spawn "total 0" (split " " "ls  -la") = inr proc
                            /\ exitCode proc = Some 0%Z).
Proof.
  intros this m. split; [reflexivity|].
  apply (executeLastCommand_spawns_the_words (echo_spawn "total 0") this m "ls  -la" eq_refl).
  discriminate.
Defined.

Lemma start_never_shows_usage_witness :
  let userInput := "  Explain ls -la  " in
  start_branch ascii_trim userInput = explains "ls -la"
  /\ start_branch ascii_trim "explain  " = generates "explain"
  /\ start_branch ascii_trim userInput <> shows_usage
  /\ (forall c, start_branch ascii_trim userInput = explains c ->
        c <> "" /\ exists kw, ascii_trim userInput = kw +:+ c /\ toLowerCase kw = "explain ")
  /\ (forall p, start_branch ascii_trim userInput = generates p ->
        p = ascii_trim userInput /\ p <> "").
Proof.
  intros userInput. split; [reflexivity|]. split; [reflexivity|].
  apply (start_never_shows_usage ascii_trim userInput).
  intros s t. exact (trimEnd_no_space (trimStart s) t).
Defined.
